(** * GHEtool: hourly geothermal load data

    A shallow embedding of
    [GHEtool/VariableClasses/LoadData/GeothermalLoad/HourlyGeothermalLoad.py]
    and of the abstract contract in
    [GHEtool/VariableClasses/LoadData/_LoadData.py].

    Conventions of the embedding.
    - A number held in a load array is an exact rational ([Qc]) or NaN.
      The rounding of float64 arithmetic, the wrap-around of int64
      arithmetic and the infinities are not modelled: a sum or a
      difference below is the exact one.  The theorems that settle a
      claim or state a further property either do not depend on how
      numpy rounds, or are restricted to series on which numpy's
      arithmetic is exact; the lemmas that compute a sum, such as
      [imbalance_run], give the exact one.
    - A sequence is flat: its entries are numbers, NaN or [None].  Nested
      sequences and arrays of two or more dimensions have no counterpart.
      A list or tuple without [None] is one of floats or ints, an array
      without [None] one of a numeric dtype; an array of dtype object
      comes in as an array with a [None] among its entries.
    - Mutable Python objects live in a store: one heap for sequence objects
      (numpy arrays, lists, tuples) and one for load instances.  A reference
      is an index into its heap; allocation appends, so a fresh object can
      never alias an old one.
    - A method is a computation [M A]: it takes the store, returns a value
      or raises, and hands back the store it leaves behind.
    - The logger and [warnings.warn] append to an output trace. *)

From Stdlib Require Import QArith Qcanon.
From stdpp Require Import base numbers list strings.

Local Open Scope Qc_scope.

(** ** Python values and objects *)

(** The exceptions that occur.  [SystemError] is what the model answers
    to a reference that points nowhere, which no Python program can
    make. *)
Inductive exn : Type :=
  | ValueError
  | TypeError
  | AttributeError
  | IndexError
  | SystemError.

Inductive res (A : Type) : Type :=
  | Ret (a : A)
  | Raise (e : exn).
Arguments Ret {A} a.
Arguments Raise {A} e.

(** An entry of a sequence: a number, the float NaN (which arithmetic,
    [np.min], [np.max] and [np.sum] hand on, and which compares false
    with everything), or the object [None] (on which arithmetic and
    ordering raise [TypeError]). *)
Inductive elem : Type :=
  | Num (x : Qc)
  | NaN
  | NoneElem.

Inductive seq_kind : Type := ndarray | pylist | pytuple.

(** A sequence object: a one-dimensional array, list or tuple, or a
    zero-dimensional numpy array (what [np.array] makes of a scalar).
    Arrays of two or more dimensions, which [np.array] makes of nested
    sequences, are outside the model. *)
Inductive arr : Type :=
  | Seq (k : seq_kind) (items : list elem)
  | Array0 (e : elem).

(** The attributes of a load instance.  [_hourly_heating_load] and
    [_hourly_cooling_load] are the two attributes this class declares; they
    hold references into the sequence heap (the class only ever assigns
    them [np.zeros(8760)] or an object that passed [_check_input]).
    The remaining attributes are read by this class and owned by its base
    class. *)
Record HourlyGeothermalLoad : Type := mkLoad {
  hourly_resolution : bool;
  simulation_period : Z;
  dhw : Qc;
  start_month : Z;
  all_months_equal : bool;
  _hourly_heating_load : nat;
  _hourly_cooling_load : nat
}.

Inductive event : Type :=
  | LoggerError (msg : string)
  | Warning (years : Z).

Record state : Type := mkState {
  arrays : list arr;
  loads : list HourlyGeothermalLoad;
  out : list event
}.

(** ** The computation monad: store passing with exceptions *)

Definition M (A : Type) : Type := state → res A * state.

Global Instance M_ret : MRet M := λ A a s, (Ret a, s).
Global Instance M_bind : MBind M := λ A B f m s,
  match m s with
  | (Ret a, s') => f a s'
  | (Raise e, s') => (Raise e, s')
  end.

Definition raise {A} (e : exn) : M A := λ s, (Raise e, s).

Definition lift {A} (r : res A) : M A := λ s, (r, s).

(** [try: m except TypeError: handler] *)
Definition except_TypeError {A} (m : M A) (handler : M A) : M A := λ s,
  match m s with
  | (Raise TypeError, s') => handler s'
  | r => r
  end.

Definition emit (e : event) : M () := λ s,
  (Ret (), mkState (arrays s) (loads s) (out s ++ [e])).

Definition alloc (a : arr) : M nat := λ s,
  (Ret (length (arrays s)), mkState (arrays s ++ [a]) (loads s) (out s)).

Definition deref (l : nat) : M arr := λ s,
  match arrays s !! l with
  | Some a => (Ret a, s)
  | None => (Raise SystemError, s)
  end.

Definition new_load (r : HourlyGeothermalLoad) : M nat := λ s,
  (Ret (length (loads s)), mkState (arrays s) (loads s ++ [r]) (out s)).

Definition get_load (l : nat) : M HourlyGeothermalLoad := λ s,
  match loads s !! l with
  | Some r => (Ret r, s)
  | None => (Raise SystemError, s)
  end.

Definition put_load (l : nat) (r : HourlyGeothermalLoad) : M () := λ s,
  (Ret (), mkState (arrays s) (<[l := r]> (loads s)) (out s)).

(** A Python value as a method receives it: an immediate, a reference to
    a list, tuple or array or to a load instance, or an object of some
    other class.  Of such an object the model keeps what the class looks
    at: whether it has an [__add__] and an [__radd__] attribute and what
    calling them on a load does; and what [np.array] makes of it: a
    one-dimensional array with the entries of the sequence at [array] for
    an array-like (a range, a pandas series), a zero-dimensional array
    when [array] is [None]. *)
#[local] Set Warnings "-register-all".
Inductive value : Type :=
  | VNum (x : Qc)
  | VNone
  | VStr (s : string)
  | VNotImplemented
  | VSeq (l : nat)
  | VLoad (l : nat)
  | VObject (add radd : option (nat → M value)) (array : option nat).

(** ** Python and numpy primitives on sequences *)

Definition Qc_ltb (x y : Qc) : bool := bool_decide (x < y).

Definition sum_Qc (l : list Qc) : Qc := foldr Qcplus 0 l.

Definition Qc_max (x y : Qc) : Qc := if Qc_ltb x y then y else x.
Definition Qc_min (x y : Qc) : Qc := if Qc_ltb y x then y else x.

Definition max_Qc (x : Qc) (l : list Qc) : Qc := foldl Qc_max x l.
Definition min_Qc (x : Qc) (l : list Qc) : Qc := foldl Qc_min x l.

(** The numbers of a sequence, when all its entries are numbers other
    than NaN. *)
Fixpoint nums (items : list elem) : option (list Qc) :=
  match items with
  | [] => Some []
  | Num x :: rest => cons x <$> nums rest
  | _ :: _ => None
  end.

Definition is_None (e : elem) : bool :=
  match e with NoneElem => true | _ => false end.

(** [len(a)]; a zero-dimensional array is unsized. *)
Definition py_len (a : arr) : res Z :=
  match a with
  | Seq _ items => Ret (Z.of_nat (length items))
  | Array0 _ => Raise TypeError
  end.

(** [np.min] of a one-dimensional sequence.  An empty sequence has no
    minimum; a single entry is returned as it is; from two entries on
    they are compared, which raises [TypeError] when one of them is
    [None]; among numbers a NaN wins, numpy's minimum handing NaN on. *)
Definition np_min_items (items : list elem) : res elem :=
  match items with
  | [] => Raise ValueError
  | [e] => Ret e
  | _ =>
      if existsb is_None items then Raise TypeError
      else match nums items with
           | Some (x :: xs) => Ret (Num (min_Qc x xs))
           | _ => Ret NaN
           end
  end.

Definition np_min (a : arr) : res elem :=
  match a with
  | Seq _ items => np_min_items items
  | Array0 e => Ret e
  end.

(** [m < 0] for an entry [m]: false for NaN, [TypeError] for [None]. *)
Definition lt_zero (m : elem) : res bool :=
  match m with
  | Num x => Ret (Qc_ltb x 0)
  | NaN => Ret false
  | NoneElem => Raise TypeError
  end.

(** [np.max] of a one-dimensional sequence, as [np.min]. *)
Definition np_max_items (items : list elem) : res elem :=
  match items with
  | [] => Raise ValueError
  | [e] => Ret e
  | _ =>
      if existsb is_None items then Raise TypeError
      else match nums items with
           | Some (x :: xs) => Ret (Num (max_Qc x xs))
           | _ => Ret NaN
           end
  end.

(** [np.sum] of a one-dimensional sequence: 0 when it is empty, the
    entry when there is one, their sum otherwise, which raises
    [TypeError] when one of them is [None] and is NaN when one of them
    is.  The sum of numbers is the exact one: numpy's is that sum where
    no addition rounds (float64) or wraps around (int64), and differs
    from it elsewhere. *)
Definition np_sum_items (items : list elem) : res elem :=
  match items with
  | [e] => Ret e
  | _ =>
      if existsb is_None items then Raise TypeError
      else match nums items with
           | Some xs => Ret (Num (sum_Qc xs))
           | None => Ret NaN
           end
  end.

Definition np_sum (a : arr) : res elem :=
  match a with
  | Seq _ items => np_sum_items items
  | Array0 e => Ret e
  end.

(** Elementwise arithmetic of numpy.  [op] is the operation on numbers,
    exact where numpy's rounds or wraps around. *)
Definition elem_op (op : Qc → Qc → Qc) (a b : elem) : res elem :=
  match a, b with
  | Num x, Num y => Ret (Num (op x y))
  | NoneElem, _ | _, NoneElem => Raise TypeError
  | _, _ => Ret NaN
  end.

Fixpoint mapM_res {A B} (f : A → res B) (l : list A) : res (list B) :=
  match l with
  | [] => Ret []
  | a :: rest =>
      match f a with
      | Raise e => Raise e
      | Ret b =>
          match mapM_res f rest with
          | Raise e => Raise e
          | Ret bs => Ret (b :: bs)
          end
      end
  end.

Fixpoint zip_op (op : Qc → Qc → Qc) (l1 l2 : list elem) : res (list elem) :=
  match l1, l2 with
  | a :: r1, b :: r2 =>
      match elem_op op a b with
      | Raise e => Raise e
      | Ret c =>
          match zip_op op r1 r2 with
          | Raise e => Raise e
          | Ret cs => Ret (c :: cs)
          end
      end
  | _, _ => Ret []
  end.


(** Broadcasting of two one-dimensional shapes: equal lengths pair up, a
    length-one operand is stretched, anything else is a shape mismatch. *)
Definition broadcast_op (op : Qc → Qc → Qc) (l1 l2 : list elem)
  : res (list elem) :=
  if decide (length l1 = length l2) then zip_op op l1 l2
  else match l1, l2 with
       | [a], _ => mapM_res (elem_op op a) l2
       | _, [b] => mapM_res (λ a, elem_op op a b) l1
       | _, _ => Raise ValueError
       end.

Definition res_map {A B} (f : A → B) (r : res A) : res B :=
  match r with
  | Ret a => Ret (f a)
  | Raise e => Raise e
  end.

(** A numpy binary operation; lists and tuples are converted on the way
    in, the result is a new array. *)
Definition np_op (op : Qc → Qc → Qc) (a b : arr) : res arr :=
  match a, b with
  | Seq _ l1, Seq _ l2 => res_map (Seq ndarray) (broadcast_op op l1 l2)
  | Array0 e, Seq _ l2 => res_map (Seq ndarray) (mapM_res (elem_op op e) l2)
  | Seq _ l1, Array0 e =>
      res_map (Seq ndarray) (mapM_res (λ x, elem_op op x e) l1)
  | Array0 e1, Array0 e2 => res_map Array0 (elem_op op e1 e2)
  end.

(** [a + b] on two sequence objects: concatenation between two lists or
    two tuples, numpy's elementwise sum as soon as one side is an array. *)
Definition py_add (a b : arr) : res arr :=
  match a, b with
  | Seq pylist l1, Seq pylist l2 => Ret (Seq pylist (l1 ++ l2))
  | Seq pytuple l1, Seq pytuple l2 => Ret (Seq pytuple (l1 ++ l2))
  | Seq pylist _, Seq pytuple _ => Raise TypeError
  | Seq pytuple _, Seq pylist _ => Raise TypeError
  | _, _ => np_op Qcplus a b
  end.

(** [a - b] on two sequence objects: lists and tuples have no subtraction
    of their own. *)
Definition py_sub (a b : arr) : res arr :=
  match a, b with
  | Seq ndarray _, _ | Array0 _, _ | _, Seq ndarray _ | _, Array0 _ =>
      np_op Qcminus a b
  | _, _ => Raise TypeError
  end.

(** [a + x] for a float [x]: only an array can take a scalar. *)
Definition py_add_scalar (a : arr) (x : Qc) : res arr :=
  match a with
  | Seq pylist _ | Seq pytuple _ => Raise TypeError
  | _ => np_op Qcplus a (Array0 (Num x))
  end.

(** Slicing, with Python's clamping of the bounds. *)
Definition slice_index (i : Z) (n : nat) : nat :=
  if (i <? 0)%Z then Z.to_nat (Z.max 0 (Z.of_nat n + i))
  else Z.to_nat (Z.min i (Z.of_nat n)).

Definition py_slice {A} (st en : Z) (l : list A) : list A :=
  let s := slice_index st (length l) in
  let e := slice_index en (length l) in
  take (e - s) (drop s l).

(** [l[i:]] and [l[:i]] *)
Definition slice_from {A} (i : Z) (l : list A) : list A :=
  drop (slice_index i (length l)) l.
Definition slice_to {A} (i : Z) (l : list A) : list A :=
  take (slice_index i (length l)) l.

(** [np.concatenate((l[i:], l[:i]))] *)
Definition rotate_left {A} (i : Z) (l : list A) : list A :=
  slice_from i l ++ slice_to i l.

Definition sum_Z (l : list Z) : Z := foldr Z.add 0%Z l.

Fixpoint cumsum_from (acc : Z) (l : list Z) : list Z :=
  match l with
  | [] => []
  | x :: rest => (acc + x)%Z :: cumsum_from (acc + x)%Z rest
  end.

Definition np_cumsum (l : list Z) : list Z := cumsum_from 0 l.

(** [np.array_split(ary, indices)]: the pieces between consecutive
    division points [0, i1, ..., ik, len(ary)]. *)
Definition array_split {A} (ary : list A) (indices : list Z) : list (list A) :=
  let div_points := 0%Z :: indices ++ [Z.of_nat (length ary)] in
  (λ p, py_slice p.1 p.2 ary) <$> zip div_points (tail div_points).

(** The entries of a one-dimensional sequence; a zero-dimensional array
    cannot be indexed or split. *)
Definition items_of (a : arr) : res (list elem) :=
  match a with
  | Seq _ items => Ret items
  | Array0 _ => Raise IndexError
  end.

(** [np.array(v)]: a new array with the entries of a list, tuple, array
    or array-like; a zero-dimensional array of a number and of any object
    that numpy does not read as a sequence. *)
Definition np_array (v : value) : M nat :=
  match v with
  | VSeq l | VObject _ _ (Some l) =>
      a ← deref l;
      alloc (match a with Seq _ items => Seq ndarray items | Array0 e => Array0 e end)
  | VNum x => alloc (Array0 (Num x))
  | _ => alloc (Array0 NoneElem)
  end.

Definition np_zeros (n : Z) : M nat :=
  alloc (Seq ndarray (replicate (Z.to_nat n) (Num 0))).

(** ** The base class

    [_LoadData.py] declares [hourly_resolution], the abstract accessors
    and [imbalance].  [HourlyGeothermalLoad] passes [simulation_period] to
    the initialiser of its base class as well, and reads [dhw],
    [start_month], [all_months_equal] and [UPM] from it: the base class it
    is written against has these attributes, and they are fields of the
    instance record here. *)

(** Modelled from the spec: [UPM], the hours per month, which no source
    file defines: "a fixed ordered sequence of 12 integers (non-leap-year
    hour counts per month, summing to 8760)", and "8760/12 per month
    uniformly" in all-months-equal mode. *)
Definition UPM (r : HourlyGeothermalLoad) : list Z :=
  if all_months_equal r then replicate 12 730%Z
  else [744; 672; 744; 720; 744; 720; 744; 744; 720; 744; 720; 744]%Z.

(** What looking a name up on an instance gives: a bound method, still
    to be called, or the value of a property, already computed. *)
Inductive attribute : Type :=
  | BoundMethod (call : M nat)
  | PropertyValue (l : nat).

(** [x()]: an array is not callable. *)
Definition call_attribute (x : attribute) : M nat :=
  match x with
  | BoundMethod call => call
  | PropertyValue _ => raise TypeError
  end.

(** [_LoadData.imbalance]:
    [np.sum(self.baseload_cooling() - self.baseload_heating())], over the
    lookups of the two names on the instance.  [_LoadData] declares them
    as abstract methods; [HourlyGeothermalLoad] defines them as
    properties, and overrides [imbalance] with its own. *)
Definition _LoadData_imbalance (baseload_cooling baseload_heating : M attribute)
  : M elem :=
  fc ← baseload_cooling;
  c ← call_attribute fc;
  fh ← baseload_heating;
  h ← call_attribute fh;
  ac ← deref c;
  ah ← deref h;
  d ← lift (py_sub ac ah);
  ld ← alloc d;
  lift (np_sum d).

(** ** HourlyGeothermalLoad *)

(** Attribute assignment. *)
Definition with_heating (r : HourlyGeothermalLoad) (l : nat) :=
  mkLoad (hourly_resolution r) (simulation_period r) (dhw r)
         (start_month r) (all_months_equal r) l (_hourly_cooling_load r).

Definition with_cooling (r : HourlyGeothermalLoad) (l : nat) :=
  mkLoad (hourly_resolution r) (simulation_period r) (dhw r)
         (start_month r) (all_months_equal r) (_hourly_heating_load r) l.

Definition with_dhw (r : HourlyGeothermalLoad) (x : Qc) :=
  mkLoad (hourly_resolution r) (simulation_period r) x
         (start_month r) (all_months_equal r)
         (_hourly_heating_load r) (_hourly_cooling_load r).

Definition log_error (msg : string) : M () := emit (LoggerError msg).

(** [_check_input] *)
Definition _check_input (self : nat) (load_array : value) : M bool :=
  match load_array with
  | VSeq l =>
      a ← deref l;
      n ← lift (py_len a);
      if negb (n =? 8760)%Z then
        log_error "The length of the load should be 8760.";;
        mret false
      else
        m ← lift (np_min a);
        negative ← lift (lt_zero m);
        if (negative : bool) then
          log_error "No value in the load can be smaller than zero.";;
          mret false
        else mret true
  | _ =>
      log_error "The load should be of type np.ndarray, list or tuple.";;
      mret false
  end.

(** [_start_hour]: [int(np.sum([self.UPM[i] for i in range(self.start_month - 1)]))] *)
Definition _start_hour (r : HourlyGeothermalLoad) : res Z :=
  let n := Z.to_nat (start_month r - 1) in
  if decide (n ≤ length (UPM r))%nat then Ret (sum_Z (take n (UPM r)))
  else Raise IndexError.

(** [correct_for_start_month]: the very object it was given when the
    year starts in January, a new array otherwise. *)
Definition correct_for_start_month (self : nat) (array : nat) : M nat :=
  r ← get_load self;
  if (start_month r =? 1)%Z then mret array
  else
    a ← deref array;
    sh ← lift (_start_hour r);
    items ← lift (items_of a);
    alloc (Seq ndarray (rotate_left sh items)).

(** getter of [hourly_heating_load] *)
Definition hourly_heating_load (self : nat) : M nat :=
  r ← get_load self;
  a ← deref (_hourly_heating_load r);
  t ← lift (py_add_scalar a (dhw r / Qc_of_Z 8760));
  l ← alloc t;
  correct_for_start_month self l.

(** setter of [hourly_heating_load]: the reference it was given is what
    it stores.  (A value that [_check_input] accepts is a reference to a
    sequence, so the last case of the match is never taken.) *)
Definition set_hourly_heating_load (self : nat) (load : value) : M () :=
  ok ← _check_input self load;
  if (ok : bool) then
    match load with
    | VSeq l => r ← get_load self; put_load self (with_heating r l)
    | _ => raise SystemError
    end
  else raise ValueError.

Definition set_hourly_heating (self : nat) (load : value) : M () :=
  set_hourly_heating_load self load.

(** getter of [hourly_cooling_load] *)
Definition hourly_cooling_load (self : nat) : M nat :=
  r ← get_load self;
  correct_for_start_month self (_hourly_cooling_load r).

(** setter of [hourly_cooling_load] *)
Definition set_hourly_cooling_load (self : nat) (load : value) : M () :=
  ok ← _check_input self load;
  if (ok : bool) then
    match load with
    | VSeq l => r ← get_load self; put_load self (with_cooling r l)
    | _ => raise SystemError
    end
  else raise ValueError.

Definition set_hourly_cooling (self : nat) (load : value) : M () :=
  set_hourly_cooling_load self load.

(** Modelled from the spec: the assignment [self.dhw = dhw], which goes
    to the base class's [dhw] attribute; no source file defines it.  The
    spec has "`dhw`: a non-negative scalar" and "`dhw` ≥ 0" among the
    invariants and names no error for it.  The model is the field write;
    whether and how the base class refuses a negative value is not
    modelled. *)
Definition set_dhw (self : nat) (x : Qc) : M () :=
  r ← get_load self; put_load self (with_dhw r x).

(** [imbalance]: [np.sum(self.hourly_cooling_load - self.hourly_heating_load)] *)
Definition imbalance (self : nat) : M elem :=
  c ← hourly_cooling_load self;
  h ← hourly_heating_load self;
  ac ← deref c;
  ah ← deref h;
  d ← lift (py_sub ac ah);
  ld ← alloc d;
  lift (np_sum d).

(** Whether the pieces stack into a two-dimensional array, as
    [np.max(data, axis=1)] needs them to. *)
Definition rectangular {A} (data : list (list A)) : bool :=
  match data with
  | [] => true
  | c :: rest => forallb (λ c', Nat.eqb (length c') (length c)) rest
  end.

(** [resample_to_monthly]: (peak per month, baseload per month) *)
Definition resample_to_monthly (self : nat) (hourly_load : nat) : M (nat * nat) :=
  r ← get_load self;
  a ← deref hourly_load;
  items ← lift (items_of a);
  let data := array_split items (slice_to (-1) (np_cumsum (UPM r))) in
  if all_months_equal r then
    if rectangular data then
      peak ← lift (mapM_res np_max_items data);
      p ← alloc (Seq ndarray peak);
      base ← lift (mapM_res np_sum_items data);
      b ← alloc (Seq ndarray base);
      mret (p, b)
    else raise ValueError
  else
    peak ← lift (mapM_res np_max_items data);
    p ← alloc (Seq ndarray peak);
    base ← lift (mapM_res np_sum_items data);
    b ← alloc (Seq ndarray base);
    mret (p, b).

Definition baseload_cooling (self : nat) : M nat :=
  l ← hourly_cooling_load self;
  pb ← resample_to_monthly self l;
  mret pb.2.

Definition baseload_heating (self : nat) : M nat :=
  l ← hourly_heating_load self;
  pb ← resample_to_monthly self l;
  mret pb.2.

(** The lookup of the names [baseload_cooling] and [baseload_heating] on
    an instance of this class: they are properties, so the lookup runs
    the accessor and gives what it returns. *)
Definition getattr_baseload_cooling (self : nat) : M attribute :=
  l ← baseload_cooling self; mret (PropertyValue l).

Definition getattr_baseload_heating (self : nat) : M attribute :=
  l ← baseload_heating self; mret (PropertyValue l).

Definition peak_cooling (self : nat) : M nat :=
  l ← hourly_cooling_load self;
  pb ← resample_to_monthly self l;
  mret pb.1.

Definition peak_heating (self : nat) : M nat :=
  l ← hourly_heating_load self;
  pb ← resample_to_monthly self l;
  mret pb.1.

Section Construction.

(** Modelled from the spec: what the base-class initialiser, which no
    source file shows in the form this class calls it, leaves in
    [start_month] and [all_months_equal]: "inherited contextual
    configuration (owned by the base contract)". *)
Variable base_start_month : Z.
Variable base_all_months_equal : bool.

(** [__init__]; [VNone] for an argument left at its default. *)
Definition __init__ (heating_load cooling_load : value)
    (simulation_period : Z) (dhw : Qc) : M nat :=
  z1 ← np_zeros 8760;
  z2 ← np_zeros 8760;
  self ← new_load (mkLoad true simulation_period 0
                          base_start_month base_all_months_equal z1 z2);
  h ← match heating_load with
      | VNone => np_zeros 8760
      | _ => np_array heating_load
      end;
  set_hourly_heating_load self (VSeq h);;
  c ← match cooling_load with
      | VNone => np_zeros 8760
      | _ => np_array cooling_load
      end;
  set_hourly_cooling_load self (VSeq c);;
  set_dhw self dhw;;
  mret self.

(** The [__add__] attribute of a value that is not a load: a float has
    one that answers [NotImplemented]; a string's raises; a list's or a
    tuple's raises; [None] and [NotImplemented] have none; an array adds
    entry by entry, which raises on the first entry.  (A load never
    reaches this lookup: [__add__] handles it before.) *)
Definition getattr_add (other : value) : option (nat → M value) :=
  match other with
  | VNum _ => Some (λ _, mret VNotImplemented)
  | VStr _ => Some (λ _, raise TypeError)
  | VSeq l =>
      Some (λ _,
        a ← deref l;
        match a with
        | Seq ndarray [] => e ← alloc (Seq ndarray []); mret (VSeq e)
        | _ => raise TypeError
        end)
  | VObject add _ _ => add
  | VNone | VNotImplemented | VLoad _ => None
  end.

(** The [__radd__] attribute of a value that is not a load: a float has
    one that answers [NotImplemented]; a string, a list, a tuple, [None]
    and [NotImplemented] have none.  (An array has one, which is never
    reached: the operator turns to [__radd__] only after [__add__]
    answered [NotImplemented], which an array's never does.) *)
Definition getattr_radd (other : value) : option (nat → M value) :=
  match other with
  | VNum _ => Some (λ _, mret VNotImplemented)
  | VObject _ radd _ => radd
  | _ => None
  end.

(** [__add__] *)
Definition __add__ (self : nat) (other : value) : M value :=
  match other with
  | VLoad o =>
      a ← get_load self;
      b ← get_load o;
      (if bool_decide (simulation_period a ≠ simulation_period b) then
         emit (Warning (Z.max (simulation_period a) (simulation_period b)))
       else (mret () : M ()));;
      ha ← deref (_hourly_heating_load a);
      hb ← deref (_hourly_heating_load b);
      hs ← lift (py_add ha hb);
      lh ← alloc hs;
      ca ← deref (_hourly_cooling_load a);
      cb ← deref (_hourly_cooling_load b);
      cs ← lift (py_add ca cb);
      lc ← alloc cs;
      c ← __init__ (VSeq lh) (VSeq lc)
            (Z.max (simulation_period a) (simulation_period b))
            (dhw a + dhw b);
      mret (VLoad c)
  | _ =>
      match getattr_add other with
      | None => raise AttributeError
      | Some f => except_TypeError (f self) (raise TypeError)
      end
  end.

(** The expression [a + other] for a load [a]: Python calls
    [a.__add__(other)]; when that answers [NotImplemented] and [other] is
    of another class, it calls [other.__radd__(a)]; when there is none,
    or it answers [NotImplemented] too, [TypeError] is raised. *)
Definition binary_add (self : nat) (other : value) : M value :=
  r ← __add__ self other;
  match r, other with
  | VNotImplemented, VLoad _ => raise TypeError
  | VNotImplemented, _ =>
      match getattr_radd other with
      | None => raise TypeError
      | Some f =>
          r' ← f self;
          match r' with
          | VNotImplemented => raise TypeError
          | _ => mret r'
          end
      end
  | _, _ => mret r
  end.

End Construction.

(** ** Vocabulary of the statements *)

(** Consecutive pieces of the given sizes. *)
Fixpoint chunks {A} (sizes : list nat) (l : list A) : list (list A) :=
  match sizes with
  | [] => []
  | n :: rest => take n l :: chunks rest (drop n l)
  end.

(** The store after a log message. *)
Definition logged (s : state) (msg : string) : state :=
  mkState (arrays s) (loads s) (out s ++ [LoggerError msg]).

(** [s'] has the objects of [s], unchanged, and possibly new arrays. *)
Definition extends (s s' : state) : Prop :=
  (∃ new, arrays s' = arrays s ++ new) ∧ loads s' = loads s ∧ out s' = out s.

(** The candidate is a list, tuple or one-dimensional array of exactly
    8760 numbers, none of them NaN and none of them negative. *)
Definition valid_load (s : state) (v : value) : Prop :=
  ∃ l k xs, v = VSeq l ∧ arrays s !! l = Some (Seq k (Num <$> xs))
            ∧ Z.of_nat (length xs) = 8760%Z ∧ Forall (Qcle 0) xs.

(** The candidate holds no entry other than numbers: it is no list,
    tuple or array at all, or a list, tuple or one-dimensional array of
    numbers, none of them NaN. *)
Definition plain_candidate (s : state) (v : value) : Prop :=
  match v with
  | VSeq l => ∃ k xs, arrays s !! l = Some (Seq k (Num <$> xs))
  | _ => True
  end.

(** The store after an attribute assignment on [self]. *)
Definition assigned (s : state) (self : nat) (r : HourlyGeothermalLoad) : state :=
  mkState (arrays s) (<[self := r]> (loads s)) (out s).

(** The ways a candidate fails validation: it is no list, tuple or array;
    its length is not 8760; it holds 8760 numbers, none of them NaN, and
    one of them is negative. *)
Inductive fails_validation (s : state) : value → Prop :=
  | wrong_type (v : value) :
      (∀ l, v ≠ VSeq l) → fails_validation s v
  | wrong_length (l : nat) (k : seq_kind) (items : list elem) :
      arrays s !! l = Some (Seq k items) →
      Z.of_nat (length items) ≠ 8760%Z →
      fails_validation s (VSeq l)
  | negative_value (l : nat) (k : seq_kind) (xs : list Qc) (x : Qc) :
      arrays s !! l = Some (Seq k (Num <$> xs)) →
      Z.of_nat (length xs) = 8760%Z →
      x ∈ xs → x < 0 →
      fails_validation s (VSeq l).

(** The ways a candidate makes validation raise [TypeError]: it is a
    zero-dimensional array, which has no length; or it has 8760 entries
    and one of them is [None]. *)
Inductive breaks_validation (s : state) : value → Prop :=
  | unsized (l : nat) (e : elem) :
      arrays s !! l = Some (Array0 e) →
      breaks_validation s (VSeq l)
  | not_a_number (l : nat) (k : seq_kind) (items : list elem) :
      arrays s !! l = Some (Seq k items) →
      Z.of_nat (length items) = 8760%Z →
      NoneElem ∈ items →
      breaks_validation s (VSeq l).

(** [r'] has the attributes that [r] owes to the base class. *)
Definition same_base (r r' : HourlyGeothermalLoad) : Prop :=
  hourly_resolution r' = hourly_resolution r
  ∧ simulation_period r' = simulation_period r
  ∧ dhw r' = dhw r
  ∧ start_month r' = start_month r
  ∧ all_months_equal r' = all_months_equal r.

(** [r'] is [r] with the object at [l] as its heating series, or as its
    cooling series, and is [r] in everything else. *)
Definition heating_replaced (r : HourlyGeothermalLoad) (l : nat)
    (r' : HourlyGeothermalLoad) : Prop :=
  _hourly_heating_load r' = l
  ∧ _hourly_cooling_load r' = _hourly_cooling_load r
  ∧ same_base r r'.

Definition cooling_replaced (r : HourlyGeothermalLoad) (l : nat)
    (r' : HourlyGeothermalLoad) : Prop :=
  _hourly_cooling_load r' = l
  ∧ _hourly_heating_load r' = _hourly_heating_load r
  ∧ same_base r r'.

(** The offset of the rotation: the hours of the months before
    [start_month]. *)
Definition start_hour_of (r : HourlyGeothermalLoad) : Z :=
  sum_Z (take (Z.to_nat (start_month r - 1)) (UPM r)).

(** The heating series as read: the stored one with the hot water spread
    over the hours of the year. *)
Definition with_hot_water (r : HourlyGeothermalLoad) (H : list Qc) : list Qc :=
  (λ x, x + dhw r / Qc_of_Z 8760) <$> H.

(** The twelve months of a series: consecutive pieces of [UPM] hours. *)
Definition months {A} (r : HourlyGeothermalLoad) (l : list A) : list (list A) :=
  chunks (Z.to_nat <$> UPM r) l.

(** The greatest entry of a month. *)
Definition chunk_max (c : list Qc) : Qc :=
  match c with
  | [] => 0
  | x :: rest => max_Qc x rest
  end.

(** [np.zeros(8760)] as a series of numbers. *)
Definition zero_series : list Qc := replicate (Z.to_nat 8760) 0.

(** What the constructor accepts for a load argument: the default, or a
    list, tuple or array of 8760 numbers, none negative.  The second index
    is the series that the new instance stores. *)
Inductive init_arg (s : state) : value → list Qc → Prop :=
  | arg_default : init_arg s VNone zero_series
  | arg_series (l : nat) (k : seq_kind) (xs : list Qc) :
      arrays s !! l = Some (Seq k (Num <$> xs)) →
      Z.of_nat (length xs) = 8760%Z →
      Forall (Qcle 0) xs →
      init_arg s (VSeq l) xs.

(** The trace after the simulation periods were compared. *)
Definition period_warning (p1 p2 : Z) : list event :=
  if bool_decide (p1 ≠ p2) then [Warning (Z.max p1 p2)] else [].

(** ** An example store *)

Definition constant_series (x : Z) : list Qc :=
  replicate (Z.to_nat 8760) (Qc_of_Z x).

(** Arrays 0 to 3 are the series of two loads; 4 is a Python list of
    numbers, 5 a list of 8760 times [None], 6 a list of zeros, 7 and 8 the
    arrays of a third load, 9 a tuple one entry short. *)
Definition example_arrays : list arr :=
  [ Seq ndarray (Num <$> constant_series 1);
    Seq ndarray (Num <$> constant_series 2);
    Seq ndarray (Num <$> constant_series 3);
    Seq ndarray (Num <$> constant_series 4);
    Seq pylist (Num <$> constant_series 5);
    Seq pylist (replicate (Z.to_nat 8760) NoneElem);
    Seq pylist (Num <$> zero_series);
    Seq ndarray (Num <$> zero_series);
    Seq ndarray (Num <$> zero_series);
    Seq pytuple (Num <$> replicate (Z.to_nat 8759) 1) ].

(** heating 1 and cooling 2 every hour, 20 years, no hot water,
    the year starting in March *)
Definition load_A : HourlyGeothermalLoad := mkLoad true 20 0 3 false 0 1.

(** heating 3 and cooling 4 every hour, 25 years, 100 kWh of hot water *)
Definition load_B : HourlyGeothermalLoad := mkLoad true 25 (Qc_of_Z 100) 3 false 2 3.

(** no heating, no cooling, 8760 kWh of hot water, the year starting in
    September *)
Definition load_C : HourlyGeothermalLoad := mkLoad true 20 (Qc_of_Z 8760) 9 true 7 8.

Definition example_store : state :=
  mkState example_arrays [load_A; load_B; load_C] [].

(** A store with irregular sequences.  Arrays 0 and 1 are the series of
    its load; 2 is a zero-dimensional array, as [np.array(5.0)] makes one;
    3 is a list of 8760 entries, the first of them -1 and the others
    [None]; 4 is an array of 8760 floats, the first of them NaN and the
    others 1; 5 is an array of 8760 floats: NaN, -1, and zeros. *)
Definition irregular_arrays : list arr :=
  [ Seq ndarray (Num <$> constant_series 1);
    Seq ndarray (Num <$> constant_series 2);
    Array0 (Num (Qc_of_Z 5));
    Seq pylist (Num (Qc_of_Z (-1)) :: replicate (Z.to_nat 8759) NoneElem);
    Seq ndarray (NaN :: (Num <$> replicate (Z.to_nat 8759) 1));
    Seq ndarray (NaN :: Num (Qc_of_Z (-1))
                 :: (Num <$> replicate (Z.to_nat 8758) 0)) ].

Definition irregular_store : state :=
  mkState irregular_arrays [mkLoad true 20 0 1 false 0 1] [].

(** An object of another class whose [__add__] answers with a string. *)
Definition stringly : value :=
  VObject (Some (λ _, mret (VStr "sum"))) None None.

(** Both loads are handed the list at 4 as their heating series, then
    added. *)
Definition add_after_list_assignment : M value :=
  set_hourly_heating 0 (VSeq 4);;
  set_hourly_heating 1 (VSeq 4);;
  __add__ 1 false 0 (VLoad 1).

(** The third load is handed the list of zeros at 6 as its heating
    series, then read. *)
Definition read_heating_after_list_assignment : M nat :=
  set_hourly_heating 2 (VSeq 6);;
  hourly_heating_load 2.

(** A load with no cooling is handed the list at 4 as its heating series,
    then asked for its imbalance. *)
Definition imbalance_after_list_assignment : M elem :=
  set_hourly_cooling 0 (VSeq 7);;
  set_hourly_heating 0 (VSeq 4);;
  imbalance 0.

(** ** The views over the simulation period, and equality *)

(** [np.tile(a, reps)] for an integer [reps]: the entries laid end to
    end [reps] times.  A zero-dimensional array counts as one entry; an
    empty input gives an empty array whatever [reps] is; otherwise a
    negative [reps] is refused. *)
Definition np_tile (a : arr) (reps : Z) : res arr :=
  let items := match a with Seq _ items => items | Array0 e => [e] end in
  match items with
  | [] => Ret (Seq ndarray [])
  | _ =>
      if (reps <? 0)%Z then Raise ValueError
      else Ret (Seq ndarray (concat (replicate (Z.to_nat reps) items)))
  end.

(** [hourly_cooling_load_simulation_period] *)
Definition hourly_cooling_load_simulation_period (self : nat) : M nat :=
  l ← hourly_cooling_load self;
  r ← get_load self;
  a ← deref l;
  t ← lift (np_tile a (simulation_period r));
  alloc t.

(** [hourly_heating_load_simulation_period] *)
Definition hourly_heating_load_simulation_period (self : nat) : M nat :=
  l ← hourly_heating_load self;
  r ← get_load self;
  a ← deref l;
  t ← lift (np_tile a (simulation_period r));
  alloc t.

(** [hourly_load_simulation_period] *)
Definition hourly_load_simulation_period (self : nat) : M nat :=
  c ← hourly_cooling_load_simulation_period self;
  h ← hourly_heating_load_simulation_period self;
  ac ← deref c;
  ah ← deref h;
  d ← lift (py_sub ac ah);
  alloc d.

(** [==] on two entries *)
Definition elem_eqb (a b : elem) : bool :=
  match a, b with
  | Num x, Num y => bool_decide (x = y)
  | NoneElem, NoneElem => true
  | _, _ => false
  end.

(** [np.array_equal(a, b)]: the same shape and the same entries. *)
Definition np_array_equal (a b : arr) : bool :=
  match a, b with
  | Seq _ l1, Seq _ l2 =>
      bool_decide (length l1 = length l2)
      && forallb (λ p, elem_eqb p.1 p.2) (zip l1 l2)
  | Array0 e1, Array0 e2 => elem_eqb e1 e2
  | _, _ => false
  end.

(** [__eq__] *)
Definition __eq__ (self : nat) (other : value) : M bool :=
  match other with
  | VLoad o =>
      c1 ← hourly_cooling_load self;
      c2 ← hourly_cooling_load o;
      a1 ← deref c1;
      a2 ← deref c2;
      if negb (np_array_equal a1 a2) then mret false
      else
        h1 ← hourly_heating_load self;
        h2 ← hourly_heating_load o;
        b1 ← deref h1;
        b2 ← deref h2;
        if negb (np_array_equal b1 b2) then mret false
        else
          r1 ← get_load self;
          r2 ← get_load o;
          mret (bool_decide (simulation_period r1 = simulation_period r2))
  | _ => mret false
  end.

(** Reading the property [getter] in the store [s] gives the series of
    numbers [xs]. *)
Definition reads (getter : M nat) (s : state) (xs : list Qc) : Prop :=
  ∃ l s' k, getter s = (Ret l, s') ∧ arrays s' !! l = Some (Seq k (Num <$> xs)).

(** The constructor arguments that are refused, with the exception they
    meet.  A number, a string or an object that numpy does not read as a
    sequence becomes a zero-dimensional array, which has no length.  A
    list, tuple or array of the wrong length, or of 8760 numbers, none
    NaN, one of which is negative, fails validation. *)
Inductive bad_arg (s : state) : value → exn → Prop :=
  | bad_number (x : Qc) : bad_arg s (VNum x) TypeError
  | bad_string (str : string) : bad_arg s (VStr str) TypeError
  | bad_object (add radd : option (nat → M value)) :
      bad_arg s (VObject add radd None) TypeError
  | bad_length (l : nat) (k : seq_kind) (items : list elem) :
      arrays s !! l = Some (Seq k items) →
      Z.of_nat (length items) ≠ 8760%Z →
      bad_arg s (VSeq l) ValueError
  | bad_negative (l : nat) (k : seq_kind) (xs : list Qc) (x : Qc) :
      arrays s !! l = Some (Seq k (Num <$> xs)) →
      Z.of_nat (length xs) = 8760%Z →
      x ∈ xs → x < 0 →
      bad_arg s (VSeq l) ValueError.

(** What validation lets through: 8760 entries, none of them [None], and
    all of them numbers that are at least 0, unless a NaN is among
    them. *)
Definition passes_validation (items : list elem) : Prop :=
  Z.of_nat (length items) = 8760%Z
  ∧ (NoneElem ∉ items)
  ∧ ((NaN ∈ items) ∨ (∃ xs, items = Num <$> xs ∧ Forall (Qcle 0) xs)).

(** Both series of the instance are numpy arrays that validation lets
    through. *)
Definition holds_arrays (s : state) (r : HourlyGeothermalLoad) : Prop :=
  ∃ hs cs,
    arrays s !! _hourly_heating_load r = Some (Seq ndarray hs)
    ∧ arrays s !! _hourly_cooling_load r = Some (Seq ndarray cs)
    ∧ passes_validation hs ∧ passes_validation cs.

(** ** Further example loads *)

(** [load_D]: heating 1 and cooling 2 every hour, the year starting in
    January, made with a negative simulation period.  [load_E]: the
    series of [load_C] with its hot water moved into the heating series,
    which is then 1 every hour. *)
Definition load_D : HourlyGeothermalLoad := mkLoad true (-1) 0 1 false 0 1.
Definition load_E : HourlyGeothermalLoad := mkLoad true 20 0 9 true 0 8.

Definition further_store : state :=
  mkState example_arrays [load_C; load_D; load_E] [].
(** * Properties *)

(** ** Numbers *)

Lemma Qc_ltb_true (x y : Qc) : Qc_ltb x y = true ↔ x < y.
Proof. unfold Qc_ltb. apply bool_decide_eq_true. Qed.

Lemma Qc_ltb_false (x y : Qc) : Qc_ltb x y = false ↔ y ≤ x.
Proof.
  unfold Qc_ltb. rewrite bool_decide_eq_false. symmetry. apply Qcle_ngt.
Qed.

Lemma Qc_min_nonneg (x y : Qc) : 0 ≤ Qc_min x y ↔ 0 ≤ x ∧ 0 ≤ y.
Proof.
  unfold Qc_min. destruct (Qc_ltb y x) eqn:E.
  - apply Qc_ltb_true in E. split; [|tauto].
    intros Hy. split; [|done].
    apply Qcle_trans with y; [done | by apply Qclt_le_weak].
  - apply Qc_ltb_false in E. split; [|tauto].
    intros Hx. split; [done|]. by apply Qcle_trans with x.
Qed.

Lemma min_Qc_nonneg (l : list Qc) (x : Qc) :
  0 ≤ min_Qc x l ↔ Forall (Qcle 0) (x :: l).
Proof.
  unfold min_Qc. revert x. induction l as [|y l IH]; intros x; simpl.
  - rewrite Forall_singleton. done.
  - rewrite IH, !Forall_cons, Qc_min_nonneg. tauto.
Qed.

Lemma Qc_max_ge_l (x y : Qc) : x ≤ Qc_max x y.
Proof.
  unfold Qc_max. destruct (Qc_ltb x y) eqn:E.
  - apply Qc_ltb_true in E. by apply Qclt_le_weak.
  - apply Qcle_refl.
Qed.

Lemma Qc_max_ge_r (x y : Qc) : y ≤ Qc_max x y.
Proof.
  unfold Qc_max. destruct (Qc_ltb x y) eqn:E.
  - apply Qcle_refl.
  - by apply Qc_ltb_false in E.
Qed.

Lemma Qc_max_cases (x y : Qc) : Qc_max x y = x ∨ Qc_max x y = y.
Proof. unfold Qc_max. destruct (Qc_ltb x y); auto. Qed.

(** [max_Qc x l] is the greatest entry of [x :: l]. *)
Lemma max_Qc_is_max (l : list Qc) (x : Qc) :
  max_Qc x l ∈ x :: l ∧ Forall (λ y, y ≤ max_Qc x l) (x :: l).
Proof.
  unfold max_Qc. revert x. induction l as [|y l IH]; intros x; simpl.
  - split; [apply elem_of_cons; by left|]. apply Forall_singleton, Qcle_refl.
  - destruct (IH (Qc_max x y)) as [Hin Hall]. split.
    + rewrite !elem_of_cons. apply elem_of_cons in Hin as [->|Hin]; [|tauto].
      destruct (Qc_max_cases x y) as [->| ->]; tauto.
    + apply Forall_cons in Hall as [Hm Hall].
      repeat apply Forall_cons_2; [| |done].
      * apply Qcle_trans with (Qc_max x y); [apply Qc_max_ge_l | done].
      * apply Qcle_trans with (Qc_max x y); [apply Qc_max_ge_r | done].
Qed.


Lemma sum_Qc_nonneg (l : list Qc) : Forall (Qcle 0) l → 0 ≤ sum_Qc l.
Proof.
  unfold sum_Qc. induction 1 as [|x l Hx _ IH]; simpl.
  - apply Qcle_refl.
  - replace (Q2Qc 0) with (0 + 0) by ring. by apply Qcplus_le_compat.
Qed.

(** The sum of a series does not depend on the order of its entries. *)
Lemma sum_Qc_Permutation (l1 l2 : list Qc) :
  l1 ≡ₚ l2 → sum_Qc l1 = sum_Qc l2.
Proof.
  unfold sum_Qc. induction 1; simpl; try congruence. ring.
Qed.

Lemma sum_Qc_add_const (d : Qc) (l : list Qc) :
  sum_Qc ((λ x, x + d) <$> l) = sum_Qc l + Qc_of_Z (Z.of_nat (length l)) * d.
Proof.
  unfold sum_Qc. induction l as [|x l IH].
  - change (Qc_of_Z (Z.of_nat (length (@nil Qc)))) with (Qc_of_Z 0).
    rewrite Z2Qc_inj_0. simpl. ring.
  - rewrite fmap_cons, length_cons, Nat2Z.inj_succ. simpl foldr. rewrite IH.
    unfold Z.succ. rewrite Z2Qc_inj_add, Z2Qc_inj_1. ring.
Qed.

Lemma sum_Qc_zip_minus (l1 l2 : list Qc) :
  length l1 = length l2 →
  sum_Qc (zip_with Qcminus l1 l2) = sum_Qc l1 - sum_Qc l2.
Proof.
  unfold sum_Qc. revert l2. induction l1 as [|x l1 IH]; intros [|y l2] Hlen;
    simplify_eq/=.
  - ring.
  - rewrite IH by done. ring.
Qed.

Lemma sum_Qc_zeros (l : list Qc) : Forall (λ x, x = 0) l → sum_Qc l = 0.
Proof.
  unfold sum_Qc. induction 1 as [|x l -> _ IH]; simpl; [done|].
  rewrite IH. ring.
Qed.

(** ** Sequences of numbers *)

Lemma nums_fmap (xs : list Qc) : nums (Num <$> xs) = Some xs.
Proof.
  induction xs as [|x xs IH]; [done|].
  rewrite fmap_cons. cbn [nums]. by rewrite IH.
Qed.


Lemma nums_Some (items : list elem) (xs : list Qc) :
  nums items = Some xs → items = Num <$> xs.
Proof.
  revert xs. induction items as [|[x| |] items IH]; intros xs; simpl.
  - by intros [= <-].
  - destruct (nums items) as [ys|] eqn:E; simpl; [|done].
    intros [= <-]. by rewrite (IH ys).
  - done.
  - done.
Qed.

Lemma nums_None (items : list elem) :
  nums items = None ↔ NaN ∈ items ∨ NoneElem ∈ items.
Proof.
  induction items as [|[x| |] items IH]; simpl.
  - split; [done|]. by intros [?%elem_of_nil|?%elem_of_nil].
  - split.
    + intros H. destruct (nums items) eqn:E; [done|].
      destruct (proj1 IH eq_refl); [left|right]; apply elem_of_cons; by right.
    + intros [H|H]; apply elem_of_cons in H as [[=]|H];
        rewrite (proj2 IH) by tauto; done.
  - split; [|done]. intros _. left. apply elem_of_cons. by left.
  - split; [|done]. intros _. right. apply elem_of_cons. by left.
Qed.

Lemma existsb_is_None (items : list elem) :
  existsb is_None items = true ↔ NoneElem ∈ items.
Proof.
  rewrite existsb_exists. split.
  - intros ([] & Hin & He); try done. by apply list_elem_of_In.
  - intros Hin. exists NoneElem. split; [by apply list_elem_of_In|done].
Qed.

Lemma existsb_is_None_nums (xs : list Qc) :
  existsb is_None (Num <$> xs) = false.
Proof. induction xs as [|x xs IH]; [done|]. by rewrite fmap_cons. Qed.

Lemma zip_op_nums (op : Qc → Qc → Qc) (xs ys : list Qc) :
  zip_op op (Num <$> xs) (Num <$> ys) = Ret (Num <$> zip_with op xs ys).
Proof.
  revert ys. induction xs as [|x xs IH]; intros [|y ys]; try done.
  rewrite !fmap_cons. cbn [zip_op elem_op zip_with]. by rewrite IH.
Qed.

Lemma mapM_res_scalar_r (op : Qc → Qc → Qc) (d : Qc) (xs : list Qc) :
  mapM_res (λ a, elem_op op a (Num d)) (Num <$> xs)
  = Ret (Num <$> ((λ x, op x d) <$> xs)).
Proof.
  induction xs as [|x xs IH]; [done|].
  rewrite !fmap_cons. cbn [mapM_res elem_op]. by rewrite IH.
Qed.

Lemma mapM_res_length {A B} (f : A → res B) (l : list A) (bs : list B) :
  mapM_res f l = Ret bs → length bs = length l.
Proof.
  revert bs. induction l as [|a l IH]; intros bs; simpl.
  - by intros [= <-].
  - destruct (f a); [|done]. destruct (mapM_res f l) as [bs'|]; [|done].
    intros [= <-]. simpl. by rewrite (IH bs').
Qed.

(** ** Slices and rotation *)

Lemma slice_index_nonneg (i : Z) (n : nat) :
  (0 ≤ i)%Z → slice_index i n = (Z.to_nat i `min` n)%nat.
Proof.
  intros Hi. unfold slice_index.
  destruct (Z.ltb_spec i 0); [lia|]. lia.
Qed.

Lemma rotate_left_nonneg {A} (i : Z) (l : list A) :
  (0 ≤ i)%Z → rotate_left i l = drop (Z.to_nat i) l ++ take (Z.to_nat i) l.
Proof.
  intros Hi. unfold rotate_left, slice_from, slice_to.
  rewrite slice_index_nonneg by done.
  destruct (decide (Z.to_nat i ≤ length l)%nat) as [Hle|Hgt].
  - by rewrite Nat.min_l.
  - rewrite Nat.min_r by lia.
    by rewrite !drop_ge, !take_ge by lia.
Qed.

(** Rotation keeps the multiset of entries. *)
Lemma rotate_left_Permutation {A} (i : Z) (l : list A) : rotate_left i l ≡ₚ l.
Proof.
  unfold rotate_left, slice_from, slice_to.
  rewrite Permutation_app_comm. by rewrite take_drop.
Qed.

Lemma rotate_left_length {A} (i : Z) (l : list A) :
  length (rotate_left i l) = length l.
Proof. apply Permutation_length, rotate_left_Permutation. Qed.

(** Position [j] of the rotated series holds entry [(j + i) mod n] of the
    original one. *)
Lemma rotate_left_lookup {A} (i : Z) (l : list A) (j : nat) :
  (0 ≤ i ≤ Z.of_nat (length l))%Z → (j < length l)%nat →
  rotate_left i l !! j = l !! ((j + Z.to_nat i) mod length l)%nat.
Proof.
  intros Hi Hj. rewrite rotate_left_nonneg by lia.
  set (k := Z.to_nat i). assert (k ≤ length l)%nat as Hk by lia.
  destruct (decide (j < length l - k)%nat) as [Hlt|Hge].
  - rewrite lookup_app_l by (rewrite length_drop; lia).
    rewrite lookup_drop, Nat.mod_small by lia. f_equal. lia.
  - rewrite lookup_app_r by (rewrite length_drop; lia).
    rewrite length_drop, lookup_take_lt by lia.
    f_equal.
    apply Nat.mod_unique with 1%nat; lia.
Qed.

(** Rotating on by the complementary offset gives the series back. *)
Lemma rotate_left_complement {A} (i : Z) (l : list A) :
  (0 ≤ i ≤ Z.of_nat (length l))%Z →
  rotate_left (Z.of_nat (length l) - i) (rotate_left i l) = l.
Proof.
  intros Hi. rewrite (rotate_left_nonneg i) by lia.
  rewrite rotate_left_nonneg by lia.
  set (k := Z.to_nat i). assert (k ≤ length l)%nat as Hk by lia.
  replace (Z.to_nat (Z.of_nat (length l) - i)) with (length l - k)%nat by lia.
  rewrite drop_app_length', take_app_length' by (rewrite length_drop; lia).
  apply take_drop.
Qed.

(** ** Splitting into months *)

Lemma chunks_lengths {A} (sizes : list nat) (l : list A) :
  (sum_list sizes ≤ length l)%nat → length <$> chunks sizes l = sizes.
Proof.
  revert l. induction sizes as [|n sizes IH]; intros l Hlen; simpl in *.
  - done.
  - rewrite length_take, IH by (rewrite length_drop; lia). f_equal. lia.
Qed.


Lemma py_slice_take_drop {A} (st en : Z) (l : list A) :
  (0 ≤ st ≤ en)%Z → (en ≤ Z.of_nat (length l))%Z →
  py_slice st en l = take (Z.to_nat (en - st)) (drop (Z.to_nat st) l).
Proof.
  intros H1 H2. unfold py_slice.
  rewrite !slice_index_nonneg by lia.
  rewrite !Nat.min_l by lia. f_equal. lia.
Qed.

Lemma split_at_cumsum {A} (sizes : list Z) (acc : Z) (l : list A) :
  Forall (λ n, 0 ≤ n)%Z sizes → (0 ≤ acc)%Z →
  (acc + sum_Z sizes ≤ Z.of_nat (length l))%Z →
  (λ p, py_slice p.1 p.2 l)
    <$> zip (acc :: cumsum_from acc sizes) (cumsum_from acc sizes)
  = chunks (Z.to_nat <$> sizes) (drop (Z.to_nat acc) l).
Proof.
  intros Hs. revert acc. induction Hs as [|n sizes Hn Hs IH]; intros acc Hacc Hlen.
  - done.
  - simpl in Hlen. assert (0 ≤ sum_Z sizes)%Z.
    { clear -Hs. induction Hs; simpl; lia. }
    change (zip (acc :: cumsum_from acc (n :: sizes)) (cumsum_from acc (n :: sizes)))
      with ((acc, (acc + n)%Z)
            :: zip ((acc + n)%Z :: cumsum_from (acc + n) sizes)
                   (cumsum_from (acc + n) sizes)).
    rewrite !fmap_cons, IH by lia. cbn [chunks fst snd]. f_equal.
    + rewrite py_slice_take_drop by lia. f_equal. lia.
    + rewrite drop_drop. do 2 f_equal. lia.
Qed.

(** ** Running computations *)

Lemma bind_Ret {A B} (m : M A) (f : A → M B) (s s1 : state) (a : A) :
  m s = (Ret a, s1) → (m ≫= f) s = f a s1.
Proof. intros H. unfold mbind, M_bind. by rewrite H. Qed.

Lemma bind_Raise {A B} (m : M A) (f : A → M B) (s s1 : state) (e : exn) :
  m s = (Raise e, s1) → (m ≫= f) s = (Raise e, s1).
Proof. intros H. unfold mbind, M_bind. by rewrite H. Qed.

Lemma deref_Some (l : nat) (a : arr) (s : state) :
  arrays s !! l = Some a → deref l s = (Ret a, s).
Proof. intros H. unfold deref. by rewrite H. Qed.

Lemma get_load_Some (l : nat) (r : HourlyGeothermalLoad) (s : state) :
  loads s !! l = Some r → get_load l s = (Ret r, s).
Proof. intros H. unfold get_load. by rewrite H. Qed.

(** One step of a computation whose first action returns. *)
Ltac mstep H := erewrite bind_Ret; [| solve [apply H; eauto | eapply H; eauto] ].

(** One step whose first action returns by computation alone. *)
Ltac mcompute := erewrite bind_Ret by reflexivity.

Lemma extends_refl (s : state) : extends s s.
Proof. split; [|done]. exists []. by rewrite app_nil_r. Qed.

Lemma extends_trans (s1 s2 s3 : state) :
  extends s1 s2 → extends s2 s3 → extends s1 s3.
Proof.
  intros ([n1 H1] & L1 & O1) ([n2 H2] & L2 & O2). repeat split.
  - exists (n1 ++ n2). by rewrite H2, H1, app_assoc.
  - congruence.
  - congruence.
Qed.

Lemma extends_lookup (s s' : state) (l : nat) (a : arr) :
  extends s s' → arrays s !! l = Some a → arrays s' !! l = Some a.
Proof. intros ([new ->] & _) H. by apply lookup_app_l_Some. Qed.

Lemma alloc_run (a : arr) (s : state) :
  ∃ s', alloc a s = (Ret (length (arrays s)), s')
        ∧ arrays s' = arrays s ++ [a] ∧ extends s s'.
Proof.
  eexists. split; [reflexivity|]. split; [done|].
  split; [by exists [a] | done].
Qed.

(** ** Validation *)

Lemma check_input_not_a_sequence (s : state) (self : nat) (v : value) :
  (∀ l, v ≠ VSeq l) →
  _check_input self v s
  = (Ret false, logged s "The load should be of type np.ndarray, list or tuple.").
Proof. intros H. destruct v; try done. by destruct (H l). Qed.

Lemma check_input_wrong_length (s : state) (self l : nat) (k : seq_kind)
    (items : list elem) :
  arrays s !! l = Some (Seq k items) →
  Z.of_nat (length items) ≠ 8760%Z →
  _check_input self (VSeq l) s
  = (Ret false, logged s "The length of the load should be 8760.").
Proof.
  intros Hl Hlen. unfold _check_input.
  mstep deref_Some. mcompute.
  by rewrite (proj2 (Z.eqb_neq _ _) Hlen).
Qed.

Lemma min_Qc_single (x : Qc) : min_Qc x [] = x.
Proof. done. Qed.

Lemma np_min_items_long (a b : elem) (items : list elem) :
  np_min_items (a :: b :: items)
  = if existsb is_None (a :: b :: items) then Raise TypeError
    else match nums (a :: b :: items) with
         | Some (x :: xs) => Ret (Num (min_Qc x xs))
         | _ => Ret NaN
         end.
Proof. done. Qed.

Lemma np_max_items_long (a b : elem) (items : list elem) :
  np_max_items (a :: b :: items)
  = if existsb is_None (a :: b :: items) then Raise TypeError
    else match nums (a :: b :: items) with
         | Some (x :: xs) => Ret (Num (max_Qc x xs))
         | _ => Ret NaN
         end.
Proof. done. Qed.

Lemma np_sum_items_long (a b : elem) (items : list elem) :
  np_sum_items (a :: b :: items)
  = if existsb is_None (a :: b :: items) then Raise TypeError
    else match nums (a :: b :: items) with
         | Some xs => Ret (Num (sum_Qc xs))
         | None => Ret NaN
         end.
Proof. done. Qed.

Lemma np_min_items_nums (xs : list Qc) :
  xs ≠ [] →
  ∃ m, np_min_items (Num <$> xs) = Ret (Num m)
       ∧ (Qc_ltb m 0 = false ↔ Forall (Qcle 0) xs).
Proof.
  intros Hne. destruct xs as [|x [|y xs]]; [done| |].
  - exists x. split; [done|].
    rewrite <- (min_Qc_single x) at 1. rewrite Qc_ltb_false. apply min_Qc_nonneg.
  - exists (min_Qc x (y :: xs)). split.
    + rewrite !fmap_cons, np_min_items_long, <- !fmap_cons.
      by rewrite existsb_is_None_nums, nums_fmap.
    + rewrite Qc_ltb_false. apply min_Qc_nonneg.
Qed.

Lemma check_input_numbers (s : state) (self l : nat) (k : seq_kind)
    (xs : list Qc) :
  arrays s !! l = Some (Seq k (Num <$> xs)) →
  Z.of_nat (length xs) = 8760%Z →
  (Forall (Qcle 0) xs ∧ _check_input self (VSeq l) s = (Ret true, s))
  ∨ (¬ Forall (Qcle 0) xs
     ∧ _check_input self (VSeq l) s
       = (Ret false, logged s "No value in the load can be smaller than zero.")).
Proof.
  intros Hl Hlen. unfold _check_input.
  mstep deref_Some. mcompute.
  rewrite length_fmap, Hlen. cbn [Z.eqb Pos.eqb negb].
  destruct (np_min_items_nums xs) as (m & Hm & Hiff).
  { intros ->. done. }
  erewrite bind_Ret by (unfold lift, np_min; by rewrite Hm).
  mcompute.
  destruct (Qc_ltb m 0) eqn:E.
  - right. split; [|done]. intros HF. apply Hiff in HF. done.
  - left. split; [by apply Hiff | done].
Qed.

(** From two entries on, [None] among them makes [np.min] raise. *)
Lemma np_min_items_None (items : list elem) :
  (2 ≤ length items)%nat → NoneElem ∈ items →
  np_min_items items = Raise TypeError.
Proof.
  intros Hlen Hin. destruct items as [|a [|b items]]; [simpl in Hlen; lia..|].
  by rewrite np_min_items_long, (proj2 (existsb_is_None _) Hin).
Qed.

(** From two entries on, without [None], a NaN among them is what
    [np.min] returns. *)
Lemma np_min_items_NaN (items : list elem) :
  (2 ≤ length items)%nat → NoneElem ∉ items → NaN ∈ items →
  np_min_items items = Ret NaN.
Proof.
  intros Hlen Hnone Hnan. destruct items as [|a [|b items]]; [simpl in Hlen; lia..|].
  rewrite np_min_items_long.
  destruct (existsb is_None (a :: b :: items)) eqn:E.
  { by apply existsb_is_None in E. }
  destruct (nums (a :: b :: items)) as [xs|] eqn:Hn; [|done].
  assert (nums (a :: b :: items) = None) as Hn'
    by (apply nums_None; by left).
  congruence.
Qed.

Lemma check_input_None_entry (s : state) (self l : nat) (k : seq_kind)
    (items : list elem) :
  arrays s !! l = Some (Seq k items) →
  Z.of_nat (length items) = 8760%Z →
  NoneElem ∈ items →
  _check_input self (VSeq l) s = (Raise TypeError, s).
Proof.
  intros Hl Hlen Hin. unfold _check_input.
  mstep deref_Some. mcompute.
  rewrite Hlen. cbn [Z.eqb Pos.eqb negb].
  erewrite bind_Raise; [done|].
  unfold lift, np_min. rewrite np_min_items_None; [done|lia|done].
Qed.

(** A NaN among 8760 entries, none of them [None], switches the test for
    negative values off. *)
Lemma check_input_NaN (s : state) (self l : nat) (k : seq_kind)
    (items : list elem) :
  arrays s !! l = Some (Seq k items) →
  Z.of_nat (length items) = 8760%Z →
  NoneElem ∉ items → NaN ∈ items →
  _check_input self (VSeq l) s = (Ret true, s).
Proof.
  intros Hl Hlen Hnone Hnan. unfold _check_input.
  mstep deref_Some. mcompute.
  rewrite Hlen. cbn [Z.eqb Pos.eqb negb].
  erewrite bind_Ret
    by (unfold lift, np_min; rewrite np_min_items_NaN; [done|lia|done..]).
  by mcompute.
Qed.

(** A call that returns true was given a list, tuple or array that
    validation lets through, and changed nothing. *)
Lemma check_input_true (s s' : state) (self : nat) (v : value) :
  _check_input self v s = (Ret true, s') →
  (∃ l k items, v = VSeq l ∧ arrays s !! l = Some (Seq k items)
                ∧ passes_validation items)
  ∧ s' = s.
Proof.
  intros H. destruct v as [| | | |l| |];
    try (rewrite check_input_not_a_sequence in H by done; by simplify_eq).
  unfold _check_input in H.
  destruct (arrays s !! l) as [a|] eqn:Hl.
  2:{ erewrite bind_Raise in H; [done|]. unfold deref. by rewrite Hl. }
  destruct a as [k items|e].
  2:{ erewrite bind_Ret in H by (by apply deref_Some). done. }
  destruct (decide (Z.of_nat (length items) = 8760%Z)) as [Hlen|Hlen].
  2:{ fold (_check_input self (VSeq l) s) in H.
      rewrite (check_input_wrong_length s self l k items) in H by done.
      by simplify_eq. }
  fold (_check_input self (VSeq l) s) in H.
  destruct (existsb is_None items) eqn:EN.
  { apply existsb_is_None in EN.
    rewrite (check_input_None_entry s self l k items) in H by done. done. }
  assert (NoneElem ∉ items) as Hnone
    by (rewrite <- existsb_is_None; congruence).
  destruct (nums items) as [xs|] eqn:Hn.
  - apply nums_Some in Hn as ->. rewrite length_fmap in Hlen.
    destruct (check_input_numbers s self l k xs Hl Hlen) as [[HF E]|[HF E]];
      rewrite E in H; simplify_eq.
    split; [|done]. exists l, k, (Num <$> xs).
    split; [done|]. split; [done|].
    split; [by rewrite length_fmap|]. split; [done|]. right. by exists xs.
  - apply nums_None in Hn as [Hnan|?]; [|done].
    rewrite (check_input_NaN s self l k items) in H by done. simplify_eq.
    split; [|done]. exists l, k, items.
    split; [done|]. split; [done|]. split; [done|]. split; [done|]. by left.
Qed.

(** A list, tuple or array that validation lets through makes the call
    return true. *)
Lemma check_input_passes (s : state) (self l : nat) (k : seq_kind)
    (items : list elem) :
  arrays s !! l = Some (Seq k items) →
  passes_validation items →
  _check_input self (VSeq l) s = (Ret true, s).
Proof.
  intros Hl (Hlen & Hnone & [Hnan|(xs & -> & HF)]).
  - by apply (check_input_NaN s self l k items).
  - rewrite length_fmap in Hlen.
    by destruct (check_input_numbers s self l k xs Hl Hlen) as [[_ E]|[HF' _]].
Qed.

(** ** Setters *)

Lemma set_heating_rejected (s s1 : state) (self : nat) (v : value) :
  _check_input self v s = (Ret false, s1) →
  set_hourly_heating self v s = (Raise ValueError, s1).
Proof.
  intros H. unfold set_hourly_heating, set_hourly_heating_load.
  by erewrite bind_Ret by apply H.
Qed.

Lemma set_cooling_rejected (s s1 : state) (self : nat) (v : value) :
  _check_input self v s = (Ret false, s1) →
  set_hourly_cooling self v s = (Raise ValueError, s1).
Proof.
  intros H. unfold set_hourly_cooling, set_hourly_cooling_load.
  by erewrite bind_Ret by apply H.
Qed.

Lemma set_heating_raises (s s1 : state) (self : nat) (v : value) (e : exn) :
  _check_input self v s = (Raise e, s1) →
  set_hourly_heating self v s = (Raise e, s1).
Proof.
  intros H. unfold set_hourly_heating, set_hourly_heating_load.
  by erewrite bind_Raise by apply H.
Qed.

Lemma set_cooling_raises (s s1 : state) (self : nat) (v : value) (e : exn) :
  _check_input self v s = (Raise e, s1) →
  set_hourly_cooling self v s = (Raise e, s1).
Proof.
  intros H. unfold set_hourly_cooling, set_hourly_cooling_load.
  by erewrite bind_Raise by apply H.
Qed.

Lemma check_input_unsized (s : state) (self l : nat) (e : elem) :
  arrays s !! l = Some (Array0 e) →
  _check_input self (VSeq l) s = (Raise TypeError, s).
Proof.
  intros Hl. unfold _check_input. mstep deref_Some. by apply bind_Raise.
Qed.

Lemma set_heating_accepted (s : state) (self l : nat) (r : HourlyGeothermalLoad) :
  loads s !! self = Some r →
  _check_input self (VSeq l) s = (Ret true, s) →
  set_hourly_heating self (VSeq l) s = (Ret (), assigned s self (with_heating r l)).
Proof.
  intros Hr H. unfold set_hourly_heating, set_hourly_heating_load.
  erewrite bind_Ret by apply H. cbv beta iota.
  by mstep get_load_Some.
Qed.

Lemma set_cooling_accepted (s : state) (self l : nat) (r : HourlyGeothermalLoad) :
  loads s !! self = Some r →
  _check_input self (VSeq l) s = (Ret true, s) →
  set_hourly_cooling self (VSeq l) s = (Ret (), assigned s self (with_cooling r l)).
Proof.
  intros Hr H. unfold set_hourly_cooling, set_hourly_cooling_load.
  erewrite bind_Ret by apply H. cbv beta iota.
  by mstep get_load_Some.
Qed.

Lemma check_input_valid (s : state) (self l : nat) (k : seq_kind) (xs : list Qc) :
  arrays s !! l = Some (Seq k (Num <$> xs)) →
  Z.of_nat (length xs) = 8760%Z → Forall (Qcle 0) xs →
  _check_input self (VSeq l) s = (Ret true, s).
Proof.
  intros Hl Hlen HF.
  by destruct (check_input_numbers s self l k xs Hl Hlen) as [[_ E]|[HF' _]].
Qed.

(** For candidates that hold nothing but numbers, the three ways are
    all the ways of not being a valid load. *)
Lemma invalid_plain_candidate_fails (s : state) (v : value) :
  plain_candidate s v → ¬ valid_load s v → fails_validation s v.
Proof.
  intros Hp Hn. destruct v as [x| |str| |l|l|add];
    try (apply wrong_type; intros l'; discriminate).
  destruct Hp as (k & xs & Hl).
  destruct (decide (Z.of_nat (length xs) = 8760%Z)) as [Hlen|Hlen].
  - assert (¬ Forall (Qcle 0) xs) as HF.
    { intros HF. apply Hn. by exists l, k, xs. }
    apply not_Forall_Exists in HF; [|apply _].
    apply Exists_exists in HF as (x & Hx & Hneg).
    eapply (negative_value s l k xs x); [done..|].
    by apply Qcnot_le_lt.
  - eapply wrong_length; [done|]. by rewrite length_fmap.
Qed.

Lemma fails_validation_false (s : state) (self : nat) (v : value) :
  fails_validation s v →
  ∃ msg, _check_input self v s = (Ret false, logged s msg).
Proof.
  destruct 1 as [v Hv|l k items Hl Hlen|l k xs x Hl Hlen Hin Hneg].
  - eexists. by apply check_input_not_a_sequence.
  - eexists. by eapply check_input_wrong_length.
  - destruct (check_input_numbers s self l k xs Hl Hlen) as [[HF _]|[_ E]].
    + exfalso. rewrite Forall_forall in HF.
      by apply (Qclt_not_le _ _ Hneg), HF.
    + eexists. apply E.
Qed.

(** ** Start month *)

Lemma UPM_length (r : HourlyGeothermalLoad) : length (UPM r) = 12%nat.
Proof. unfold UPM. by destruct (all_months_equal r). Qed.

Lemma UPM_nonneg (r : HourlyGeothermalLoad) : Forall (λ n, 0 ≤ n)%Z (UPM r).
Proof.
  unfold UPM. destruct (all_months_equal r);
    repeat (apply Forall_cons_2; [done|]); apply Forall_nil_2.
Qed.

Lemma UPM_sum (r : HourlyGeothermalLoad) : sum_Z (UPM r) = 8760%Z.
Proof. unfold UPM. by destruct (all_months_equal r). Qed.

Lemma start_hour_run (r : HourlyGeothermalLoad) :
  (start_month r ≤ 13)%Z → _start_hour r = Ret (start_hour_of r).
Proof.
  intros H. unfold _start_hour. rewrite UPM_length.
  destruct (decide _) as [|Hn]; [done|]. lia.
Qed.

Lemma sum_Z_take_bounds (l : list Z) (n : nat) :
  Forall (λ n, 0 ≤ n)%Z l → (0 ≤ sum_Z (take n l) ≤ sum_Z l)%Z.
Proof.
  intros Hl. revert n. induction Hl as [|x l Hx Hl IH]; intros [|n]; simpl; try lia.
  - assert (0 ≤ sum_Z l)%Z by (specialize (IH 0%nat); rewrite take_0 in IH; simpl in IH; lia).
    lia.
  - specialize (IH n). lia.
Qed.

Lemma start_hour_bounds (r : HourlyGeothermalLoad) :
  (0 ≤ start_hour_of r ≤ 8760)%Z.
Proof.
  unfold start_hour_of. rewrite <- (UPM_sum r).
  apply sum_Z_take_bounds, UPM_nonneg.
Qed.

Lemma start_hour_January (r : HourlyGeothermalLoad) :
  start_month r = 1%Z → start_hour_of r = 0%Z.
Proof. intros H. unfold start_hour_of. by rewrite H. Qed.

Lemma rotate_left_0 {A} (l : list A) : rotate_left 0 l = l.
Proof. rewrite rotate_left_nonneg by done. simpl. apply app_nil_r. Qed.

Lemma rotate_left_fmap {A B} (f : A → B) (i : Z) (l : list A) :
  rotate_left i (f <$> l) = f <$> rotate_left i l.
Proof.
  unfold rotate_left, slice_from, slice_to.
  by rewrite length_fmap, fmap_app, fmap_drop, fmap_take.
Qed.

Lemma correct_for_start_month_run (s : state) (self l : nat)
    (r : HourlyGeothermalLoad) (k : seq_kind) (items : list elem) :
  loads s !! self = Some r →
  arrays s !! l = Some (Seq k items) →
  (start_month r ≤ 13)%Z →
  ∃ l' s',
    correct_for_start_month self l s = (Ret l', s') ∧ extends s s'
    ∧ arrays s' !! l'
      = Some (Seq (if (start_month r =? 1)%Z then k else ndarray)
                  (rotate_left (start_hour_of r) items)).
Proof.
  intros Hr Hl Hm. unfold correct_for_start_month.
  mstep get_load_Some.
  destruct (Z.eqb_spec (start_month r) 1) as [E|E].
  - exists l, s. split; [done|]. split; [apply extends_refl|].
    by rewrite (start_hour_January r E), rotate_left_0.
  - mstep deref_Some.
    erewrite bind_Ret by (unfold lift; by rewrite start_hour_run).
    mcompute.
    destruct (alloc_run (Seq ndarray (rotate_left (start_hour_of r) items)) s)
      as (s' & -> & Ha & Hext).
    eexists _, s'. split; [done|]. split; [done|].
    rewrite Ha. by apply list_lookup_middle.
Qed.

(** ** Getters *)

Lemma py_add_scalar_array (xs : list Qc) (d : Qc) :
  py_add_scalar (Seq ndarray (Num <$> xs)) d
  = Ret (Seq ndarray (Num <$> ((λ x, x + d) <$> xs))).
Proof.
  unfold py_add_scalar, np_op. by rewrite mapM_res_scalar_r.
Qed.

(** The heating load of a load whose heating series is an array: the
    series, with the hot water spread over it, rotated to the start
    month. *)
Lemma hourly_heating_load_run (s : state) (self : nat)
    (r : HourlyGeothermalLoad) (H : list Qc) :
  loads s !! self = Some r →
  arrays s !! _hourly_heating_load r = Some (Seq ndarray (Num <$> H)) →
  (start_month r ≤ 13)%Z →
  ∃ l' s',
    hourly_heating_load self s = (Ret l', s') ∧ extends s s'
    ∧ arrays s' !! l'
      = Some (Seq ndarray
                (Num <$> rotate_left (start_hour_of r) (with_hot_water r H))).
Proof.
  intros Hr Hh Hm. unfold hourly_heating_load.
  mstep get_load_Some. mstep deref_Some.
  erewrite bind_Ret by (unfold lift; by rewrite py_add_scalar_array).
  destruct (alloc_run (Seq ndarray (Num <$> with_hot_water r H)) s)
    as (s1 & E1 & Ha & Hext).
  erewrite bind_Ret by apply E1.
  destruct (correct_for_start_month_run s1 self (length (arrays s)) r ndarray
              (Num <$> with_hot_water r H)) as (l' & s' & E & Hext' & Hl');
    [by rewrite (proj1 (proj2 Hext)) | rewrite Ha; by apply list_lookup_middle
    | done |].
  exists l', s'. split; [done|]. split; [by eapply extends_trans|].
  rewrite Hl', rotate_left_fmap. by destruct (start_month r =? 1)%Z.
Qed.

(** The cooling load: the series rotated to the start month, without
    hot water. *)
Lemma hourly_cooling_load_run (s : state) (self : nat)
    (r : HourlyGeothermalLoad) (k : seq_kind) (C : list Qc) :
  loads s !! self = Some r →
  arrays s !! _hourly_cooling_load r = Some (Seq k (Num <$> C)) →
  (start_month r ≤ 13)%Z →
  ∃ l' s',
    hourly_cooling_load self s = (Ret l', s') ∧ extends s s'
    ∧ arrays s' !! l'
      = Some (Seq (if (start_month r =? 1)%Z then k else ndarray)
                  (Num <$> rotate_left (start_hour_of r) C)).
Proof.
  intros Hr Hc Hm. unfold hourly_cooling_load.
  mstep get_load_Some.
  destruct (correct_for_start_month_run s self (_hourly_cooling_load r) r k
              (Num <$> C)) as (l' & s' & E & Hext & Hl'); [done..|].
  exists l', s'. split; [done|]. split; [done|].
  by rewrite Hl', rotate_left_fmap.
Qed.

(** ** Monthly resampling *)

Lemma chunks_fmap {A B} (f : A → B) (sizes : list nat) (l : list A) :
  chunks sizes (f <$> l) = fmap (M:=list) f <$> chunks sizes l.
Proof.
  revert l. induction sizes as [|n sizes IH]; intros l; [done|].
  cbn [chunks]. by rewrite fmap_cons, <- fmap_take, <- fmap_drop, IH.
Qed.

Lemma months_fmap {A B} (f : A → B) (r : HourlyGeothermalLoad) (l : list A) :
  months r (f <$> l) = fmap (M:=list) f <$> months r l.
Proof. apply chunks_fmap. Qed.

Lemma array_split_months {A} (r : HourlyGeothermalLoad) (l : list A) :
  Z.of_nat (length l) = 8760%Z →
  array_split l (slice_to (-1) (np_cumsum (UPM r))) = months r l.
Proof.
  intros Hlen. unfold array_split, months. rewrite Hlen.
  assert (0%Z :: slice_to (-1) (np_cumsum (UPM r)) ++ [8760%Z]
          = 0%Z :: cumsum_from 0 (UPM r)) as ->.
  { unfold UPM. by destruct (all_months_equal r). }
  cbn [tail]. rewrite split_at_cumsum; [done|apply UPM_nonneg|done|].
  rewrite UPM_sum. lia.
Qed.

Lemma months_lengths {A} (r : HourlyGeothermalLoad) (l : list A) :
  Z.of_nat (length l) = 8760%Z →
  length <$> months r l = Z.to_nat <$> UPM r.
Proof.
  intros Hlen. apply chunks_lengths.
  assert (sum_list (Z.to_nat <$> UPM r) = Z.to_nat 8760) as ->; [|lia].
  unfold UPM. by destruct (all_months_equal r).
Qed.


Lemma months_nonempty {A} (r : HourlyGeothermalLoad) (l : list A) :
  Z.of_nat (length l) = 8760%Z → Forall (λ c, c ≠ []) (months r l).
Proof.
  intros Hlen. apply Forall_forall. intros c Hc Hnil.
  assert (length c ∈ length <$> months r l) as Hin
    by by apply list_elem_of_fmap_2.
  rewrite months_lengths in Hin by done. subst c. simpl in Hin.
  apply list_elem_of_fmap in Hin as (n & Hn & Hin).
  assert (0 < n)%Z; [|lia].
  clear -Hin. unfold UPM in Hin.
  destruct (all_months_equal r);
    repeat (apply elem_of_cons in Hin as [->|Hin]; [done|]);
    by apply elem_of_nil in Hin.
Qed.

Lemma months_rectangular {A} (r : HourlyGeothermalLoad) (l : list A) :
  Z.of_nat (length l) = 8760%Z → all_months_equal r = true →
  rectangular (months r l) = true.
Proof.
  intros Hlen Heq. pose proof (months_lengths r l Hlen) as HL.
  unfold UPM in HL. rewrite Heq in HL.
  destruct (months r l) as [|c0 rest]; [done|].
  rewrite fmap_cons in HL. cbn [rectangular].
  change (Z.to_nat <$> replicate 12 730%Z)
    with (Z.to_nat 730 :: replicate 11 (Z.to_nat 730)) in HL.
  injection HL as -> HL.
  apply forallb_forall. intros c Hc%list_elem_of_In.
  assert (length c ∈ length <$> rest) as Hin by by apply list_elem_of_fmap_2.
  rewrite HL in Hin.
  repeat (apply elem_of_cons in Hin as [->|Hin]; [by rewrite Nat.eqb_refl|]).
  by apply elem_of_nil in Hin.
Qed.

Lemma rectangular_fmap {A B} (f : A → B) (data : list (list A)) :
  rectangular (fmap (M:=list) f <$> data) = rectangular data.
Proof.
  destruct data as [|c0 rest]; [done|].
  rewrite fmap_cons. cbn [rectangular]. rewrite length_fmap.
  induction rest as [|c rest IH]; [done|].
  rewrite fmap_cons. cbn [forallb]. by rewrite IH, length_fmap.
Qed.


Lemma np_sum_items_nums (c : list Qc) :
  np_sum_items (Num <$> c) = Ret (Num (sum_Qc c)).
Proof.
  destruct c as [|x [|y c]].
  - done.
  - cbn. unfold sum_Qc. cbn. by rewrite Qcplus_0_r.
  - rewrite !fmap_cons, np_sum_items_long, <- !fmap_cons.
    by rewrite existsb_is_None_nums, nums_fmap.
Qed.

Lemma np_max_items_nums (c : list Qc) :
  c ≠ [] → np_max_items (Num <$> c) = Ret (Num (chunk_max c)).
Proof.
  intros Hc. destruct c as [|x [|y c]]; [done|done|].
  rewrite !fmap_cons, np_max_items_long, <- !fmap_cons.
  by rewrite existsb_is_None_nums, nums_fmap.
Qed.

Lemma mapM_res_sums (cs : list (list Qc)) :
  mapM_res np_sum_items (fmap (M:=list) Num <$> cs)
  = Ret (Num <$> (sum_Qc <$> cs)).
Proof.
  induction cs as [|c cs IH]; [done|].
  rewrite !fmap_cons. cbn [mapM_res]. by rewrite np_sum_items_nums, IH.
Qed.

Lemma mapM_res_maxima (cs : list (list Qc)) :
  Forall (λ c, c ≠ []) cs →
  mapM_res np_max_items (fmap (M:=list) Num <$> cs)
  = Ret (Num <$> (chunk_max <$> cs)).
Proof.
  induction 1 as [|c cs Hc _ IH]; [done|].
  rewrite !fmap_cons. cbn [mapM_res]. by rewrite np_max_items_nums, IH.
Qed.

Lemma resample_to_monthly_run (s : state) (self l : nat)
    (r : HourlyGeothermalLoad) (k : seq_kind) (xs : list Qc) :
  loads s !! self = Some r →
  arrays s !! l = Some (Seq k (Num <$> xs)) →
  Z.of_nat (length xs) = 8760%Z →
  ∃ p b s',
    resample_to_monthly self l s = (Ret (p, b), s') ∧ extends s s'
    ∧ arrays s' !! p = Some (Seq ndarray (Num <$> (chunk_max <$> months r xs)))
    ∧ arrays s' !! b = Some (Seq ndarray (Num <$> (sum_Qc <$> months r xs))).
Proof.
  intros Hr Hl Hlen. unfold resample_to_monthly.
  mstep get_load_Some. mstep deref_Some. mcompute.
  rewrite array_split_months by (by rewrite length_fmap).
  rewrite !months_fmap.
  set (P := Seq ndarray (Num <$> (chunk_max <$> months r xs))).
  set (B := Seq ndarray (Num <$> (sum_Qc <$> months r xs))).
  pose (s1 := mkState (arrays s ++ [P]) (loads s) (out s)).
  pose (s2 := mkState ((arrays s ++ [P]) ++ [B]) (loads s) (out s)).
  assert (extends s s2) as Hext.
  { split; [|done]. exists [P; B]. simpl. by rewrite <- app_assoc. }
  assert (arrays s2 !! length (arrays s) = Some P) as HP.
  { simpl. rewrite <- app_assoc. by apply list_lookup_middle. }
  assert (arrays s2 !! length (arrays s1) = Some B) as HB.
  { simpl. by apply list_lookup_middle. }
  assert ((peak ← lift (mapM_res np_max_items
                           (fmap (M:=list) Num <$> months r xs));
           p ← alloc (Seq ndarray peak);
           base ← lift (mapM_res np_sum_items
                           (fmap (M:=list) Num <$> months r xs));
           b ← alloc (Seq ndarray base);
           mret (p, b)) s
          = (Ret (length (arrays s), length (arrays s1)), s2)) as E.
  { erewrite bind_Ret
      by (unfold lift; by rewrite mapM_res_maxima by by apply months_nonempty).
    erewrite bind_Ret by reflexivity.
    erewrite bind_Ret by (unfold lift; by rewrite mapM_res_sums).
    done. }
  exists (length (arrays s)), (length (arrays s1)), s2.
  split; [|done].
  destruct (all_months_equal r) eqn:Heq; [|done].
  by rewrite rectangular_fmap, months_rectangular by done.
Qed.

(** ** Imbalance *)

Lemma np_op_arrays (op : Qc → Qc → Qc) (k1 k2 : seq_kind) (xs ys : list Qc) :
  length xs = length ys →
  np_op op (Seq k1 (Num <$> xs)) (Seq k2 (Num <$> ys))
  = Ret (Seq ndarray (Num <$> zip_with op xs ys)).
Proof.
  intros Hlen. unfold np_op, broadcast_op.
  rewrite decide_True by (by rewrite !length_fmap).
  by rewrite zip_op_nums.
Qed.

Lemma py_sub_array_r (a : arr) (l : list elem) :
  py_sub a (Seq ndarray l) = np_op Qcminus a (Seq ndarray l).
Proof. by destruct a as [[] ?|?]. Qed.

(** The common tail of the two imbalance computations: subtract two
    stored series and sum the differences. *)
Lemma subtract_and_sum_run (s : state) (lc lh : nat) (kc : seq_kind)
    (C H : list Qc) :
  arrays s !! lc = Some (Seq kc (Num <$> C)) →
  arrays s !! lh = Some (Seq ndarray (Num <$> H)) →
  length C = length H →
  ∃ s',
    (ac ← deref lc; ah ← deref lh; d ← lift (py_sub ac ah); ld ← alloc d;
     lift (np_sum d)) s
    = (Ret (Num (sum_Qc C - sum_Qc H)), s')
    ∧ extends s s'.
Proof.
  intros Hc Hh Hlen.
  mstep deref_Some. mstep deref_Some.
  erewrite bind_Ret
    by (unfold lift; by rewrite py_sub_array_r, np_op_arrays by done).
  destruct (alloc_run (Seq ndarray (Num <$> zip_with Qcminus C H)) s)
    as (s' & E & _ & Hext).
  erewrite bind_Ret by apply E.
  exists s'. split; [|done].
  unfold lift, np_sum. by rewrite np_sum_items_nums, sum_Qc_zip_minus.
Qed.

Lemma sum_Qc_rotate_left (i : Z) (l : list Qc) :
  sum_Qc (rotate_left i l) = sum_Qc l.
Proof. apply sum_Qc_Permutation, rotate_left_Permutation. Qed.

Lemma with_hot_water_length (r : HourlyGeothermalLoad) (H : list Qc) :
  length (with_hot_water r H) = length H.
Proof. apply length_fmap. Qed.

(** The imbalance of a load whose heating series is an array: the sum
    of the cooling load less the sum of the heating load, hot water
    included. *)
Lemma imbalance_run (s : state) (self : nat) (r : HourlyGeothermalLoad)
    (k : seq_kind) (H C : list Qc) :
  loads s !! self = Some r →
  arrays s !! _hourly_heating_load r = Some (Seq ndarray (Num <$> H)) →
  arrays s !! _hourly_cooling_load r = Some (Seq k (Num <$> C)) →
  length C = length H →
  (start_month r ≤ 13)%Z →
  ∃ s',
    imbalance self s = (Ret (Num (sum_Qc C - sum_Qc (with_hot_water r H))), s')
    ∧ extends s s'.
Proof.
  intros Hr Hh Hc Hlen Hm. unfold imbalance.
  destruct (hourly_cooling_load_run s self r k C) as (lc & s1 & E1 & X1 & L1);
    [done..|].
  set (k' := if (start_month r =? 1)%Z then k else ndarray) in L1.
  erewrite bind_Ret by apply E1.
  destruct (hourly_heating_load_run s1 self r H) as (lh & s2 & E2 & X2 & L2);
    [by rewrite (proj1 (proj2 X1)) | by eapply extends_lookup | done |].
  erewrite bind_Ret by apply E2.
  destruct (subtract_and_sum_run s2 lc lh k'
              (rotate_left (start_hour_of r) C)
              (rotate_left (start_hour_of r) (with_hot_water r H)))
    as (s3 & E3 & X3); [by eapply extends_lookup | done | |].
  { by rewrite !rotate_left_length, with_hot_water_length. }
  rewrite !sum_Qc_rotate_left in E3.
  exists s3. split; [done|]. eauto using extends_trans.
Qed.

Lemma baseload_cooling_run (s : state) (self : nat) (r : HourlyGeothermalLoad)
    (k : seq_kind) (C : list Qc) :
  loads s !! self = Some r →
  arrays s !! _hourly_cooling_load r = Some (Seq k (Num <$> C)) →
  Z.of_nat (length C) = 8760%Z →
  (start_month r ≤ 13)%Z →
  ∃ b s',
    baseload_cooling self s = (Ret b, s') ∧ extends s s'
    ∧ arrays s' !! b
      = Some (Seq ndarray
                (Num <$> (sum_Qc <$> months r (rotate_left (start_hour_of r) C)))).
Proof.
  intros Hr Hc Hlen Hm. unfold baseload_cooling.
  destruct (hourly_cooling_load_run s self r k C) as (lc & s1 & E1 & X1 & L1);
    [done..|].
  set (k' := if (start_month r =? 1)%Z then k else ndarray) in L1.
  erewrite bind_Ret by apply E1.
  destruct (resample_to_monthly_run s1 self lc r k'
              (rotate_left (start_hour_of r) C))
    as (p & b & s2 & E2 & X2 & _ & L2);
    [by rewrite (proj1 (proj2 X1)) | done | by rewrite rotate_left_length |].
  erewrite bind_Ret by apply E2.
  exists b, s2. split; [done|]. eauto using extends_trans.
Qed.

Lemma baseload_heating_run (s : state) (self : nat) (r : HourlyGeothermalLoad)
    (H : list Qc) :
  loads s !! self = Some r →
  arrays s !! _hourly_heating_load r = Some (Seq ndarray (Num <$> H)) →
  Z.of_nat (length H) = 8760%Z →
  (start_month r ≤ 13)%Z →
  ∃ b s',
    baseload_heating self s = (Ret b, s') ∧ extends s s'
    ∧ arrays s' !! b
      = Some (Seq ndarray
                (Num <$> (sum_Qc <$> months r (rotate_left (start_hour_of r)
                                                 (with_hot_water r H))))).
Proof.
  intros Hr Hh Hlen Hm. unfold baseload_heating.
  destruct (hourly_heating_load_run s self r H) as (lh & s1 & E1 & X1 & L1);
    [done..|].
  erewrite bind_Ret by apply E1.
  destruct (resample_to_monthly_run s1 self lh r ndarray
              (rotate_left (start_hour_of r) (with_hot_water r H)))
    as (p & b & s2 & E2 & X2 & _ & L2);
    [by rewrite (proj1 (proj2 X1)) | done
    | by rewrite rotate_left_length, with_hot_water_length |].
  erewrite bind_Ret by apply E2.
  exists b, s2. split; [done|]. eauto using extends_trans.
Qed.



(** The base class's formula on an instance of this class: the twelve
    cooling baseloads are computed, and calling them raises. *)
Lemma base_imbalance_raises (s : state) (self : nat) (r : HourlyGeothermalLoad)
    (k : seq_kind) (C : list Qc) :
  loads s !! self = Some r →
  arrays s !! _hourly_cooling_load r = Some (Seq k (Num <$> C)) →
  Z.of_nat (length C) = 8760%Z →
  (start_month r ≤ 13)%Z →
  ∃ s',
    _LoadData_imbalance (getattr_baseload_cooling self)
                        (getattr_baseload_heating self) s
    = (Raise TypeError, s')
    ∧ extends s s'.
Proof.
  intros Hr Hc HlenC Hm. unfold _LoadData_imbalance, getattr_baseload_cooling.
  destruct (baseload_cooling_run s self r k C) as (bc & s1 & E1 & X1 & L1);
    [done..|].
  exists s1. split; [|done].
  erewrite bind_Ret by (erewrite bind_Ret by apply E1; reflexivity).
  reflexivity.
Qed.

(** ** Construction *)

Lemma insert_last {A} (l : list A) (x y : A) :
  <[length l := y]> (l ++ [x]) = l ++ [y].
Proof. rewrite insert_app_r_alt by done. by rewrite Nat.sub_diag. Qed.

Lemma zero_series_length : Z.of_nat (length zero_series) = 8760%Z.
Proof. unfold zero_series. rewrite length_replicate. lia. Qed.

Lemma zero_series_nonneg : Forall (Qcle 0) zero_series.
Proof. unfold zero_series. apply Forall_replicate, Qcle_refl. Qed.

Lemma init_arg_valid (s : state) (v : value) (xs : list Qc) :
  init_arg s v xs → Z.of_nat (length xs) = 8760%Z ∧ Forall (Qcle 0) xs.
Proof.
  destruct 1; [|done]. split; [apply zero_series_length|apply zero_series_nonneg].
Qed.

Lemma np_zeros_run (s : state) :
  np_zeros 8760 s
  = (Ret (length (arrays s)),
     mkState (arrays s ++ [Seq ndarray (Num <$> zero_series)]) (loads s) (out s)).
Proof. unfold np_zeros, alloc, zero_series. by rewrite fmap_replicate. Qed.

Lemma np_array_run (s : state) (l : nat) (k : seq_kind) (items : list elem) :
  arrays s !! l = Some (Seq k items) →
  np_array (VSeq l) s
  = (Ret (length (arrays s)),
     mkState (arrays s ++ [Seq ndarray items]) (loads s) (out s)).
Proof. intros Hl. unfold np_array. by mstep deref_Some. Qed.

(** The array that [__init__] hands to a setter: new, and holding the
    series of the argument. *)
Lemma init_arg_run (s0 s : state) (v : value) (xs : list Qc) :
  init_arg s0 v xs → (∃ new, arrays s = arrays s0 ++ new) →
  match v with VNone => np_zeros 8760 | _ => np_array v end s
  = (Ret (length (arrays s)),
     mkState (arrays s ++ [Seq ndarray (Num <$> xs)]) (loads s) (out s)).
Proof.
  intros Harg [new Hnew]. destruct Harg as [|l k xs Hl _ _].
  - apply np_zeros_run.
  - eapply np_array_run. rewrite Hnew. by apply lookup_app_l_Some.
Qed.

(** The constructor on valid arguments: two arrays of zeros, an array
    for each argument, and the new instance holding the latter two. *)
Lemma init_run (base_start_month : Z) (base_all_months_equal : bool)
    (s : state) (vh vc : value) (H C : list Qc) (sp : Z) (d : Qc) :
  init_arg s vh H → init_arg s vc C →
  let n := length (arrays s) in
  __init__ base_start_month base_all_months_equal vh vc sp d s
  = (Ret (length (loads s)),
     mkState (arrays s ++ [Seq ndarray (Num <$> zero_series);
                           Seq ndarray (Num <$> zero_series);
                           Seq ndarray (Num <$> H);
                           Seq ndarray (Num <$> C)])
             (loads s ++ [mkLoad true sp d base_start_month
                                 base_all_months_equal (n + 2) (n + 3)])
             (out s)).
Proof.
  intros Hh Hc n. unfold __init__.
  erewrite bind_Ret by apply np_zeros_run.
  erewrite bind_Ret by apply np_zeros_run.
  erewrite bind_Ret by reflexivity.
  cbn [arrays loads out].
  erewrite bind_Ret.
  2:{ apply (init_arg_run s _ vh H Hh). cbn [arrays].
      eexists. by rewrite <- app_assoc. }
  cbn [arrays loads out].
  pose proof (init_arg_valid _ _ _ Hh) as [HlenH HposH].
  pose proof (init_arg_valid _ _ _ Hc) as [HlenC HposC].
  erewrite bind_Ret.
  2:{ apply set_heating_accepted; [apply list_lookup_middle; done|].
      apply (check_input_valid _ _ _ ndarray H); [|done..]. cbn [arrays].
      by apply list_lookup_middle. }
  unfold assigned. cbn [arrays loads out]. rewrite insert_last.
  erewrite bind_Ret.
  2:{ apply (init_arg_run s _ vc C Hc). cbn [arrays].
      eexists. by rewrite <- !app_assoc. }
  cbn [arrays loads out].
  erewrite bind_Ret.
  2:{ apply set_cooling_accepted; [apply list_lookup_middle; done|].
      apply (check_input_valid _ _ _ ndarray C); [|done..]. cbn [arrays].
      by apply list_lookup_middle. }
  unfold assigned. cbn [arrays loads out]. rewrite insert_last.
  unfold set_dhw.
  erewrite bind_Ret.
  2:{ erewrite bind_Ret by (apply get_load_Some, list_lookup_middle; done).
      reflexivity. }
  cbn [arrays loads out mret M_ret]. rewrite insert_last.
  unfold with_dhw, with_cooling, with_heating; cbn.
  rewrite !length_app, <- !app_assoc. cbn [length app].
  do 4 f_equal. f_equal; lia.
Qed.

(** ** Addition of two loads *)

Lemma py_add_arrays (k1 k2 : seq_kind) (xs ys : list Qc) :
  k1 = ndarray ∨ k2 = ndarray →
  length xs = length ys →
  py_add (Seq k1 (Num <$> xs)) (Seq k2 (Num <$> ys))
  = Ret (Seq ndarray (Num <$> zip_with Qcplus xs ys)).
Proof.
  intros Hk Hlen.
  assert (py_add (Seq k1 (Num <$> xs)) (Seq k2 (Num <$> ys))
          = np_op Qcplus (Seq k1 (Num <$> xs)) (Seq k2 (Num <$> ys))) as ->.
  { destruct Hk as [-> | ->]; [done|]. by destruct k1. }
  by apply np_op_arrays.
Qed.

Lemma zip_with_plus_valid (xs ys : list Qc) :
  Z.of_nat (length xs) = 8760%Z → Z.of_nat (length ys) = 8760%Z →
  Forall (Qcle 0) xs → Forall (Qcle 0) ys →
  Z.of_nat (length (zip_with Qcplus xs ys)) = 8760%Z
  ∧ Forall (Qcle 0) (zip_with Qcplus xs ys).
Proof.
  intros Hx Hy Fx Fy. split.
  - rewrite length_zip_with. lia.
  - clear Hx Hy. revert ys Fy. induction Fx as [|x xs Px _ IH]; intros ys Fy.
    + done.
    + destruct Fy as [|y ys Py Fy]; [done|]. cbn [zip_with].
      apply Forall_cons_2; [|by apply IH].
      replace (Q2Qc 0) with (0 + 0) by ring. by apply Qcplus_le_compat.
Qed.

(** The sum of two loads of which, for heating and for cooling, at least
    one holds an array: a new load with the elementwise sums, the greater
    of the two periods, the sum of the hot water demands, and a warning
    when the periods differ. *)
Lemma add_loads_run (base_start_month : Z) (base_all_months_equal : bool)
    (s : state) (a b : nat) (ra rb : HourlyGeothermalLoad)
    (kha khb kca kcb : seq_kind) (HA HB CA CB : list Qc) :
  loads s !! a = Some ra →
  loads s !! b = Some rb →
  arrays s !! _hourly_heating_load ra = Some (Seq kha (Num <$> HA)) →
  arrays s !! _hourly_heating_load rb = Some (Seq khb (Num <$> HB)) →
  arrays s !! _hourly_cooling_load ra = Some (Seq kca (Num <$> CA)) →
  arrays s !! _hourly_cooling_load rb = Some (Seq kcb (Num <$> CB)) →
  kha = ndarray ∨ khb = ndarray →
  kca = ndarray ∨ kcb = ndarray →
  Z.of_nat (length HA) = 8760%Z → Z.of_nat (length HB) = 8760%Z →
  Z.of_nat (length CA) = 8760%Z → Z.of_nat (length CB) = 8760%Z →
  Forall (Qcle 0) HA → Forall (Qcle 0) HB →
  Forall (Qcle 0) CA → Forall (Qcle 0) CB →
  let n := length (arrays s) in
  let sumH := Seq ndarray (Num <$> zip_with Qcplus HA HB) in
  let sumC := Seq ndarray (Num <$> zip_with Qcplus CA CB) in
  __add__ base_start_month base_all_months_equal a (VLoad b) s
  = (Ret (VLoad (length (loads s))),
     mkState (arrays s ++ [sumH; sumC;
                           Seq ndarray (Num <$> zero_series);
                           Seq ndarray (Num <$> zero_series);
                           sumH; sumC])
             (loads s ++ [mkLoad true
                            (Z.max (simulation_period ra) (simulation_period rb))
                            (dhw ra + dhw rb)
                            base_start_month base_all_months_equal
                            (n + 4) (n + 5)])
             (out s ++ period_warning (simulation_period ra)
                                      (simulation_period rb))).
Proof.
  intros Ha Hb Hha Hhb Hca Hcb Kh Kc LHA LHB LCA LCB FHA FHB FCA FCB n sumH sumC.
  destruct (zip_with_plus_valid HA HB) as [LH FH]; [done..|].
  destruct (zip_with_plus_valid CA CB) as [LC FC]; [done..|].
  unfold __add__.
  mstep get_load_Some. mstep get_load_Some.
  set (s0 := mkState (arrays s) (loads s)
               (out s ++ period_warning (simulation_period ra)
                                        (simulation_period rb))).
  erewrite (bind_Ret _ _ s s0).
  2:{ unfold s0, period_warning.
      destruct (bool_decide _); [done|]. rewrite app_nil_r. by destruct s. }
  change (arrays s) with (arrays s0) in Hha, Hhb, Hca, Hcb.
  mstep deref_Some. mstep deref_Some.
  erewrite bind_Ret by (unfold lift; rewrite py_add_arrays; [done|done|lia]).
  erewrite bind_Ret by reflexivity.
  erewrite bind_Ret
    by (apply deref_Some; cbn [arrays]; by apply lookup_app_l_Some).
  erewrite bind_Ret
    by (apply deref_Some; cbn [arrays]; by apply lookup_app_l_Some).
  erewrite bind_Ret by (unfold lift; rewrite py_add_arrays; [done|done|lia]).
  erewrite bind_Ret by reflexivity.
  cbn [arrays loads out].
  erewrite bind_Ret.
  2:{ apply (init_run _ _ _ _ _ (zip_with Qcplus HA HB) (zip_with Qcplus CA CB)).
      - eapply (arg_series _ _ ndarray); [|done..]. cbn [arrays].
        rewrite <- app_assoc. by apply list_lookup_middle.
      - eapply (arg_series _ _ ndarray); [|done..]. cbn [arrays].
        by apply list_lookup_middle. }
  cbn [arrays loads out mret M_ret]. unfold s0; cbn [arrays loads out].
  rewrite !length_app, <- !app_assoc. cbn [length app].
  do 4 f_equal. fold n. f_equal; lia.
Qed.

(** ** What a call can touch *)

(** The argument conversion of [__init__] allocates at most one array. *)
Lemma init_conversion_frame (v : value) (s : state) :
  ∃ res s',
    match v with VNone => np_zeros 8760 | _ => np_array v end s = (res, s')
    ∧ loads s' = loads s ∧ out s' = out s
    ∧ ((∃ e, res = Raise e ∧ arrays s' = arrays s)
       ∨ (∃ x, res = Ret (length (arrays s)) ∧ arrays s' = arrays s ++ [x])).
Proof.
  destruct v as [x| |str| |l|l|add radd [l|]];
    try (eexists _, _; split; [reflexivity|]; split; [done|]; split; [done|];
         right; by eexists).
  all: unfold np_array; destruct (arrays s !! l) as [a|] eqn:Hl.
  all: try (mstep deref_Some; eexists _, _; split; [reflexivity|];
            split; [done|]; split; [done|]; right; by eexists).
  all: erewrite bind_Raise by (unfold deref; by rewrite Hl);
       eexists _, _; split; [reflexivity|]; split; [done|]; split; [done|];
       left; by eexists.
Qed.

(** Validation reads the store and writes to the log only. *)
Lemma check_input_frame (self : nat) (v : value) (s : state) :
  arrays (_check_input self v s).2 = arrays s
  ∧ loads (_check_input self v s).2 = loads s.
Proof.
  destruct v as [x| |str| |l|l|add]; try done.
  unfold _check_input, mbind, M_bind, deref, lift, log_error, emit.
  destruct (arrays s !! l) as [a|]; [|done].
  destruct (py_len a) as [n|]; [|done].
  destruct (negb _); [done|].
  destruct (np_min a) as [m|]; [|done].
  by destruct (lt_zero m) as [[]|].
Qed.

(** A setter either assigns the reference it was given, or raises and
    leaves arrays and instances as they were. *)
Lemma set_heating_frame (self : nat) (v : value) (s : state) :
  ∃ res s',
    set_hourly_heating self v s = (res, s') ∧ arrays s' = arrays s
    ∧ ((∃ e, res = Raise e ∧ loads s' = loads s)
       ∨ (∃ l r, res = Ret () ∧ v = VSeq l ∧ loads s !! self = Some r
                 ∧ loads s' = <[self := with_heating r l]> (loads s))).
Proof.
  pose proof (check_input_frame self v s) as [Ha Hl].
  unfold set_hourly_heating, set_hourly_heating_load.
  destruct (_check_input self v s) as [[[]|e] s1] eqn:E; cbn [snd] in Ha, Hl.
  - pose proof (check_input_true _ _ _ _ E) as [Hv ->].
    destruct Hv as (l & k & xs & -> & _).
    erewrite bind_Ret by apply E. cbv beta iota.
    destruct (loads s !! self) as [r|] eqn:Hr.
    + mstep get_load_Some. eexists _, _. split; [reflexivity|].
      split; [done|]. right. by exists l, r.
    + erewrite bind_Raise by (unfold get_load; by rewrite Hr).
      eexists _, _. split; [reflexivity|]. split; [done|]. left. by eexists.
  - erewrite bind_Ret by apply E. eexists _, _. split; [reflexivity|].
    split; [done|]. left. by eexists.
  - erewrite bind_Raise by apply E. eexists _, _. split; [reflexivity|].
    split; [done|]. left. by eexists.
Qed.

Lemma set_cooling_frame (self : nat) (v : value) (s : state) :
  ∃ res s',
    set_hourly_cooling self v s = (res, s') ∧ arrays s' = arrays s
    ∧ ((∃ e, res = Raise e ∧ loads s' = loads s)
       ∨ (∃ l r, res = Ret () ∧ v = VSeq l ∧ loads s !! self = Some r
                 ∧ loads s' = <[self := with_cooling r l]> (loads s))).
Proof.
  pose proof (check_input_frame self v s) as [Ha Hl].
  unfold set_hourly_cooling, set_hourly_cooling_load.
  destruct (_check_input self v s) as [[[]|e] s1] eqn:E; cbn [snd] in Ha, Hl.
  - pose proof (check_input_true _ _ _ _ E) as [Hv ->].
    destruct Hv as (l & k & xs & -> & _).
    erewrite bind_Ret by apply E. cbv beta iota.
    destruct (loads s !! self) as [r|] eqn:Hr.
    + mstep get_load_Some. eexists _, _. split; [reflexivity|].
      split; [done|]. right. by exists l, r.
    + erewrite bind_Raise by (unfold get_load; by rewrite Hr).
      eexists _, _. split; [reflexivity|]. split; [done|]. left. by eexists.
  - erewrite bind_Ret by apply E. eexists _, _. split; [reflexivity|].
    split; [done|]. left. by eexists.
  - erewrite bind_Raise by apply E. eexists _, _. split; [reflexivity|].
    split; [done|]. left. by eexists.
Qed.

(** Whatever its arguments, [__init__] only adds to the store: arrays
    and one instance, the one it returns, whose two arrays are new and
    distinct. *)
Lemma init_frame (base_start_month : Z) (base_all_months_equal : bool)
    (vh vc : value) (sp : Z) (d : Qc) (s : state) :
  ∃ res s' new_arrays new_loads,
    __init__ base_start_month base_all_months_equal vh vc sp d s = (res, s')
    ∧ arrays s' = arrays s ++ new_arrays
    ∧ loads s' = loads s ++ new_loads
    ∧ ∀ self, res = Ret self →
        self = length (loads s)
        ∧ ∃ r, loads s' !! self = Some r
               ∧ (length (arrays s) ≤ _hourly_heating_load r)%nat
               ∧ (length (arrays s) ≤ _hourly_cooling_load r)%nat
               ∧ _hourly_heating_load r ≠ _hourly_cooling_load r
               ∧ simulation_period r = sp ∧ dhw r = d.
Proof.
  unfold __init__.
  erewrite bind_Ret by apply np_zeros_run.
  erewrite bind_Ret by apply np_zeros_run.
  erewrite bind_Ret by reflexivity.
  cbn [arrays loads out].
  change (set_hourly_heating_load ?x ?y) with (set_hourly_heating x y).
  change (set_hourly_cooling_load ?x ?y) with (set_hourly_cooling x y).
  set (Z0 := Seq ndarray (Num <$> zero_series)).
  set (r0 := mkLoad true sp 0 base_start_month base_all_months_equal
               (length (arrays s)) (length (arrays s ++ [Z0]))).
  set (s3 := mkState ((arrays s ++ [Z0]) ++ [Z0]) (loads s ++ [r0]) (out s)).
  destruct (init_conversion_frame vh s3)
    as (res4 & s4 & E4 & L4 & O4 & [(e & -> & A4)|(x4 & -> & A4)]).
  { erewrite bind_Raise by apply E4.
    eexists _, _, [Z0; Z0], [r0]. split; [reflexivity|].
    rewrite A4, L4. cbn [s3 arrays loads]. rewrite <- app_assoc.
    repeat split; done. }
  erewrite bind_Ret by apply E4.
  destruct (set_heating_frame (length (loads s)) (VSeq (length (arrays s3))) s4)
    as (res5 & s5 & E5 & A5 & [(e & -> & L5)|(l & r & -> & Hv & Hr & L5)]).
  { erewrite bind_Raise by apply E5.
    eexists _, _, [Z0; Z0; x4], [r0]. split; [reflexivity|].
    rewrite A5, L5, A4, L4. cbn [s3 arrays loads]. rewrite <- !app_assoc.
    repeat split; done. }
  injection Hv as <-.
  rewrite L4 in Hr, L5. cbn [s3 loads] in Hr, L5.
  rewrite list_lookup_middle in Hr by done. injection Hr as <-.
  rewrite insert_last in L5.
  erewrite bind_Ret by apply E5.
  destruct (init_conversion_frame vc s5)
    as (res6 & s6 & E6 & L6 & O6 & [(e & -> & A6)|(x6 & -> & A6)]).
  { erewrite bind_Raise by apply E6.
    eexists _, _, [Z0; Z0; x4], _. split; [reflexivity|].
    rewrite A6, L6, A5, A4, L5. cbn [s3 arrays loads]. rewrite <- !app_assoc.
    repeat split; done. }
  erewrite bind_Ret by apply E6.
  destruct (set_cooling_frame (length (loads s)) (VSeq (length (arrays s5))) s6)
    as (res7 & s7 & E7 & A7 & [(e & -> & L7)|(l & r & -> & Hv & Hr & L7)]).
  { erewrite bind_Raise by apply E7.
    eexists _, _, [Z0; Z0; x4; x6], _. split; [reflexivity|].
    rewrite A7, L7, A6, L6, A5, A4, L5. cbn [s3 arrays loads].
    rewrite <- !app_assoc. repeat split; done. }
  injection Hv as <-.
  rewrite L6, L5 in Hr. rewrite L6, L5 in L7.
  rewrite list_lookup_middle in Hr by done. injection Hr as <-.
  rewrite insert_last in L7.
  erewrite bind_Ret by apply E7.
  unfold set_dhw.
  erewrite bind_Ret.
  2:{ erewrite bind_Ret
        by (apply get_load_Some; rewrite L7; by apply list_lookup_middle).
      reflexivity. }
  cbn [mret M_ret]. rewrite L7, insert_last, A7, A6, A5, A4.
  eexists _, _, [Z0; Z0; x4; x6], _. split; [reflexivity|].
  cbn [s3 arrays loads]. rewrite <- !app_assoc.
  split; [done|]. split; [done|].
  intros self [= <-]. split; [done|]. eexists. split; [by apply list_lookup_middle|].
  cbn. rewrite !length_app. cbn. repeat split; try lia; done.
Qed.

(** ** Loads whose series are arrays

    What the constructor and [__add__] produce, and what a setter leaves
    behind when it was given an array: for these loads the getters, the
    imbalance and the addition do what their documentation says. *)

Lemma no_hot_water (r : HourlyGeothermalLoad) (H : list Qc) :
  dhw r = 0 → with_hot_water r H = H.
Proof.
  intros Hd. unfold with_hot_water. rewrite Hd.
  rewrite <- (list_fmap_id H) at 2. apply list_fmap_ext.
  intros _ x _. unfold Qcdiv. by rewrite Qcmult_0_l, Qcplus_0_r.
Qed.

Lemma rotate_left_replicate {A} (i : Z) (n : nat) (x : A) :
  rotate_left i (replicate n x) = replicate n x.
Proof.
  unfold rotate_left, slice_from, slice_to.
  rewrite drop_replicate, take_replicate, <- replicate_add.
  f_equal. rewrite length_replicate. lia.
Qed.

(** Reading back a load built from two valid series, with the year
    starting in January and no hot water, gives the two series. *)
Theorem constructed_load_reads_back (base_all_months_equal : bool)
    (s : state) (vh vc : value) (H C : list Qc) (sp : Z) :
  init_arg s vh H → init_arg s vc C →
  ∃ self s1 lh s2 lc s3,
    __init__ 1 base_all_months_equal vh vc sp 0 s = (Ret self, s1)
    ∧ hourly_heating_load self s1 = (Ret lh, s2)
    ∧ arrays s2 !! lh = Some (Seq ndarray (Num <$> H))
    ∧ hourly_cooling_load self s2 = (Ret lc, s3)
    ∧ arrays s3 !! lc = Some (Seq ndarray (Num <$> C)).
Proof.
  intros Hh Hc.
  pose proof (init_run 1 base_all_months_equal s vh vc H C sp 0 Hh Hc) as E.
  cbv zeta in E.
  set (r := mkLoad true sp 0 1 base_all_months_equal
              (length (arrays s) + 2) (length (arrays s) + 3)) in E.
  match type of E with _ = (_, ?st) => set (s1 := st) in E end.
  assert (loads s1 !! length (loads s) = Some r) as Hr
    by (by apply list_lookup_middle).
  assert (arrays s1 !! _hourly_heating_load r = Some (Seq ndarray (Num <$> H)))
    as HlH.
  { cbn [s1 arrays r _hourly_heating_load].
    rewrite lookup_app_r by lia.
    by replace (length (arrays s) + 2 - length (arrays s))%nat with 2%nat by lia. }
  assert (arrays s1 !! _hourly_cooling_load r = Some (Seq ndarray (Num <$> C)))
    as HlC.
  { cbn [s1 arrays r _hourly_cooling_load].
    rewrite lookup_app_r by lia.
    by replace (length (arrays s) + 3 - length (arrays s))%nat with 3%nat by lia. }
  destruct (hourly_heating_load_run s1 _ r H Hr HlH) as (lh & s2 & E2 & X2 & L2);
    [done|].
  destruct (hourly_cooling_load_run s2 (length (loads s)) r ndarray C)
    as (lc & s3 & E3 & X3 & L3);
    [by rewrite (proj1 (proj2 X2)) | by eapply extends_lookup | done |].
  exists (length (loads s)), s1, lh, s2, lc, s3.
  split; [done|]. split; [done|].
  rewrite (start_hour_January r eq_refl), rotate_left_0 in L2, L3.
  rewrite no_hot_water in L2 by done.
  done.
Qed.

(** With a yearly hot water demand of 8760 and a stored heating array of
    zeros, every hour of the heating load is 1, whatever the start month. *)
Theorem hot_water_spread_evenly (s : state) (self : nat)
    (r : HourlyGeothermalLoad) :
  loads s !! self = Some r →
  arrays s !! _hourly_heating_load r = Some (Seq ndarray (Num <$> zero_series)) →
  dhw r = Qc_of_Z 8760 →
  (1 ≤ start_month r ≤ 12)%Z →
  ∃ l' s',
    hourly_heating_load self s = (Ret l', s')
    ∧ arrays s' !! l'
      = Some (Seq ndarray (Num <$> replicate (Z.to_nat 8760) 1)).
Proof.
  intros Hr Hh Hd Hm.
  destruct (hourly_heating_load_run s self r zero_series Hr Hh)
    as (l' & s' & E & _ & L); [lia|].
  exists l', s'. split; [done|]. rewrite L. do 3 f_equal.
  unfold with_hot_water, zero_series. rewrite Hd, fmap_replicate.
  rewrite rotate_left_replicate. f_equal; apply Qc_is_canon; reflexivity.
Qed.

(** The sign of the imbalance of a load without hot water. *)
Theorem imbalance_sign (s : state) (self : nat) (r : HourlyGeothermalLoad)
    (k : seq_kind) (H C : list Qc) :
  loads s !! self = Some r →
  arrays s !! _hourly_heating_load r = Some (Seq ndarray (Num <$> H)) →
  arrays s !! _hourly_cooling_load r = Some (Seq k (Num <$> C)) →
  length C = length H →
  (start_month r ≤ 13)%Z →
  dhw r = 0 →
  ∃ x s',
    imbalance self s = (Ret (Num x), s')
    ∧ x = sum_Qc C - sum_Qc H
    ∧ (Forall (λ c, c = 0) C → 0 < sum_Qc H → x < 0)
    ∧ (Forall (λ h, h = 0) H → 0 < sum_Qc C → 0 < x).
Proof.
  intros Hr Hh Hc Hlen Hm Hd.
  destruct (imbalance_run s self r k H C) as (s' & E & _); [done..|].
  rewrite no_hot_water in E by done.
  eexists _, s'. split; [done|]. split; [done|]. split.
  - intros HC Hpos. rewrite (sum_Qc_zeros C HC).
    apply Qclt_minus_iff.
    by replace (0 + - (0 - sum_Qc H)) with (sum_Qc H) by ring.
  - intros HH Hpos. rewrite (sum_Qc_zeros H HH).
    by replace (sum_Qc C - 0) with (sum_Qc C) by ring.
Qed.

(** ** Series of whole numbers *)





(** * The claims *)

(** C9.  Adding two loads leaves both operands as they were: every array
    and every instance of the store before the call is still there,
    unchanged, after it (so the operands keep their heating and cooling
    arrays, their dhw and their simulation period), whether the call
    returns or raises.  What the call returns is a new instance: it was not
    in the store before, and neither were its two arrays, which are two
    different objects. *)
Theorem add_leaves_operands_untouched
    (base_start_month : Z) (base_all_months_equal : bool)
    (s : state) (a b : nat) (ra rb : HourlyGeothermalLoad) :
  loads s !! a = Some ra →
  loads s !! b = Some rb →
  ∃ res s' new_arrays new_loads,
    __add__ base_start_month base_all_months_equal a (VLoad b) s = (res, s')
    ∧ arrays s' = arrays s ++ new_arrays
    ∧ loads s' = loads s ++ new_loads
    ∧ loads s' !! a = Some ra
    ∧ loads s' !! b = Some rb
    ∧ (∀ l x, arrays s !! l = Some x → arrays s' !! l = Some x)
    ∧ ∀ v, res = Ret v →
        ∃ c rc, v = VLoad c
                ∧ loads s !! c = None
                ∧ loads s' !! c = Some rc
                ∧ arrays s !! _hourly_heating_load rc = None
                ∧ arrays s !! _hourly_cooling_load rc = None
                ∧ _hourly_heating_load rc ≠ _hourly_cooling_load rc.
Proof.
  intros Ha Hb.
  cut (∃ res s' new_arrays new_loads,
    __add__ base_start_month base_all_months_equal a (VLoad b) s = (res, s')
    ∧ arrays s' = arrays s ++ new_arrays
    ∧ loads s' = loads s ++ new_loads
    ∧ ∀ v, res = Ret v →
        ∃ c rc, v = VLoad c
                ∧ (length (loads s) ≤ c)%nat
                ∧ loads s' !! c = Some rc
                ∧ (length (arrays s) ≤ _hourly_heating_load rc)%nat
                ∧ (length (arrays s) ≤ _hourly_cooling_load rc)%nat
                ∧ _hourly_heating_load rc ≠ _hourly_cooling_load rc).
  { intros (res & s' & na & nl & E & HA & HL & Hres).
    exists res, s', na, nl. split; [done|]. split; [done|]. split; [done|].
    rewrite HL, HA.
    split; [by apply lookup_app_l_Some|]. split; [by apply lookup_app_l_Some|].
    split; [intros l x Hx; by apply lookup_app_l_Some|].
    intros v Hv. destruct (Hres v Hv) as (c & rc & -> & Hc & Hrc & Hh & Hcl & Hne).
    exists c, rc. rewrite <- HL.
    repeat split; try done; by apply lookup_ge_None_2. }
  unfold __add__.
  mstep get_load_Some. mstep get_load_Some.
  set (s0 := mkState (arrays s) (loads s)
               (out s ++ period_warning (simulation_period ra)
                                        (simulation_period rb))).
  erewrite (bind_Ret _ _ s s0).
  2:{ unfold s0, period_warning.
      destruct (bool_decide _); [done|]. rewrite app_nil_r. by destruct s. }
  destruct (arrays s0 !! _hourly_heating_load ra) as [ha|] eqn:Hha.
  2:{ erewrite bind_Raise by (unfold deref; by rewrite Hha).
      eexists _, _, [], []. rewrite !app_nil_r. by repeat split. }
  mstep deref_Some.
  destruct (arrays s0 !! _hourly_heating_load rb) as [hb|] eqn:Hhb.
  2:{ erewrite bind_Raise by (unfold deref; by rewrite Hhb).
      eexists _, _, [], []. rewrite !app_nil_r. by repeat split. }
  mstep deref_Some.
  destruct (py_add ha hb) as [hs|e] eqn:Ehs.
  2:{ erewrite bind_Raise by reflexivity.
      eexists _, _, [], []. rewrite !app_nil_r. by repeat split. }
  erewrite bind_Ret by reflexivity.
  erewrite bind_Ret by reflexivity.
  set (s1 := mkState (arrays s0 ++ [hs]) (loads s0) (out s0)).
  destruct (arrays s1 !! _hourly_cooling_load ra) as [ca|] eqn:Hca.
  2:{ erewrite bind_Raise by (unfold deref; by rewrite Hca).
      eexists _, _, [hs], []. rewrite !app_nil_r. by repeat split. }
  mstep deref_Some.
  destruct (arrays s1 !! _hourly_cooling_load rb) as [cb|] eqn:Hcb.
  2:{ erewrite bind_Raise by (unfold deref; by rewrite Hcb).
      eexists _, _, [hs], []. rewrite !app_nil_r. by repeat split. }
  mstep deref_Some.
  destruct (py_add ca cb) as [cs|e] eqn:Ecs.
  2:{ erewrite bind_Raise by reflexivity.
      eexists _, _, [hs], []. rewrite !app_nil_r. by repeat split. }
  erewrite bind_Ret by reflexivity.
  erewrite bind_Ret by reflexivity.
  set (s2 := mkState (arrays s1 ++ [cs]) (loads s1) (out s1)).
  destruct (init_frame base_start_month base_all_months_equal
              (VSeq (length (arrays s0))) (VSeq (length (arrays s1)))
              (Z.max (simulation_period ra) (simulation_period rb))
              (dhw ra + dhw rb) s2)
    as ([c|e] & s3 & na & nl & E & HA & HL & Hres).
  - erewrite bind_Ret by apply E.
    eexists _, _, ([hs; cs] ++ na), nl. split; [reflexivity|].
    cbn [s2 s1 s0 arrays loads] in HA, HL.
    rewrite HA, HL, <- !app_assoc. split; [done|]. split; [done|].
    intros v [= <-]. destruct (Hres c eq_refl) as (-> & rc & Hrc & Hh & Hcl & Hne & _).
    exists (length (loads s2)), rc. rewrite <- HL.
    cbn [s2 s1 s0 arrays loads] in Hh, Hcl |- *. rewrite !length_app in Hh, Hcl.
    repeat split; try done; lia.
  - erewrite bind_Raise by apply E.
    eexists _, _, ([hs; cs] ++ na), nl. split; [reflexivity|].
    cbn [s2 s1 s0 arrays loads] in HA, HL.
    rewrite HA, HL, <- !app_assoc. by repeat split.
Qed.

(** C2, as amended.  A setter given a candidate that fails validation
    (it is no list, tuple or array, such as a float; or it is a list,
    tuple or one-dimensional array whose length is not 8760; or it holds
    8760 numbers, none of them NaN, one of which is negative) raises
    [ValueError], this program's invalid-load error, and leaves every
    array and every instance of the store as it was, so the load keeps its
    previous series.  Given a zero-dimensional array, or 8760 entries one
    of which is [None], it raises [TypeError] instead and changes nothing
    at all.  Given a list, tuple or array of 8760 numbers that are at
    least 0, it makes the attribute refer to that very object: afterwards
    the load is what it was in every other attribute, the other instances
    and all arrays are what they were, and nothing was logged.  This holds
    for [set_hourly_heating] and [set_hourly_cooling] alike, which are the
    property assignments under another name.  And whatever the candidate
    and whatever the exception, a setter that raises has changed no array
    and no instance. *)
Theorem setters_validate (s : state) (self : nat) (r : HourlyGeothermalLoad)
    (v : value) :
  loads s !! self = Some r →
  (fails_validation s v →
     ∃ s1 s2,
       set_hourly_heating self v s = (Raise ValueError, s1)
       ∧ arrays s1 = arrays s ∧ loads s1 = loads s
       ∧ set_hourly_cooling self v s = (Raise ValueError, s2)
       ∧ arrays s2 = arrays s ∧ loads s2 = loads s)
  ∧ (breaks_validation s v →
       set_hourly_heating self v s = (Raise TypeError, s)
       ∧ set_hourly_cooling self v s = (Raise TypeError, s))
  ∧ (valid_load s v →
       ∃ l s1 r1 s2 r2,
         v = VSeq l
         ∧ set_hourly_heating self v s = (Ret (), s1)
         ∧ arrays s1 = arrays s ∧ out s1 = out s
         ∧ loads s1 = <[self := r1]> (loads s)
         ∧ heating_replaced r l r1
         ∧ set_hourly_cooling self v s = (Ret (), s2)
         ∧ arrays s2 = arrays s ∧ out s2 = out s
         ∧ loads s2 = <[self := r2]> (loads s)
         ∧ cooling_replaced r l r2)
  ∧ set_hourly_heating self v = set_hourly_heating_load self v
  ∧ set_hourly_cooling self v = set_hourly_cooling_load self v
  ∧ (∀ e s1, set_hourly_heating self v s = (Raise e, s1) →
       arrays s1 = arrays s ∧ loads s1 = loads s)
  ∧ (∀ e s1, set_hourly_cooling self v s = (Raise e, s1) →
       arrays s1 = arrays s ∧ loads s1 = loads s).
Proof.
  intros Hr. split; [|split; [|split; [|split; [done|split; [done|split]]]]].
  4:{ intros e s1 E.
      destruct (set_heating_frame self v s)
        as (res & s' & E' & HA & [(e' & -> & HL)|(l & r' & -> & _)]);
        rewrite E in E'; by simplify_eq. }
  4:{ intros e s1 E.
      destruct (set_cooling_frame self v s)
        as (res & s' & E' & HA & [(e' & -> & HL)|(l & r' & -> & _)]);
        rewrite E in E'; by simplify_eq. }
  - intros Hf. destruct (fails_validation_false s self v Hf) as [msg E].
    exists (logged s msg), (logged s msg).
    rewrite (set_heating_rejected _ _ _ _ E), (set_cooling_rejected _ _ _ _ E).
    done.
  - intros Hb.
    assert (_check_input self v s = (Raise TypeError, s)) as E.
    { destruct Hb as [l e Hl|l k items Hl Hlen Hin].
      - by eapply check_input_unsized.
      - by eapply check_input_None_entry. }
    by rewrite (set_heating_raises _ _ _ _ _ E), (set_cooling_raises _ _ _ _ _ E).
  - intros (l & k & xs & -> & Hl & Hlen & HF).
    pose proof (check_input_valid s self l k xs Hl Hlen HF) as E.
    exists l, (assigned s self (with_heating r l)), (with_heating r l),
           (assigned s self (with_cooling r l)), (with_cooling r l).
    split; [done|].
    split; [by apply set_heating_accepted|].
    split; [done|]. split; [done|]. split; [done|].
    split; [by repeat split|].
    split; [by apply set_cooling_accepted|].
    split; [done|]. split; [done|]. split; [done|].
    by repeat split.
Qed.


(** C10.  The setters store the reference they were given: the object is
    neither converted to an array nor copied.  So after a list or a
    tuple of 8760 non-negative numbers, which [_check_input] accepts, has
    been passed to [set_hourly_heating], the load holds that list itself,
    and reading [hourly_heating_load] raises [TypeError]: a list cannot
    take the scalar [dhw / 8760]. *)
Theorem setter_keeps_list_and_getter_raises (s : state) (self l : nat)
    (r : HourlyGeothermalLoad) (k : seq_kind) (xs : list Qc) :
  loads s !! self = Some r →
  arrays s !! l = Some (Seq k (Num <$> xs)) →
  k ≠ ndarray →
  Z.of_nat (length xs) = 8760%Z →
  Forall (Qcle 0) xs →
  let s' := assigned s self (with_heating r l) in
  _check_input self (VSeq l) s = (Ret true, s)
  ∧ set_hourly_heating self (VSeq l) s = (Ret (), s')
  ∧ set_hourly_cooling self (VSeq l) s
    = (Ret (), assigned s self (with_cooling r l))
  ∧ arrays s' = arrays s
  ∧ (∃ r', loads s' !! self = Some r' ∧ _hourly_heating_load r' = l)
  ∧ hourly_heating_load self s' = (Raise TypeError, s').
Proof.
  intros Hr Hl Hk Hlen HF s'.
  pose proof (check_input_valid s self l k xs Hl Hlen HF) as E.
  assert (loads s' !! self = Some (with_heating r l)) as Hr'.
  { unfold s', assigned. cbn [loads].
    apply list_lookup_insert_eq. by eapply lookup_lt_Some. }
  split; [done|].
  split; [by apply set_heating_accepted|].
  split; [by apply set_cooling_accepted|].
  split; [done|]. split; [by eexists|].
  unfold hourly_heating_load.
  mstep get_load_Some.
  erewrite bind_Ret by (apply deref_Some; apply Hl).
  apply bind_Raise. unfold lift. by destruct k.
Qed.


(** C6.  For a series of 8760 entries and a start month from 1 to 12,
    [correct_for_start_month] returns the very series it was given when
    the start month is 1.  Otherwise it returns a new array: the series
    from [start_hour] on, followed by its first [start_hour] entries,
    where [start_hour] adds up the hours of the months before the start
    month.  The result has the length and the entries of the series
    (it is a permutation of it); position [j] of the result holds entry
    [(j + start_hour) mod 8760] of the series, a one-to-one correspondence
    of the positions; and rotating the result by the remaining
    [8760 - start_hour] hours gives the series back. *)
Theorem correct_for_start_month_rotates (s : state) (self l : nat)
    (r : HourlyGeothermalLoad) (k : seq_kind) (items : list elem) :
  loads s !! self = Some r →
  arrays s !! l = Some (Seq k items) →
  Z.of_nat (length items) = 8760%Z →
  (1 ≤ start_month r ≤ 12)%Z →
  let start_hour := sum_Z (take (Z.to_nat (start_month r - 1)) (UPM r)) in
  let rotated :=
    drop (Z.to_nat start_hour) items ++ take (Z.to_nat start_hour) items in
  let position (j : nat) := ((j + Z.to_nat start_hour) mod length items)%nat in
  _start_hour r = Ret start_hour
  ∧ (start_month r = 1%Z → correct_for_start_month self l s = (Ret l, s))
  ∧ (start_month r ≠ 1%Z →
     correct_for_start_month self l s
     = (Ret (length (arrays s)),
        mkState (arrays s ++ [Seq ndarray rotated]) (loads s) (out s)))
  ∧ (start_month r = 1%Z → rotated = items)
  ∧ length rotated = length items
  ∧ rotated ≡ₚ items
  ∧ (∀ j, (j < length items)%nat →
       (position j < length items)%nat ∧ rotated !! j = items !! position j)
  ∧ (∀ i, (i < length items)%nat →
       ∃ j, (j < length items)%nat ∧ position j = i
            ∧ ∀ j', (j' < length items)%nat → position j' = i → j' = j)
  ∧ rotate_left (8760 - start_hour) rotated = items.
Proof.
  intros Hr Hl Hlen Hm start_hour rotated position.
  fold (start_hour_of r) in start_hour.
  pose proof (start_hour_bounds r) as Hsh. fold start_hour in Hsh.
  assert (rotated = rotate_left start_hour items) as Hrot
    by (unfold rotated; by rewrite rotate_left_nonneg by lia).
  set (n := length items) in *.
  assert (Z.to_nat start_hour ≤ n)%nat as Hk by lia.
  assert (∀ j, (j < n)%nat →
          position j = if decide (j + Z.to_nat start_hour < n)%nat
                       then (j + Z.to_nat start_hour)%nat
                       else (j + Z.to_nat start_hour - n)%nat) as Hpos.
  { intros j Hj. unfold position. destruct (decide _).
    - by apply Nat.mod_small.
    - symmetry. apply Nat.mod_unique with 1%nat; lia. }
  split; [apply start_hour_run; lia|].
  split.
  { intros E. unfold correct_for_start_month. mstep get_load_Some.
    by rewrite E. }
  split.
  { intros E. unfold correct_for_start_month. mstep get_load_Some.
    rewrite (proj2 (Z.eqb_neq _ _) E).
    mstep deref_Some.
    erewrite bind_Ret by (unfold lift; rewrite start_hour_run by lia; done).
    mcompute. fold start_hour. by rewrite <- Hrot. }
  split.
  { intros E. rewrite Hrot. unfold start_hour.
    by rewrite (start_hour_January r E), rotate_left_0. }
  split; [rewrite Hrot; apply rotate_left_length|].
  split; [rewrite Hrot; apply rotate_left_Permutation|].
  split.
  { intros j Hj. split.
    - rewrite Hpos by done. destruct (decide _); lia.
    - rewrite Hrot. apply rotate_left_lookup; [fold n; lia | done]. }
  split.
  { intros i Hi.
    exists (if decide (Z.to_nat start_hour ≤ i)%nat
            then (i - Z.to_nat start_hour)%nat
            else (i + n - Z.to_nat start_hour)%nat).
    split; [destruct (decide _); lia|]. split.
    - rewrite Hpos by (destruct (decide _); lia).
      repeat destruct (decide _); lia.
    - intros j' Hj' E. rewrite Hpos in E by done.
      repeat destruct (decide _); lia. }
  rewrite Hrot. replace 8760%Z with (Z.of_nat (length items)) by done.
  apply rotate_left_complement. fold n. lia.
Qed.

(** C8, as amended.  For an operand that is not an [HourlyGeothermalLoad]
    and that has an [__add__] of its own, the expression [a + other] hands
    over to [other.__add__(a)].  A [TypeError] that call raises is raised
    as [TypeError]; any other exception it raises goes through unchanged.
    When it answers [NotImplemented], Python turns to [other.__radd__(a)]:
    there being none, or its answer being [NotImplemented] too, the
    expression raises [TypeError], and so it does for every float.  Any
    other answer of [other.__add__(a)] is the value of the expression as
    it is, load or not. *)
Theorem add_delegates_to_other_operand
    (base_start_month : Z) (base_all_months_equal : bool)
    (s : state) (self : nat) (other : value) (f : nat → M value) :
  (∀ o, other ≠ VLoad o) →
  getattr_add other = Some f →
  (∀ v s', f self s = (Ret v, s') → v ≠ VNotImplemented →
     binary_add base_start_month base_all_months_equal self other s
     = (Ret v, s'))
  ∧ (∀ s', f self s = (Raise TypeError, s') →
     binary_add base_start_month base_all_months_equal self other s
     = (Raise TypeError, s'))
  ∧ (∀ e s', e ≠ TypeError → f self s = (Raise e, s') →
     binary_add base_start_month base_all_months_equal self other s
     = (Raise e, s'))
  ∧ (∀ s', f self s = (Ret VNotImplemented, s') →
     match getattr_radd other with
     | None =>
         binary_add base_start_month base_all_months_equal self other s
         = (Raise TypeError, s')
     | Some g =>
         (∀ s'', g self s' = (Ret VNotImplemented, s'') →
            binary_add base_start_month base_all_months_equal self other s
            = (Raise TypeError, s''))
         ∧ (∀ v s'', g self s' = (Ret v, s'') → v ≠ VNotImplemented →
              binary_add base_start_month base_all_months_equal self other s
              = (Ret v, s''))
         ∧ (∀ e s'', g self s' = (Raise e, s'') →
              binary_add base_start_month base_all_months_equal self other s
              = (Raise e, s''))
     end)
  ∧ (∀ x, binary_add base_start_month base_all_months_equal self (VNum x) s
          = (Raise TypeError, s)).
Proof.
  intros Hother Hf.
  assert (__add__ base_start_month base_all_months_equal self other
          = except_TypeError (f self) (raise TypeError)) as Hadd.
  { unfold __add__. destruct other; try (by rewrite Hf).
    by destruct (Hother l). }
  assert (∀ v s', f self s = (Ret v, s') →
          __add__ base_start_month base_all_months_equal self other s
          = (Ret v, s')) as Hret.
  { intros v s' E. by rewrite Hadd; unfold except_TypeError; rewrite E. }
  split; [|split; [|split; [|split]]].
  - intros v s' E Hv. unfold binary_add.
    erewrite bind_Ret by by apply Hret.
    destruct v; try done; destruct other; try done.
  - intros s' E. apply bind_Raise.
    rewrite Hadd. unfold except_TypeError, raise. by rewrite E.
  - intros e s' He E. apply bind_Raise.
    rewrite Hadd. unfold except_TypeError. rewrite E. by destruct e.
  - intros s' E.
    assert (binary_add base_start_month base_all_months_equal self other s
            = match getattr_radd other with
              | None => raise TypeError
              | Some g =>
                  r' ← g self;
                  match r' with
                  | VNotImplemented => raise TypeError
                  | _ => mret r'
                  end
              end s') as ->.
    { unfold binary_add. erewrite bind_Ret by by apply Hret.
      by destruct other. }
    destruct (getattr_radd other) as [g|]; [|done].
    split; [|split].
    + intros s'' Eg. by erewrite bind_Ret by apply Eg.
    + intros v s'' Eg Hv. erewrite bind_Ret by apply Eg. by destruct v.
    + intros e s'' Eg. by apply bind_Raise.
  - intros x. reflexivity.
Qed.

(** * The claims on the example store *)

Lemma constant_series_length (x : Z) :
  Z.of_nat (length (constant_series x)) = 8760%Z.
Proof. reflexivity. Defined.

Lemma constant_series_nonneg (x : Z) :
  (0 ≤ x)%Z → Forall (Qcle 0) (constant_series x).
Proof.
  intros Hx. apply Forall_replicate. by apply (proj1 (Z2Qc_inj_le 0 x)).
Defined.

Lemma add_leaves_operands_untouched_witness :
  loads example_store !! 0%nat = Some load_A
  ∧ loads example_store !! 1%nat = Some load_B
  ∧ ∃ res s' new_arrays new_loads,
      __add__ 1 false 0 (VLoad 1) example_store = (res, s')
      ∧ arrays s' = arrays example_store ++ new_arrays
      ∧ loads s' = loads example_store ++ new_loads
      ∧ loads s' !! 0%nat = Some load_A
      ∧ loads s' !! 1%nat = Some load_B.
Proof.
  split; [reflexivity|]. split; [reflexivity|].
  destruct (add_leaves_operands_untouched 1 false example_store 0 1
              load_A load_B eq_refl eq_refl)
    as (res & s' & na & nl & E & HA & HL & Ha & Hb & _).
  exists res, s', na, nl. repeat split; assumption.
Defined.

(** C2, the claim as it stands, fails: a zero-dimensional array, and a
    list of 8760 entries with a negative number and [None] among them,
    are candidates that fail validation, and the setters answer them with
    [TypeError], not with the invalid-load error. *)
Lemma setters_raise_TypeError :
  arrays irregular_store !! 2%nat = Some (Array0 (Num (Qc_of_Z 5)))
  ∧ set_hourly_heating 0 (VSeq 2) irregular_store
    = (Raise TypeError, irregular_store)
  ∧ set_hourly_cooling 0 (VSeq 2) irregular_store
    = (Raise TypeError, irregular_store)
  ∧ arrays irregular_store !! 3%nat
    = Some (Seq pylist (Num (Qc_of_Z (-1))
                        :: replicate (Z.to_nat 8759) NoneElem))
  ∧ set_hourly_heating 0 (VSeq 3) irregular_store
    = (Raise TypeError, irregular_store)
  ∧ set_hourly_cooling 0 (VSeq 3) irregular_store
    = (Raise TypeError, irregular_store).
Proof.
  split; [reflexivity|]. split; [reflexivity|]. split; [reflexivity|].
  split; [reflexivity|]. split; vm_compute; reflexivity.
Qed.

Lemma setters_validate_witness :
  loads example_store !! 0%nat = Some load_A
  ∧ (∃ s1 s2,
       set_hourly_heating 0 (VNum 1) example_store = (Raise ValueError, s1)
       ∧ arrays s1 = arrays example_store ∧ loads s1 = loads example_store
       ∧ set_hourly_cooling 0 (VNum 1) example_store = (Raise ValueError, s2)
       ∧ arrays s2 = arrays example_store ∧ loads s2 = loads example_store)
  ∧ (∃ s1 s2,
       set_hourly_heating 0 (VSeq 9) example_store = (Raise ValueError, s1)
       ∧ arrays s1 = arrays example_store ∧ loads s1 = loads example_store
       ∧ set_hourly_cooling 0 (VSeq 9) example_store = (Raise ValueError, s2)
       ∧ arrays s2 = arrays example_store ∧ loads s2 = loads example_store)
  ∧ (set_hourly_heating 0 (VSeq 5) example_store
     = (Raise TypeError, example_store))
  ∧ ∃ s1 r1,
      set_hourly_heating 0 (VSeq 3) example_store = (Ret (), s1)
      ∧ loads s1 = <[0%nat := r1]> (loads example_store)
      ∧ heating_replaced load_A 3 r1.
Proof.
  split; [reflexivity|]. split; [|split; [|split]].
  - apply (proj1 (setters_validate example_store 0 load_A (VNum 1) eq_refl)).
    apply wrong_type. intros l. discriminate.
  - apply (proj1 (setters_validate example_store 0 load_A (VSeq 9) eq_refl)).
    eapply wrong_length; [reflexivity|]. vm_compute. discriminate.
  - apply (proj1 (proj2 (setters_validate example_store 0 load_A (VSeq 5)
                           eq_refl))).
    eapply not_a_number; [reflexivity|reflexivity|].
    apply elem_of_cons. by left.
  - destruct (proj1 (proj2 (proj2 (setters_validate example_store 0 load_A
                                     (VSeq 3) eq_refl))))
      as (l & s1 & r1 & _ & _ & Hl & E & _ & _ & HL & Hrep & _).
    + exists 3%nat, ndarray, (constant_series 4).
      split; [reflexivity|]. split; [reflexivity|].
      split; [apply constant_series_length|].
      apply constant_series_nonneg. lia.
    + injection Hl as <-. exists s1, r1.
      split; [assumption|]. split; assumption.
Defined.



Lemma setter_keeps_list_and_getter_raises_witness :
  loads example_store !! 0%nat = Some load_A
  ∧ arrays example_store !! 4%nat = Some (Seq pylist (Num <$> constant_series 5))
  ∧ pylist ≠ ndarray
  ∧ set_hourly_heating 0 (VSeq 4) example_store
    = (Ret (), assigned example_store 0 (with_heating load_A 4))
  ∧ hourly_heating_load 0 (assigned example_store 0 (with_heating load_A 4))
    = (Raise TypeError, assigned example_store 0 (with_heating load_A 4)).
Proof.
  split; [reflexivity|]. split; [reflexivity|]. split; [discriminate|].
  destruct (setter_keeps_list_and_getter_raises example_store 0 4 load_A
              pylist (constant_series 5) eq_refl eq_refl)
    as (_ & Hset & _ & _ & _ & Hget).
  - discriminate.
  - apply constant_series_length.
  - apply constant_series_nonneg. lia.
  - split; assumption.
Defined.




Lemma correct_for_start_month_rotates_witness :
  loads example_store !! 0%nat = Some load_A
  ∧ arrays example_store !! 4%nat = Some (Seq pylist (Num <$> constant_series 5))
  ∧ (1 ≤ start_month load_A ≤ 12)%Z
  ∧ _start_hour load_A = Ret 1416%Z
  ∧ correct_for_start_month 0 4 example_store
    = (Ret (length (arrays example_store)),
       mkState (arrays example_store
                ++ [Seq ndarray
                      (drop (Z.to_nat 1416) (Num <$> constant_series 5)
                       ++ take (Z.to_nat 1416) (Num <$> constant_series 5))])
               (loads example_store) (out example_store)).
Proof.
  split; [reflexivity|]. split; [reflexivity|]. split; [done|].
  destruct (correct_for_start_month_rotates example_store 0 4 load_A pylist
              (Num <$> constant_series 5) eq_refl eq_refl)
    as (Hsh & _ & Hrot & _).
  - reflexivity.
  - done.
  - split; [exact Hsh|]. apply Hrot. discriminate.
Defined.

(** C8, the claim as it stands, fails: the operand [stringly] is no load,
    its [__add__] answers with a string, and that string is the value of
    [a + stringly], without any error. *)
Lemma add_returns_what_the_operand_returns :
  binary_add 1 false 0 stringly example_store
  = (Ret (VStr "sum"), example_store).
Proof. reflexivity. Qed.

Lemma add_delegates_to_other_operand_witness :
  (∀ o, stringly ≠ VLoad o)
  ∧ getattr_add stringly = Some (λ _, mret (VStr "sum"))
  ∧ binary_add 1 false 0 stringly example_store
    = (Ret (VStr "sum"), example_store)
  ∧ binary_add 1 false 0 (VNum 1) example_store
    = (Raise TypeError, example_store).
Proof.
  split; [intros o; discriminate|]. split; [reflexivity|].
  destruct (add_delegates_to_other_operand 1 false example_store 0 stringly
              (λ _, mret (VStr "sum")))
    as (Hret & _ & _ & _ & Hfloat).
  - intros o. discriminate.
  - reflexivity.
  - split; [|apply Hfloat]. apply Hret; [reflexivity|discriminate].
Defined.

(** C1 at a failing input.  Two loads that were each given a Python list
    as heating series: [a + b] concatenates the two lists into one of
    17520 entries, the constructor rejects it, and the addition raises
    [ValueError] where the claim has it return the load of the
    elementwise sums. *)
Theorem add_of_list_loads_raises :
  (add_after_list_assignment example_store).1 = Raise ValueError.
Proof. vm_compute. reflexivity. Qed.

(** C3 at a failing input.  A load with 8760 kWh of hot water that was
    given a list of zeros as heating series: reading
    [hourly_heating_load] raises [TypeError] where the claim has it return
    an array of ones. *)
Theorem heating_getter_raises_on_list :
  (read_heating_after_list_assignment example_store).1 = Raise TypeError.
Proof. vm_compute. reflexivity. Qed.

(** C7 at a failing input.  A load without hot water, with no cooling
    and a Python list of positive numbers as heating series: [imbalance]
    raises [TypeError] where the claim has it be negative. *)
Theorem imbalance_raises_on_list :
  (imbalance_after_list_assignment example_store).1 = Raise TypeError.
Proof. vm_compute. reflexivity. Qed.

(** ** Further examples *)

(** The merge example of the specification: A (heating 1, cooling 2, 20
    years, no hot water) plus B (heating 3, cooling 4, 25 years, 100 kWh of
    hot water) is a new load with heating 4, cooling 6, 25 years and 100
    kWh of hot water, and a warning about the periods is emitted. *)
Example add_A_B :
  ∃ s' rc,
    __add__ 1 false 0 (VLoad 1) example_store = (Ret (VLoad 3), s')
    ∧ loads s' = [load_A; load_B; load_C; rc]
    ∧ arrays s' !! _hourly_heating_load rc
      = Some (Seq ndarray (Num <$> zip_with Qcplus (constant_series 1)
                                                     (constant_series 3)))
    ∧ zip_with Qcplus (constant_series 1) (constant_series 3)
      = Q2Qc <$> replicate (Z.to_nat 8760) (4 : Q)
    ∧ arrays s' !! _hourly_cooling_load rc
      = Some (Seq ndarray (Num <$> zip_with Qcplus (constant_series 2)
                                                     (constant_series 4)))
    ∧ zip_with Qcplus (constant_series 2) (constant_series 4)
      = Q2Qc <$> replicate (Z.to_nat 8760) (6 : Q)
    ∧ simulation_period rc = 25%Z
    ∧ dhw rc = Qc_of_Z 100
    ∧ out s' = [Warning 25].
Proof.
  eexists _, _. split.
  { apply (add_loads_run 1 false example_store 0 1 load_A load_B
             ndarray ndarray ndarray ndarray
             (constant_series 1) (constant_series 3)
             (constant_series 2) (constant_series 4));
      try reflexivity; try (by left);
      try apply constant_series_length; apply constant_series_nonneg; lia. }
  cbn [arrays loads out].
  split; [reflexivity|]. split; [reflexivity|].
  split.
  { unfold constant_series. rewrite zip_with_replicate, fmap_replicate.
    f_equal; apply Qc_is_canon; reflexivity. }
  split; [reflexivity|].
  split.
  { unfold constant_series. rewrite zip_with_replicate, fmap_replicate.
    f_equal; apply Qc_is_canon; reflexivity. }
  split; [reflexivity|]. split; [|reflexivity].
  apply Qc_is_canon. reflexivity.
Qed.

(** An operand without [__add__], such as [None], makes the lookup of
    the attribute fail before any [TypeError] could be caught. *)
Example add_None : __add__ 1 false 0 VNone example_store
                   = (Raise AttributeError, example_store).
Proof. reflexivity. Qed.

(** A float has an [__add__], which answers [NotImplemented]; the method
    passes that on. *)
Example add_float : __add__ 1 false 0 (VNum 1) example_store
                    = (Ret VNotImplemented, example_store).
Proof. reflexivity. Qed.

(** * Further properties of the code *)

(** ** Validation and construction *)

(** X1.  [_check_input] never changes an array or an instance.  It writes
    one error message to the log when it answers false, and nothing when
    it answers true or raises. *)
Theorem check_input_only_logs (self : nat) (v : value) (s : state) :
  arrays (_check_input self v s).2 = arrays s
  ∧ loads (_check_input self v s).2 = loads s
  ∧ match (_check_input self v s).1 with
    | Ret true => out (_check_input self v s).2 = out s
    | Ret false =>
        ∃ msg, out (_check_input self v s).2 = out s ++ [LoggerError msg]
    | Raise _ => out (_check_input self v s).2 = out s
    end.
Proof.
  destruct v as [x| |str| |l|l|add];
    try (split; [done|]; split; [done|]; by eexists).
  unfold _check_input, mbind, M_bind, deref, lift, log_error, emit.
  destruct (arrays s !! l) as [a|]; [|done].
  destruct (py_len a) as [n|]; [|done].
  destruct (negb _); [split; [done|]; split; [done|]; by eexists|].
  destruct (np_min a) as [m|]; [|done].
  destruct (lt_zero m) as [[]|]; [|done..].
  split; [done|]. split; [done|]. by eexists.
Qed.

(** What [np.array] makes of a constructor argument, and the exception
    the setter answers it with. *)
Lemma bad_arg_conversion (s0 s : state) (v : value) (e : exn) :
  bad_arg s0 v e → (∃ new, arrays s = arrays s0 ++ new) →
  ∃ x, np_array v s
       = (Ret (length (arrays s)),
          mkState (arrays s ++ [x]) (loads s) (out s))
       ∧ ∀ self s1, arrays s1 = arrays s ++ [x] →
           ∃ s2, _check_input self (VSeq (length (arrays s))) s1
                 = (match e with
                    | ValueError => Ret false
                    | _ => Raise e
                    end, s2)
                 ∧ e ≠ SystemError.
Proof.
  intros Hbad [new Hnew].
  destruct Hbad
    as [x|str|add radd|l k items Hl Hlen|l k xs x Hl Hlen Hin Hneg].
  1-3: eexists (Array0 _); (split; [reflexivity|]);
       intros self s1 Hs1; exists s1; (split; [|done]);
       eapply check_input_unsized; rewrite Hs1;
       by apply list_lookup_middle.
  - exists (Seq ndarray items). split.
    { eapply np_array_run. rewrite Hnew. by apply lookup_app_l_Some. }
    intros self s1 Hs1. eexists. split; [|done].
    eapply check_input_wrong_length; [|done].
    rewrite Hs1. by apply list_lookup_middle.
  - exists (Seq ndarray (Num <$> xs)). split.
    { eapply np_array_run. rewrite Hnew. by apply lookup_app_l_Some. }
    intros self s1 Hs1.
    destruct (check_input_numbers s1 self (length (arrays s)) ndarray xs)
      as [[HF _]|[_ E]]; [by rewrite Hs1; apply list_lookup_middle | done | |].
    + exfalso. rewrite Forall_forall in HF.
      by apply (Qclt_not_le _ _ Hneg), HF.
    + eexists. split; [apply E|done].
Qed.

Lemma bad_arg_not_default (s : state) (v : value) (e : exn) :
  bad_arg s v e →
  match v with VNone => np_zeros 8760 | _ => np_array v end = np_array v.
Proof. by destruct 1. Qed.

Lemma set_heating_of_bad_arg (s s2 : state) (self l : nat) (e : exn) :
  _check_input self (VSeq l) s
  = (match e with ValueError => Ret false | _ => Raise e end, s2) →
  e ≠ SystemError →
  set_hourly_heating self (VSeq l) s = (Raise e, s2).
Proof.
  intros E He. destruct e; try done.
  - by apply set_heating_rejected.
  - by apply set_heating_raises.
  - by apply set_heating_raises.
  - by apply set_heating_raises.
Qed.

Lemma set_cooling_of_bad_arg (s s2 : state) (self l : nat) (e : exn) :
  _check_input self (VSeq l) s
  = (match e with ValueError => Ret false | _ => Raise e end, s2) →
  e ≠ SystemError →
  set_hourly_cooling self (VSeq l) s = (Raise e, s2).
Proof.
  intros E He. destruct e; try done.
  - by apply set_cooling_rejected.
  - by apply set_cooling_raises.
  - by apply set_cooling_raises.
  - by apply set_cooling_raises.
Qed.

(** X2.  The constructor refuses a bad load argument, in either
    position: a list, tuple or array whose length is not 8760, or that
    holds 8760 numbers, none NaN, one of which is negative, gives
    [ValueError]; a number, a string or an object that numpy does not
    read as a sequence gives [TypeError], because [np.array] makes a
    zero-dimensional array of it and [len] fails.  The cooling argument
    is only looked at after the heating argument was accepted.  In every
    case the arrays and instances that existed before are still there,
    unchanged. *)
Theorem constructor_rejects (base_start_month : Z) (base_all_months_equal : bool)
    (s : state) (vh vc : value) (sp : Z) (d : Qc) (e : exn) :
  bad_arg s vh e ∨ ((∃ H, init_arg s vh H) ∧ bad_arg s vc e) →
  ∃ s' new_arrays new_loads,
    __init__ base_start_month base_all_months_equal vh vc sp d s = (Raise e, s')
    ∧ arrays s' = arrays s ++ new_arrays
    ∧ loads s' = loads s ++ new_loads.
Proof.
  intros Hbad.
  assert ((__init__ base_start_month base_all_months_equal vh vc sp d s).1
          = Raise e) as Hres.
  2:{ destruct (init_frame base_start_month base_all_months_equal vh vc sp d s)
        as (res & s' & na & nl & E & HA & HL & _).
      exists s', na, nl. split; [|done]. rewrite E in Hres |- *.
      cbn in Hres. by rewrite Hres. }
  unfold __init__.
  erewrite bind_Ret by apply np_zeros_run.
  erewrite bind_Ret by apply np_zeros_run.
  erewrite bind_Ret by reflexivity.
  cbn [arrays loads out].
  change (set_hourly_heating_load ?x ?y) with (set_hourly_heating x y).
  change (set_hourly_cooling_load ?x ?y) with (set_hourly_cooling x y).
  destruct Hbad as [Hbad|[[H Hh] Hbad]].
  - rewrite (bad_arg_not_default _ _ _ Hbad).
    edestruct (bad_arg_conversion s) as (x & Ex & Hcheck); [done| |].
    2:{ erewrite bind_Ret by apply Ex.
        lazymatch goal with
        | |- ((set_hourly_heating ?self _ ≫= _) ?st).1 = _ =>
            destruct (Hcheck self st eq_refl) as (s2 & Ec & He)
        end.
        erewrite bind_Raise; [done|].
        eapply set_heating_of_bad_arg; [apply Ec|done]. }
    cbn [arrays]. eexists. by rewrite <- app_assoc.
  - pose proof (init_arg_valid _ _ _ Hh) as [HlenH HposH].
    erewrite bind_Ret.
    2:{ apply (init_arg_run s _ vh H Hh). cbn [arrays].
        eexists. by rewrite <- app_assoc. }
    cbn [arrays loads out].
    erewrite bind_Ret.
    2:{ apply set_heating_accepted; [apply list_lookup_middle; done|].
        apply (check_input_valid _ _ _ ndarray H); [|done..]. cbn [arrays].
        by apply list_lookup_middle. }
    unfold assigned. cbn [arrays loads out].
    rewrite (bad_arg_not_default _ _ _ Hbad).
    edestruct (bad_arg_conversion s) as (x & Ex & Hcheck); [done| |].
    2:{ erewrite bind_Ret by apply Ex.
        lazymatch goal with
        | |- ((set_hourly_cooling ?self _ ≫= _) ?st).1 = _ =>
            destruct (Hcheck self st eq_refl) as (s2 & Ec & He)
        end.
        erewrite bind_Raise; [done|].
        eapply set_cooling_of_bad_arg; [apply Ec|done]. }
    cbn [arrays]. eexists. by rewrite <- !app_assoc.
Qed.

Lemma init_conversion_kind (v : value) (s : state) :
  ∃ res s',
    match v with VNone => np_zeros 8760 | _ => np_array v end s = (res, s')
    ∧ loads s' = loads s ∧ out s' = out s
    ∧ ((∃ e, res = Raise e)
       ∨ (∃ x, res = Ret (length (arrays s)) ∧ arrays s' = arrays s ++ [x]
               ∧ ∀ k items, x = Seq k items → k = ndarray)).
Proof.
  destruct v as [x| |str| |l|l|add radd [l|]];
    try (eexists _, _; split; [reflexivity|]; split; [done|]; split; [done|];
         right; eexists; split; [done|]; split; [done|]; by intros ?? [=]).
  all: unfold np_array; destruct (arrays s !! l) as [a|] eqn:Hl.
  all: try (mstep deref_Some; eexists _, _; split; [reflexivity|];
            split; [done|]; split; [done|]; right; eexists;
            split; [done|]; split; [done|]; destruct a; by intros ?? [=]).
  all: erewrite bind_Raise by (unfold deref; by rewrite Hl);
       eexists _, _; split; [reflexivity|]; split; [done|]; split; [done|];
       left; by eexists.
Qed.

Lemma set_heating_returns (self : nat) (v : value) (s s' : state) :
  set_hourly_heating self v s = (Ret (), s') →
  ∃ l r k items,
    v = VSeq l ∧ arrays s !! l = Some (Seq k items) ∧ passes_validation items
    ∧ loads s !! self = Some r
    ∧ s' = assigned s self (with_heating r l).
Proof.
  unfold set_hourly_heating, set_hourly_heating_load. intros E.
  destruct (_check_input self v s) as [[[]|e] s1] eqn:Ec.
  - pose proof (check_input_true _ _ _ _ Ec) as [Hv ->].
    erewrite bind_Ret in E by apply Ec. cbv beta iota in E.
    destruct Hv as (l & k & items & -> & Hl & Hpass).
    destruct (loads s !! self) as [r|] eqn:Hr.
    + erewrite bind_Ret in E by by apply get_load_Some.
      injection E as <-. by exists l, r, k, items.
    + erewrite bind_Raise in E by (unfold get_load; by rewrite Hr). done.
  - erewrite bind_Ret in E by apply Ec. done.
  - erewrite bind_Raise in E by apply Ec. done.
Qed.

Lemma set_cooling_returns (self : nat) (v : value) (s s' : state) :
  set_hourly_cooling self v s = (Ret (), s') →
  ∃ l r k items,
    v = VSeq l ∧ arrays s !! l = Some (Seq k items) ∧ passes_validation items
    ∧ loads s !! self = Some r
    ∧ s' = assigned s self (with_cooling r l).
Proof.
  unfold set_hourly_cooling, set_hourly_cooling_load. intros E.
  destruct (_check_input self v s) as [[[]|e] s1] eqn:Ec.
  - pose proof (check_input_true _ _ _ _ Ec) as [Hv ->].
    erewrite bind_Ret in E by apply Ec. cbv beta iota in E.
    destruct Hv as (l & k & items & -> & Hl & Hpass).
    destruct (loads s !! self) as [r|] eqn:Hr.
    + erewrite bind_Ret in E by by apply get_load_Some.
      injection E as <-. by exists l, r, k, items.
    + erewrite bind_Raise in E by (unfold get_load; by rewrite Hr). done.
  - erewrite bind_Ret in E by apply Ec. done.
  - erewrite bind_Raise in E by apply Ec. done.
Qed.

(** What holds of the instance whenever the constructor returns. *)
Lemma init_establishes_invariant
    (base_start_month : Z) (base_all_months_equal : bool)
    (vh vc : value) (sp : Z) (d : Qc) (s s' : state) (self : nat) :
  __init__ base_start_month base_all_months_equal vh vc sp d s = (Ret self, s') →
  ∃ r, loads s !! self = None
       ∧ loads s' !! self = Some r
       ∧ holds_arrays s' r
       ∧ arrays s !! _hourly_heating_load r = None
       ∧ arrays s !! _hourly_cooling_load r = None
       ∧ _hourly_heating_load r ≠ _hourly_cooling_load r
       ∧ simulation_period r = sp ∧ dhw r = d
       ∧ start_month r = base_start_month
       ∧ all_months_equal r = base_all_months_equal.
Proof.
  unfold __init__. intros E.
  erewrite bind_Ret in E by apply np_zeros_run.
  erewrite bind_Ret in E by apply np_zeros_run.
  erewrite bind_Ret in E by reflexivity.
  cbn [arrays loads out] in E.
  change (set_hourly_heating_load ?x ?y) with (set_hourly_heating x y) in E.
  change (set_hourly_cooling_load ?x ?y) with (set_hourly_cooling x y) in E.
  set (Z0 := Seq ndarray (Num <$> zero_series)) in E.
  set (r0 := mkLoad true sp 0 base_start_month base_all_months_equal
               (length (arrays s)) (length (arrays s ++ [Z0]))) in E.
  set (s3 := mkState ((arrays s ++ [Z0]) ++ [Z0]) (loads s ++ [r0]) (out s)) in E.
  destruct (init_conversion_kind vh s3)
    as (res4 & s4 & E4 & L4 & O4 & [(e & ->)|(x4 & -> & A4 & K4)]).
  { erewrite bind_Raise in E by apply E4. done. }
  erewrite bind_Ret in E by apply E4.
  destruct (set_hourly_heating (length (loads s)) (VSeq (length (arrays s3))) s4)
    as [[[]|e] s5] eqn:E5.
  2:{ erewrite bind_Raise in E by apply E5. done. }
  erewrite bind_Ret in E by apply E5.
  apply set_heating_returns
    in E5 as (l & r & kh & hs & [= <-] & HlH & Hhs & Hr5 & ->).
  rewrite L4 in Hr5. cbn [s3 loads] in Hr5.
  rewrite list_lookup_middle in Hr5 by done. injection Hr5 as <-.
  rewrite A4, list_lookup_middle in HlH by done. injection HlH as ->.
  assert (kh = ndarray) as -> by by eapply K4.
  set (s5 := assigned s4 (length (loads s)) (with_heating r0 (length (arrays s3)))) in E.
  destruct (init_conversion_kind vc s5)
    as (res6 & s6 & E6 & L6 & O6 & [(e & ->)|(x6 & -> & A6 & K6)]).
  { erewrite bind_Raise in E by apply E6. done. }
  erewrite bind_Ret in E by apply E6.
  destruct (set_hourly_cooling (length (loads s)) (VSeq (length (arrays s5))) s6)
    as [[[]|e] s7] eqn:E7.
  2:{ erewrite bind_Raise in E by apply E7. done. }
  erewrite bind_Ret in E by apply E7.
  apply set_cooling_returns
    in E7 as (l & r & kc & cs & [= <-] & HlC & Hcs & Hr7 & ->).
  rewrite L6 in Hr7. cbn [s5 assigned loads] in Hr7.
  rewrite L4 in Hr7. cbn [s3 loads] in Hr7.
  rewrite insert_last, list_lookup_middle in Hr7 by done. injection Hr7 as <-.
  rewrite A6, list_lookup_middle in HlC by done. injection HlC as ->.
  assert (kc = ndarray) as -> by by eapply K6.
  unfold set_dhw in E.
  set (r2 := with_cooling (with_heating r0 (length (arrays s3))) (length (arrays s5))) in *.
  match type of E with
  | (_ ≫= _) ?st = _ => change st with (assigned s6 (length (loads s)) r2) in E
  end.
  set (s7 := assigned s6 (length (loads s)) r2) in E.
  assert (loads s7 = loads s ++ [r2]) as L7.
  { cbn [s7 assigned loads]. rewrite L6. cbn [s5 assigned loads]. rewrite L4.
    cbn [s3 loads]. by rewrite !insert_last. }
  erewrite bind_Ret in E.
  2:{ erewrite bind_Ret
        by (apply get_load_Some; rewrite L7; by apply list_lookup_middle).
      reflexivity. }
  cbn [mret M_ret] in E. injection E as <- <-.
  change (<[length (loads s):=r2]> (loads s6)) with (loads s7).
  rewrite L7, insert_last. cbn [loads arrays].
  exists (with_dhw r2 d).
  assert (arrays s6 = arrays s ++ [Z0; Z0; Seq ndarray hs;
                                   Seq ndarray cs]) as A.
  { rewrite A6. cbn [s5 assigned arrays]. rewrite A4. cbn [s3 arrays].
    by rewrite <- !app_assoc. }
  assert (length (arrays s3) = (length (arrays s) + 2)%nat) as N3
    by (cbn [s3 arrays]; rewrite !length_app; cbn; lia).
  assert (length (arrays s5) = (length (arrays s) + 3)%nat) as N5
    by (cbn [s5 assigned arrays]; rewrite A4, length_app, N3; cbn; lia).
  split; [by apply lookup_ge_None_2|].
  split; [by apply list_lookup_middle|].
  cbn [with_dhw r2 with_cooling with_heating r0 _hourly_heating_load
       _hourly_cooling_load simulation_period dhw start_month all_months_equal].
  rewrite N3, N5.
  split.
  { exists hs, cs.
    cbn [with_dhw r2 with_cooling with_heating r0 _hourly_heating_load
         _hourly_cooling_load arrays].
    rewrite N3, N5, A.
    split.
    { rewrite lookup_app_r by lia.
      by replace (length (arrays s) + 2 - length (arrays s))%nat with 2%nat by lia. }
    split; [|done].
    rewrite lookup_app_r by lia.
    by replace (length (arrays s) + 3 - length (arrays s))%nat with 3%nat by lia. }
  split; [apply lookup_ge_None_2; lia|].
  split; [apply lookup_ge_None_2; lia|].
  split; [lia|]. done.
Qed.

(** X3.  Whenever the constructor returns, its arguments being [None],
    scalars, objects or flat sequences, the new instance holds two numpy
    arrays that validation lets through: 8760 entries each, none of them
    [None], and all of them numbers that are at least 0 unless a NaN is
    among them.  They are two different objects, neither of which existed
    before, so the instance shares no array with the arguments; and the
    instance has the period and the hot water demand that were given. *)
Theorem constructor_establishes_invariant
    (base_start_month : Z) (base_all_months_equal : bool)
    (vh vc : value) (sp : Z) (d : Qc) (s s' : state) (self : nat) :
  __init__ base_start_month base_all_months_equal vh vc sp d s = (Ret self, s') →
  ∃ r, loads s !! self = None
       ∧ loads s' !! self = Some r
       ∧ holds_arrays s' r
       ∧ arrays s !! _hourly_heating_load r = None
       ∧ arrays s !! _hourly_cooling_load r = None
       ∧ _hourly_heating_load r ≠ _hourly_cooling_load r
       ∧ simulation_period r = sp ∧ dhw r = d
       ∧ start_month r = base_start_month
       ∧ all_months_equal r = base_all_months_equal.
Proof. apply init_establishes_invariant. Qed.

(** ** Addition *)

(** An addition of two loads that returns went through the constructor. *)
Lemma add_returns_via_init (base_start_month : Z) (base_all_months_equal : bool)
    (s s' : state) (a b : nat) (ra rb : HourlyGeothermalLoad) (v : value) :
  loads s !! a = Some ra →
  loads s !! b = Some rb →
  __add__ base_start_month base_all_months_equal a (VLoad b) s = (Ret v, s') →
  ∃ vh vc s2 c,
    __init__ base_start_month base_all_months_equal vh vc
      (Z.max (simulation_period ra) (simulation_period rb))
      (dhw ra + dhw rb) s2 = (Ret c, s')
    ∧ v = VLoad c
    ∧ (∃ new, arrays s2 = arrays s ++ new) ∧ loads s2 = loads s
    ∧ out s2 = out s ++ period_warning (simulation_period ra)
                                        (simulation_period rb).
Proof.
  intros Ha Hb. unfold __add__. intros E.
  erewrite bind_Ret in E by by apply get_load_Some.
  erewrite bind_Ret in E by by apply get_load_Some.
  set (s0 := mkState (arrays s) (loads s)
               (out s ++ period_warning (simulation_period ra)
                                        (simulation_period rb))).
  erewrite (bind_Ret _ _ s s0) in E.
  2:{ unfold s0, period_warning.
      destruct (bool_decide _); [done|]. rewrite app_nil_r. by destruct s. }
  destruct (arrays s0 !! _hourly_heating_load ra) as [ha|] eqn:Hha.
  2:{ erewrite bind_Raise in E by (unfold deref; by rewrite Hha). done. }
  erewrite bind_Ret in E by by apply deref_Some.
  destruct (arrays s0 !! _hourly_heating_load rb) as [hb|] eqn:Hhb.
  2:{ erewrite bind_Raise in E by (unfold deref; by rewrite Hhb). done. }
  erewrite bind_Ret in E by by apply deref_Some.
  destruct (py_add ha hb) as [hs|e] eqn:Ehs.
  2:{ erewrite bind_Raise in E by reflexivity. done. }
  erewrite bind_Ret in E by reflexivity.
  erewrite bind_Ret in E by reflexivity.
  set (s1 := mkState (arrays s0 ++ [hs]) (loads s0) (out s0)) in E.
  destruct (arrays s1 !! _hourly_cooling_load ra) as [ca|] eqn:Hca.
  2:{ erewrite bind_Raise in E by (unfold deref; by rewrite Hca). done. }
  erewrite bind_Ret in E by by apply deref_Some.
  destruct (arrays s1 !! _hourly_cooling_load rb) as [cb|] eqn:Hcb.
  2:{ erewrite bind_Raise in E by (unfold deref; by rewrite Hcb). done. }
  erewrite bind_Ret in E by by apply deref_Some.
  destruct (py_add ca cb) as [cs|e] eqn:Ecs.
  2:{ erewrite bind_Raise in E by reflexivity. done. }
  erewrite bind_Ret in E by reflexivity.
  erewrite bind_Ret in E by reflexivity.
  set (s2 := mkState (arrays s1 ++ [cs]) (loads s1) (out s1)) in E.
  match type of E with
  | (?m ≫= _) _ = _ => destruct (m s2) as [[c|e] s3] eqn:Ei
  end.
  2:{ erewrite bind_Raise in E by apply Ei. done. }
  erewrite bind_Ret in E by apply Ei. injection E as <- <-.
  eexists _, _, s2, c. split; [apply Ei|]. split; [done|].
  split; [|done]. exists [hs; cs]. cbn. by rewrite <- app_assoc.
Qed.

(** X4.  Whenever the sum of two loads is returned, the operands holding
    flat sequences, it is an instance with two numpy arrays that
    validation lets through: 8760 entries each, none of them [None], and
    all of them numbers that are at least 0 unless a NaN is among them.
    It has the greater of the two simulation periods and the sum of the
    two hot water demands; its start month is the default of the class,
    not that of an operand; and a warning was written exactly when the
    periods differ. *)
Theorem add_establishes_invariant
    (base_start_month : Z) (base_all_months_equal : bool)
    (s s' : state) (a b : nat) (ra rb : HourlyGeothermalLoad) (v : value) :
  loads s !! a = Some ra →
  loads s !! b = Some rb →
  __add__ base_start_month base_all_months_equal a (VLoad b) s = (Ret v, s') →
  ∃ c rc, v = VLoad c
          ∧ loads s' !! c = Some rc
          ∧ holds_arrays s' rc
          ∧ simulation_period rc
            = Z.max (simulation_period ra) (simulation_period rb)
          ∧ dhw rc = dhw ra + dhw rb
          ∧ start_month rc = base_start_month
          ∧ all_months_equal rc = base_all_months_equal
          ∧ out s' = out s ++ period_warning (simulation_period ra)
                                              (simulation_period rb).
Proof.
  intros Ha Hb E.
  destruct (add_returns_via_init _ _ _ _ _ _ _ _ _ Ha Hb E)
    as (vh & vc & s2 & c & Ei & -> & _ & _ & Hout).
  destruct (init_establishes_invariant _ _ _ _ _ _ _ _ _ Ei)
    as (rc & _ & Hrc & Hinv & _ & _ & _ & Hsp & Hd & Hsm & Hame).
  exists c, rc. repeat (split; [done|]).
  rewrite <- Hout. clear -Ei.
  (* the constructor logs nothing when it returns *)
  revert Ei. unfold __init__.
  erewrite bind_Ret by apply np_zeros_run.
  erewrite bind_Ret by apply np_zeros_run.
  erewrite bind_Ret by reflexivity.
  cbn [arrays loads out].
  change (set_hourly_heating_load ?x ?y) with (set_hourly_heating x y).
  change (set_hourly_cooling_load ?x ?y) with (set_hourly_cooling x y).
  match goal with |- (_ ≫= _) ?st = _ → _ => set (s3 := st) end.
  change (out s2) with (out s3). clearbody s3. intros E.
  destruct (init_conversion_kind vh s3)
    as (res4 & s4 & E4 & L4 & O4 & [(e & ->)|(x4 & -> & A4 & K4)]).
  { erewrite bind_Raise in E by apply E4. done. }
  erewrite bind_Ret in E by apply E4.
  match type of E with
  | (?m ≫= _) _ = _ => destruct (m s4) as [[[]|e] s5] eqn:E5
  end.
  2:{ erewrite bind_Raise in E by apply E5. done. }
  erewrite bind_Ret in E by apply E5.
  apply set_heating_returns in E5 as (l & r & ? & ? & _ & _ & _ & _ & ->).
  match type of E with
  | (_ ≫= _) ?st = _ => set (s5 := st) in E
  end.
  destruct (init_conversion_kind vc s5)
    as (res6 & s6 & E6 & L6 & O6 & [(e & ->)|(x6 & -> & A6 & K6)]).
  { erewrite bind_Raise in E by apply E6. done. }
  erewrite bind_Ret in E by apply E6.
  match type of E with
  | (?m ≫= _) _ = _ => destruct (m s6) as [[[]|e] s7] eqn:E7
  end.
  2:{ erewrite bind_Raise in E by apply E7. done. }
  erewrite bind_Ret in E by apply E7.
  apply set_cooling_returns in E7 as (l' & r' & ? & ? & _ & _ & _ & _ & ->).
  unfold set_dhw, mbind, M_bind, get_load, put_load in E.
  cbn [assigned loads arrays out] in E.
  destruct (_ !! _) in E; [|done].
  cbn in E. injection E as _ <-. cbn [out]. by rewrite O6, <- O4.
Qed.

Lemma zip_with_Qcplus_comm (xs ys : list Qc) :
  zip_with Qcplus xs ys = zip_with Qcplus ys xs.
Proof.
  revert ys. induction xs as [|x xs IH]; intros [|y ys]; try done.
  cbn. by rewrite IH, Qcplus_comm.
Qed.

Lemma period_warning_comm (p1 p2 : Z) :
  period_warning p1 p2 = period_warning p2 p1.
Proof.
  unfold period_warning. rewrite Z.max_comm.
  destruct (decide (p1 = p2)) as [->|Hne]; [done|].
  by rewrite !bool_decide_eq_true_2 by done.
Qed.

(** X5.  Addition is commutative on loads with valid series of which,
    for heating and for cooling, at least one is a numpy array: [a + b]
    and [b + a] return the same instance and leave the same store
    behind, warning included. *)
Theorem add_commutes (base_start_month : Z) (base_all_months_equal : bool)
    (s : state) (a b : nat) (ra rb : HourlyGeothermalLoad)
    (kha khb kca kcb : seq_kind) (HA HB CA CB : list Qc) :
  loads s !! a = Some ra →
  loads s !! b = Some rb →
  arrays s !! _hourly_heating_load ra = Some (Seq kha (Num <$> HA)) →
  arrays s !! _hourly_heating_load rb = Some (Seq khb (Num <$> HB)) →
  arrays s !! _hourly_cooling_load ra = Some (Seq kca (Num <$> CA)) →
  arrays s !! _hourly_cooling_load rb = Some (Seq kcb (Num <$> CB)) →
  kha = ndarray ∨ khb = ndarray →
  kca = ndarray ∨ kcb = ndarray →
  Z.of_nat (length HA) = 8760%Z → Z.of_nat (length HB) = 8760%Z →
  Z.of_nat (length CA) = 8760%Z → Z.of_nat (length CB) = 8760%Z →
  Forall (Qcle 0) HA → Forall (Qcle 0) HB →
  Forall (Qcle 0) CA → Forall (Qcle 0) CB →
  __add__ base_start_month base_all_months_equal a (VLoad b) s
  = __add__ base_start_month base_all_months_equal b (VLoad a) s.
Proof.
  intros Ha Hb Hha Hhb Hca Hcb Kh Kc LHA LHB LCA LCB FHA FHB FCA FCB.
  rewrite (add_loads_run _ _ s a b ra rb kha khb kca kcb HA HB CA CB) by done.
  rewrite (add_loads_run _ _ s b a rb ra khb kha kcb kca HB HA CB CA)
    by (done || tauto).
  by rewrite (zip_with_Qcplus_comm HA HB), (zip_with_Qcplus_comm CA CB),
    Z.max_comm, (Qcplus_comm (dhw ra)), period_warning_comm.
Qed.

Lemma zip_with_Qcplus_zero (xs : list Qc) :
  Z.of_nat (length xs) = 8760%Z → zip_with Qcplus xs zero_series = xs.
Proof.
  intros Hlen. unfold zero_series.
  replace (Z.to_nat 8760) with (length xs) by lia. clear Hlen.
  induction xs as [|x xs IH]; [done|].
  cbn. by rewrite IH, Qcplus_0_r.
Qed.

(** X6.  The default load is neutral for addition: adding a load newly
    made by [HourlyGeothermalLoad()] to a load [a] with valid series gives
    a load with the heating and cooling series of [a] and its hot water
    demand, as numpy arrays even where [a] holds lists or tuples; the
    period is the greater of the two. *)
Theorem add_default_load (base_start_month : Z) (base_all_months_equal : bool)
    (s : state) (a : nat) (ra : HourlyGeothermalLoad) (kh kc : seq_kind)
    (H C : list Qc) (sp : Z) :
  loads s !! a = Some ra →
  arrays s !! _hourly_heating_load ra = Some (Seq kh (Num <$> H)) →
  arrays s !! _hourly_cooling_load ra = Some (Seq kc (Num <$> C)) →
  Z.of_nat (length H) = 8760%Z → Z.of_nat (length C) = 8760%Z →
  Forall (Qcle 0) H → Forall (Qcle 0) C →
  ∃ z s1 c s2 rc,
    __init__ base_start_month base_all_months_equal VNone VNone sp 0 s
    = (Ret z, s1)
    ∧ __add__ base_start_month base_all_months_equal a (VLoad z) s1
      = (Ret (VLoad c), s2)
    ∧ loads s2 !! c = Some rc
    ∧ arrays s2 !! _hourly_heating_load rc = Some (Seq ndarray (Num <$> H))
    ∧ arrays s2 !! _hourly_cooling_load rc = Some (Seq ndarray (Num <$> C))
    ∧ dhw rc = dhw ra
    ∧ simulation_period rc = Z.max (simulation_period ra) sp.
Proof.
  intros Ha Hh Hc LH LC FH FC.
  pose proof (init_run base_start_month base_all_months_equal s VNone VNone
                zero_series zero_series sp 0 (arg_default s) (arg_default s)) as Ei.
  cbv zeta in Ei.
  set (rz := mkLoad true sp 0 base_start_month base_all_months_equal
               (length (arrays s) + 2) (length (arrays s) + 3)) in Ei.
  match type of Ei with _ = (_, ?st) => set (s1 := st) in Ei end.
  assert (∀ l x, arrays s !! l = Some x → arrays s1 !! l = Some x) as Hkeep.
  { intros l x Hx. cbn [s1 arrays]. by apply lookup_app_l_Some. }
  pose proof (add_loads_run base_start_month base_all_months_equal s1 a
                (length (loads s)) ra rz kh ndarray kc ndarray
                H zero_series C zero_series) as Ea.
  cbv zeta in Ea.
  match type of Ea with _ → _ → _ → _ → _ → _ → _ → _ → _ → _ → _ → _ → _ → _ → _ → _ → _ = (_, ?st) =>
    set (s2 := st) in Ea end.
  exists (length (loads s)), s1, (length (loads s1)), s2.
  eexists. split; [done|]. split.
  { apply Ea; try done; try (by right);
      try apply zero_series_length; try apply zero_series_nonneg.
    - cbn [s1 loads]. by apply lookup_app_l_Some.
    - cbn [s1 loads]. by apply list_lookup_middle.
    - by apply Hkeep.
    - cbn [s1 arrays rz _hourly_heating_load]. rewrite lookup_app_r by lia.
      by replace (length (arrays s) + 2 - length (arrays s))%nat with 2%nat by lia.
    - by apply Hkeep.
    - cbn [s1 arrays rz _hourly_cooling_load]. rewrite lookup_app_r by lia.
      by replace (length (arrays s) + 3 - length (arrays s))%nat with 3%nat by lia. }
  split; [cbn [s2 loads]; by apply list_lookup_middle|].
  cbn [s2 arrays _hourly_heating_load _hourly_cooling_load dhw simulation_period rz].
  rewrite !zip_with_Qcplus_zero by done.
  split.
  { rewrite lookup_app_r by lia.
    by replace (length (arrays s1) + 4 - length (arrays s1))%nat with 4%nat by lia. }
  split.
  { rewrite lookup_app_r by lia.
    by replace (length (arrays s1) + 5 - length (arrays s1))%nat with 5%nat by lia. }
  split; [by rewrite Qcplus_0_r|done].
Qed.

(** ** Monthly peaks *)

Lemma peak_cooling_run (s : state) (self : nat) (r : HourlyGeothermalLoad)
    (k : seq_kind) (C : list Qc) :
  loads s !! self = Some r →
  arrays s !! _hourly_cooling_load r = Some (Seq k (Num <$> C)) →
  Z.of_nat (length C) = 8760%Z →
  (start_month r ≤ 13)%Z →
  ∃ p s',
    peak_cooling self s = (Ret p, s') ∧ extends s s'
    ∧ arrays s' !! p
      = Some (Seq ndarray
                (Num <$> (chunk_max <$> months r (rotate_left (start_hour_of r) C)))).
Proof.
  intros Hr Hc Hlen Hm. unfold peak_cooling.
  destruct (hourly_cooling_load_run s self r k C) as (lc & s1 & E1 & X1 & L1);
    [done..|].
  erewrite bind_Ret by apply E1.
  destruct (resample_to_monthly_run s1 self lc r
              (if (start_month r =? 1)%Z then k else ndarray)
              (rotate_left (start_hour_of r) C))
    as (p & b & s2 & E2 & X2 & L2 & _);
    [by rewrite (proj1 (proj2 X1)) | done | by rewrite rotate_left_length |].
  erewrite bind_Ret by apply E2.
  exists p, s2. split; [done|]. eauto using extends_trans.
Qed.

Lemma peak_heating_run (s : state) (self : nat) (r : HourlyGeothermalLoad)
    (H : list Qc) :
  loads s !! self = Some r →
  arrays s !! _hourly_heating_load r = Some (Seq ndarray (Num <$> H)) →
  Z.of_nat (length H) = 8760%Z →
  (start_month r ≤ 13)%Z →
  ∃ p s',
    peak_heating self s = (Ret p, s') ∧ extends s s'
    ∧ arrays s' !! p
      = Some (Seq ndarray
                (Num <$> (chunk_max <$> months r (rotate_left (start_hour_of r)
                                                    (with_hot_water r H))))).
Proof.
  intros Hr Hh Hlen Hm. unfold peak_heating.
  destruct (hourly_heating_load_run s self r H) as (lh & s1 & E1 & X1 & L1);
    [done..|].
  erewrite bind_Ret by apply E1.
  destruct (resample_to_monthly_run s1 self lh r ndarray
              (rotate_left (start_hour_of r) (with_hot_water r H)))
    as (p & b & s2 & E2 & X2 & L2 & _);
    [by rewrite (proj1 (proj2 X1)) | done
    | by rewrite rotate_left_length, with_hot_water_length |].
  erewrite bind_Ret by apply E2.
  exists p, s2. split; [done|]. eauto using extends_trans.
Qed.

Lemma Qc_max_add (x y d : Qc) : Qc_max (x + d) (y + d) = Qc_max x y + d.
Proof.
  unfold Qc_max.
  assert (Qc_ltb (x + d) (y + d) = Qc_ltb x y) as ->; [|by destruct (Qc_ltb x y)].
  unfold Qc_ltb. apply bool_decide_ext. symmetry. apply Qcplus_lt_mono_r.
Qed.

Lemma max_Qc_add (l : list Qc) (x d : Qc) :
  max_Qc (x + d) ((λ y, y + d) <$> l) = max_Qc x l + d.
Proof.
  unfold max_Qc. revert x. induction l as [|y l IH]; intros x; [done|].
  rewrite fmap_cons. cbn [foldl]. by rewrite Qc_max_add, IH.
Qed.

Lemma chunk_max_add (c : list Qc) (d : Qc) :
  c ≠ [] → chunk_max ((λ y, y + d) <$> c) = chunk_max c + d.
Proof. destruct c as [|x c]; [done|]. intros _. apply max_Qc_add. Qed.

(** X9.  Hot water lifts every monthly heating peak by [dhw / 8760]: the
    peak of a month is the greatest stored heating value of that month,
    months being counted from the start month, plus the hourly share of
    the hot water.  The cooling peaks are the greatest stored cooling
    values of the months, without hot water. *)
Theorem monthly_peaks (s : state) (self : nat)
    (r : HourlyGeothermalLoad) (k : seq_kind) (H C : list Qc) :
  loads s !! self = Some r →
  arrays s !! _hourly_heating_load r = Some (Seq ndarray (Num <$> H)) →
  arrays s !! _hourly_cooling_load r = Some (Seq k (Num <$> C)) →
  Z.of_nat (length H) = 8760%Z →
  Z.of_nat (length C) = 8760%Z →
  (start_month r ≤ 13)%Z →
  ∃ ph s1 pc s2,
    peak_heating self s = (Ret ph, s1)
    ∧ arrays s1 !! ph
      = Some (Seq ndarray
                (Num <$> ((λ c, chunk_max c + dhw r / Qc_of_Z 8760)
                            <$> months r (rotate_left (start_hour_of r) H))))
    ∧ peak_cooling self s = (Ret pc, s2)
    ∧ arrays s2 !! pc
      = Some (Seq ndarray
                (Num <$> (chunk_max
                            <$> months r (rotate_left (start_hour_of r) C))))
    ∧ Forall (λ c, c ≠ [] ∧ chunk_max c ∈ c ∧ Forall (λ x, x ≤ chunk_max c) c)
        (months r (rotate_left (start_hour_of r) H)
         ++ months r (rotate_left (start_hour_of r) C)).
Proof.
  intros Hr Hh Hc LH LC Hm.
  destruct (peak_heating_run s self r H) as (ph & s1 & E1 & _ & L1); [done..|].
  destruct (peak_cooling_run s self r k C) as (pc & s2 & E2 & _ & L2); [done..|].
  exists ph, s1, pc, s2.
  split; [done|]. split.
  { rewrite L1. do 3 f_equal. unfold with_hot_water.
    rewrite rotate_left_fmap, months_fmap, <- list_fmap_compose.
    apply Forall_fmap_ext.
    eapply Forall_impl;
      [apply (months_nonempty r); by rewrite rotate_left_length|].
    intros c Hne. by apply chunk_max_add. }
  split; [done|]. split; [done|].
  assert (∀ xs : list Qc, Z.of_nat (length xs) = 8760%Z →
          Forall (λ c, c ≠ [] ∧ chunk_max c ∈ c ∧ Forall (λ x, x ≤ chunk_max c) c)
                 (months r xs)) as Hmonths.
  { intros xs Hxs. eapply Forall_impl; [by apply (months_nonempty r)|].
    intros [|x c] Hne; [done|]. split; [done|]. apply max_Qc_is_max. }
  apply Forall_app. split; apply Hmonths; by rewrite rotate_left_length.
Qed.

(** ** The views over the simulation period *)

Lemma concat_replicate_nil {A} (n : nat) : concat (replicate n (@nil A)) = [].
Proof. induction n as [|n IH]; [done|]. by cbn. Qed.

Lemma concat_replicate_length {A} (n : nat) (xs : list A) :
  length (concat (replicate n xs)) = (n * length xs)%nat.
Proof.
  induction n as [|n IH]; [done|].
  cbn [replicate concat]. rewrite length_app, IH. lia.
Qed.

Lemma concat_replicate_fmap {A B} (f : A → B) (n : nat) (xs : list A) :
  concat (replicate n (f <$> xs)) = f <$> concat (replicate n xs).
Proof.
  induction n as [|n IH]; [done|].
  cbn [replicate concat]. by rewrite fmap_app, IH.
Qed.

(** Entry [i] of a tiled series is entry [i mod n] of the series. *)
Lemma concat_replicate_lookup {A} (n i : nat) (xs : list A) :
  (i < n * length xs)%nat →
  concat (replicate n xs) !! i = xs !! (i mod length xs)%nat.
Proof.
  revert i. induction n as [|n IH]; intros i Hi; [lia|].
  cbn [replicate concat].
  destruct (decide (i < length xs)%nat) as [Hlt|Hge].
  - rewrite lookup_app_l by done. by rewrite Nat.mod_small.
  - rewrite lookup_app_r by lia. rewrite IH by lia.
    f_equal. symmetry.
    replace i with ((i - length xs) + 1 * length xs)%nat at 1 by lia.
    apply Nat.Div0.mod_add.
Qed.

Lemma concat_replicate_zip_with {A B C} (f : A → B → C) (n : nat)
    (xs : list A) (ys : list B) :
  length xs = length ys →
  zip_with f (concat (replicate n xs)) (concat (replicate n ys))
  = concat (replicate n (zip_with f xs ys)).
Proof.
  intros Hlen. induction n as [|n IH]; [done|].
  cbn [replicate concat]. by rewrite zip_with_app, IH.
Qed.

Lemma np_tile_nums (k : seq_kind) (xs : list Qc) (n : Z) :
  (0 ≤ n)%Z →
  np_tile (Seq k (Num <$> xs)) n
  = Ret (Seq ndarray (Num <$> concat (replicate (Z.to_nat n) xs))).
Proof.
  intros Hn. unfold np_tile. destruct xs as [|x xs].
  - by rewrite concat_replicate_nil.
  - rewrite fmap_cons. rewrite (proj2 (Z.ltb_ge n 0)) by done.
    by rewrite <- concat_replicate_fmap, fmap_cons.
Qed.

Lemma np_tile_negative (k : seq_kind) (items : list elem) (n : Z) :
  items ≠ [] → (n < 0)%Z → np_tile (Seq k items) n = Raise ValueError.
Proof.
  intros Hne Hn. unfold np_tile. destruct items as [|x items]; [done|].
  by rewrite (proj2 (Z.ltb_lt n 0)).
Qed.

Lemma hourly_cooling_load_simulation_period_run (s : state) (self : nat)
    (r : HourlyGeothermalLoad) (k : seq_kind) (C : list Qc) :
  loads s !! self = Some r →
  arrays s !! _hourly_cooling_load r = Some (Seq k (Num <$> C)) →
  (start_month r ≤ 13)%Z →
  (0 ≤ simulation_period r)%Z →
  ∃ l s',
    hourly_cooling_load_simulation_period self s = (Ret l, s') ∧ extends s s'
    ∧ arrays s' !! l
      = Some (Seq ndarray
                (Num <$> concat (replicate (Z.to_nat (simulation_period r))
                                   (rotate_left (start_hour_of r) C)))).
Proof.
  intros Hr Hc Hm Hsp. unfold hourly_cooling_load_simulation_period.
  destruct (hourly_cooling_load_run s self r k C) as (lc & s1 & E1 & X1 & L1);
    [done..|].
  erewrite bind_Ret by apply E1.
  erewrite bind_Ret
    by (apply get_load_Some; by rewrite (proj1 (proj2 X1))).
  mstep deref_Some.
  erewrite bind_Ret by (unfold lift; by rewrite np_tile_nums).
  destruct (alloc_run
              (Seq ndarray
                 (Num <$> concat (replicate (Z.to_nat (simulation_period r))
                                    (rotate_left (start_hour_of r) C)))) s1)
    as (s2 & E2 & Ha & X2).
  exists (length (arrays s1)), s2.
  split; [done|]. split; [by eapply extends_trans|].
  rewrite Ha. by apply list_lookup_middle.
Qed.

Lemma hourly_heating_load_simulation_period_run (s : state) (self : nat)
    (r : HourlyGeothermalLoad) (H : list Qc) :
  loads s !! self = Some r →
  arrays s !! _hourly_heating_load r = Some (Seq ndarray (Num <$> H)) →
  (start_month r ≤ 13)%Z →
  (0 ≤ simulation_period r)%Z →
  ∃ l s',
    hourly_heating_load_simulation_period self s = (Ret l, s') ∧ extends s s'
    ∧ arrays s' !! l
      = Some (Seq ndarray
                (Num <$> concat (replicate (Z.to_nat (simulation_period r))
                                   (rotate_left (start_hour_of r)
                                      (with_hot_water r H))))).
Proof.
  intros Hr Hh Hm Hsp. unfold hourly_heating_load_simulation_period.
  destruct (hourly_heating_load_run s self r H) as (lh & s1 & E1 & X1 & L1);
    [done..|].
  erewrite bind_Ret by apply E1.
  erewrite bind_Ret
    by (apply get_load_Some; by rewrite (proj1 (proj2 X1))).
  mstep deref_Some.
  erewrite bind_Ret by (unfold lift; by rewrite np_tile_nums).
  destruct (alloc_run
              (Seq ndarray
                 (Num <$> concat (replicate (Z.to_nat (simulation_period r))
                                    (rotate_left (start_hour_of r)
                                       (with_hot_water r H))))) s1)
    as (s2 & E2 & Ha & X2).
  exists (length (arrays s1)), s2.
  split; [done|]. split; [by eapply extends_trans|].
  rewrite Ha. by apply list_lookup_middle.
Qed.

(** X11.  The heating and cooling views over the simulation period
    repeat the yearly series: each has [8760 * simulation_period]
    entries, and entry [i] is entry [i mod 8760] of what the yearly
    getter returns (the stored series counted from the start month, with
    the hourly share of the hot water for heating). *)
Theorem simulation_period_views_repeat_the_year (s : state) (self : nat)
    (r : HourlyGeothermalLoad) (k : seq_kind) (H C : list Qc) :
  loads s !! self = Some r →
  arrays s !! _hourly_heating_load r = Some (Seq ndarray (Num <$> H)) →
  arrays s !! _hourly_cooling_load r = Some (Seq k (Num <$> C)) →
  Z.of_nat (length H) = 8760%Z →
  Z.of_nat (length C) = 8760%Z →
  (start_month r ≤ 13)%Z →
  (0 ≤ simulation_period r)%Z →
  ∃ lc s1 lh s2 Cs Hs,
    hourly_cooling_load_simulation_period self s = (Ret lc, s1)
    ∧ arrays s1 !! lc = Some (Seq ndarray (Num <$> Cs))
    ∧ hourly_heating_load_simulation_period self s = (Ret lh, s2)
    ∧ arrays s2 !! lh = Some (Seq ndarray (Num <$> Hs))
    ∧ Z.of_nat (length Cs) = (8760 * simulation_period r)%Z
    ∧ Z.of_nat (length Hs) = (8760 * simulation_period r)%Z
    ∧ ∀ i, (i < length Cs)%nat →
        Cs !! i = rotate_left (start_hour_of r) C !! (i mod length C)%nat
        ∧ Hs !! i = rotate_left (start_hour_of r) (with_hot_water r H)
                      !! (i mod length H)%nat.
Proof.
  intros Hr Hh Hc LH LC Hm Hsp.
  destruct (hourly_cooling_load_simulation_period_run s self r k C)
    as (lc & s1 & E1 & _ & L1); [done..|].
  destruct (hourly_heating_load_simulation_period_run s self r H)
    as (lh & s2 & E2 & _ & L2); [done..|].
  eexists lc, s1, lh, s2, _, _.
  split; [done|]. split; [done|]. split; [done|]. split; [done|].
  rewrite !concat_replicate_length, !rotate_left_length, with_hot_water_length.
  split; [lia|]. split; [lia|].
  intros i Hi. split.
  - rewrite concat_replicate_lookup by (by rewrite rotate_left_length).
    by rewrite rotate_left_length.
  - rewrite concat_replicate_lookup
      by (rewrite rotate_left_length, with_hot_water_length; lia).
    by rewrite rotate_left_length, with_hot_water_length.
Qed.

(** X12.  The net view over the simulation period is the yearly cooling
    less the yearly heating, entry by entry, repeated [simulation_period]
    times; reading it changes no instance and logs nothing. *)
Theorem net_load_over_simulation_period (s : state) (self : nat)
    (r : HourlyGeothermalLoad) (k : seq_kind) (H C : list Qc) :
  loads s !! self = Some r →
  arrays s !! _hourly_heating_load r = Some (Seq ndarray (Num <$> H)) →
  arrays s !! _hourly_cooling_load r = Some (Seq k (Num <$> C)) →
  length C = length H →
  (start_month r ≤ 13)%Z →
  (0 ≤ simulation_period r)%Z →
  ∃ l s1 D,
    hourly_load_simulation_period self s = (Ret l, s1)
    ∧ arrays s1 !! l = Some (Seq ndarray (Num <$> D))
    ∧ D = concat (replicate (Z.to_nat (simulation_period r))
                    (zip_with Qcminus
                       (rotate_left (start_hour_of r) C)
                       (rotate_left (start_hour_of r) (with_hot_water r H))))
    ∧ extends s s1.
Proof.
  intros Hr Hh Hc Hlen Hm Hsp. unfold hourly_load_simulation_period.
  destruct (hourly_cooling_load_simulation_period_run s self r k C)
    as (lc & s1 & E1 & X1 & L1); [done..|].
  erewrite bind_Ret by apply E1.
  destruct (hourly_heating_load_simulation_period_run s1 self r H)
    as (lh & s2 & E2 & X2 & L2);
    [by rewrite (proj1 (proj2 X1)) | by eapply extends_lookup | done..|].
  erewrite bind_Ret by apply E2.
  erewrite bind_Ret by (apply deref_Some; by eapply extends_lookup).
  mstep deref_Some.
  assert (length (rotate_left (start_hour_of r) C)
          = length (rotate_left (start_hour_of r) (with_hot_water r H)))
    as Hrot by by rewrite !rotate_left_length, with_hot_water_length.
  erewrite bind_Ret.
  2:{ unfold lift. rewrite py_sub_array_r, np_op_arrays; [done|].
      by rewrite !concat_replicate_length, Hrot. }
  rewrite concat_replicate_zip_with by done.
  match goal with |- context [alloc ?a s2] =>
    destruct (alloc_run a s2) as (s3 & E3 & Ha & X3) end.
  pose proof (extends_trans _ _ _ (extends_trans _ _ _ X1 X2) X3) as X.
  eexists (length (arrays s2)), s3, _.
  split; [done|]. split; [rewrite Ha; by apply list_lookup_middle|].
  split; done.
Qed.

(** X13.  Nothing checks the sign of the simulation period before the
    views are read: on a load with a negative period each of the three
    views raises [ValueError], and leaves the load and the log as they
    were. *)
Theorem views_raise_on_negative_period (s : state) (self : nat)
    (r : HourlyGeothermalLoad) (k : seq_kind) (H C : list Qc) :
  loads s !! self = Some r →
  arrays s !! _hourly_heating_load r = Some (Seq ndarray (Num <$> H)) →
  arrays s !! _hourly_cooling_load r = Some (Seq k (Num <$> C)) →
  H ≠ [] → C ≠ [] →
  (start_month r ≤ 13)%Z →
  (simulation_period r < 0)%Z →
  ∃ s1 s2 s3,
    hourly_cooling_load_simulation_period self s = (Raise ValueError, s1)
    ∧ hourly_heating_load_simulation_period self s = (Raise ValueError, s2)
    ∧ hourly_load_simulation_period self s = (Raise ValueError, s3)
    ∧ extends s s1 ∧ extends s s2 ∧ extends s s3.
Proof.
  intros Hr Hh Hc HH HC Hm Hsp.
  assert (∃ s1, hourly_cooling_load_simulation_period self s
                = (Raise ValueError, s1) ∧ extends s s1) as (s1 & E1 & X1).
  { unfold hourly_cooling_load_simulation_period.
    destruct (hourly_cooling_load_run s self r k C) as (lc & s1 & E1 & X1 & L1);
      [done..|].
    erewrite bind_Ret by apply E1.
    erewrite bind_Ret
      by (apply get_load_Some; by rewrite (proj1 (proj2 X1))).
    mstep deref_Some.
    exists s1. split; [|done].
    apply bind_Raise. unfold lift. rewrite np_tile_negative; [done| |done].
    intros E%(f_equal length).
    rewrite length_fmap, rotate_left_length in E. by destruct C. }
  assert (∃ s2, hourly_heating_load_simulation_period self s
                = (Raise ValueError, s2) ∧ extends s s2) as (s2 & E2 & X2).
  { unfold hourly_heating_load_simulation_period.
    destruct (hourly_heating_load_run s self r H) as (lh & s2 & E2 & X2 & L2);
      [done..|].
    erewrite bind_Ret by apply E2.
    erewrite bind_Ret
      by (apply get_load_Some; by rewrite (proj1 (proj2 X2))).
    mstep deref_Some.
    exists s2. split; [|done].
    apply bind_Raise. unfold lift. rewrite np_tile_negative; [done| |done].
    intros E%(f_equal length).
    rewrite length_fmap, rotate_left_length, with_hot_water_length in E.
    by destruct H. }
  exists s1, s2, s1.
  split; [done|]. split; [done|]. split; [|done].
  unfold hourly_load_simulation_period. by apply bind_Raise.
Qed.

(** ** Equality *)

Lemma np_array_equal_nums (k1 k2 : seq_kind) (xs ys : list Qc) :
  np_array_equal (Seq k1 (Num <$> xs)) (Seq k2 (Num <$> ys))
  = bool_decide (xs = ys).
Proof.
  unfold np_array_equal. rewrite !length_fmap.
  destruct (decide (length xs = length ys)) as [Hlen|Hlen].
  - rewrite bool_decide_eq_true_2 by done. cbn [andb].
    revert ys Hlen. induction xs as [|x xs IH]; intros [|y ys] Hlen;
      simplify_eq/=; [done|].
    rewrite IH by done.
    destruct (decide (x = y)) as [->|Hxy].
    + rewrite bool_decide_eq_true_2 by done. cbn [andb].
      apply bool_decide_ext. split; [by intros ->|by intros [=]].
    + rewrite bool_decide_eq_false_2 by done. cbn [andb]. symmetry.
      apply bool_decide_eq_false_2. by intros [=].
  - rewrite (bool_decide_eq_false_2 (length xs = length ys)) by done.
    cbn [andb]. symmetry. apply bool_decide_eq_false_2. by intros ->.
Qed.

(** The series a load shows through its two getters. *)
Lemma eq_run (s : state) (a b : nat) (ra rb : HourlyGeothermalLoad)
    (kca kcb : seq_kind) (Ha Ca Hb Cb : list Qc) :
  loads s !! a = Some ra →
  loads s !! b = Some rb →
  arrays s !! _hourly_heating_load ra = Some (Seq ndarray (Num <$> Ha)) →
  arrays s !! _hourly_cooling_load ra = Some (Seq kca (Num <$> Ca)) →
  arrays s !! _hourly_heating_load rb = Some (Seq ndarray (Num <$> Hb)) →
  arrays s !! _hourly_cooling_load rb = Some (Seq kcb (Num <$> Cb)) →
  (start_month ra ≤ 13)%Z →
  (start_month rb ≤ 13)%Z →
  ∃ s',
    __eq__ a (VLoad b) s
    = (Ret (bool_decide
              (rotate_left (start_hour_of ra) Ca
               = rotate_left (start_hour_of rb) Cb)
            && bool_decide
                 (rotate_left (start_hour_of ra) (with_hot_water ra Ha)
                  = rotate_left (start_hour_of rb) (with_hot_water rb Hb))
            && bool_decide (simulation_period ra = simulation_period rb)),
       s')
    ∧ extends s s'.
Proof.
  intros Hra Hrb Hha Hca Hhb Hcb Hma Hmb. unfold __eq__.
  destruct (hourly_cooling_load_run s a ra kca Ca) as (c1 & s1 & E1 & X1 & L1);
    [done..|].
  erewrite bind_Ret by apply E1.
  destruct (hourly_cooling_load_run s1 b rb kcb Cb) as (c2 & s2 & E2 & X2 & L2);
    [by rewrite (proj1 (proj2 X1)) | by eapply extends_lookup | done |].
  erewrite bind_Ret by apply E2.
  erewrite bind_Ret by (apply deref_Some, (extends_lookup _ _ _ _ X2 L1)).
  mstep deref_Some.
  pose proof (extends_trans _ _ _ X1 X2) as X12.
  rewrite np_array_equal_nums.
  destruct (bool_decide (rotate_left (start_hour_of ra) Ca
                         = rotate_left (start_hour_of rb) Cb)).
  2:{ exists s2. by split. }
  cbn [negb andb].
  destruct (hourly_heating_load_run s2 a ra Ha) as (h1 & s3 & E3 & X3 & L3);
    [by rewrite (proj1 (proj2 X12)) | by eapply extends_lookup | done |].
  erewrite bind_Ret by apply E3.
  pose proof (extends_trans _ _ _ X12 X3) as X13.
  destruct (hourly_heating_load_run s3 b rb Hb) as (h2 & s4 & E4 & X4 & L4);
    [by rewrite (proj1 (proj2 X13)) | by eapply extends_lookup | done |].
  erewrite bind_Ret by apply E4.
  erewrite bind_Ret by (apply deref_Some, (extends_lookup _ _ _ _ X4 L3)).
  mstep deref_Some.
  pose proof (extends_trans _ _ _ X13 X4) as X14.
  rewrite np_array_equal_nums.
  destruct (bool_decide (rotate_left (start_hour_of ra) (with_hot_water ra Ha)
                         = rotate_left (start_hour_of rb) (with_hot_water rb Hb))).
  2:{ exists s4. by split. }
  cbn [negb andb].
  erewrite bind_Ret
    by (apply get_load_Some; by rewrite (proj1 (proj2 X14))).
  erewrite bind_Ret
    by (apply get_load_Some; by rewrite (proj1 (proj2 X14))).
  exists s4. by split.
Qed.

(** X14.  [==] compares what the getters return and the simulation
    period, and nothing else: on two loads whose series hold numbers,
    none of them NaN, it answers true exactly when the two cooling
    getters return the same series, the two heating getters return the
    same series, and the simulation periods are equal.  The comparison
    changes neither load and logs nothing. *)
Theorem eq_compares_the_series_read (s : state) (a b : nat)
    (ra rb : HourlyGeothermalLoad)
    (kca kcb : seq_kind) (Ha Ca Hb Cb : list Qc) :
  loads s !! a = Some ra →
  loads s !! b = Some rb →
  arrays s !! _hourly_heating_load ra = Some (Seq ndarray (Num <$> Ha)) →
  arrays s !! _hourly_cooling_load ra = Some (Seq kca (Num <$> Ca)) →
  arrays s !! _hourly_heating_load rb = Some (Seq ndarray (Num <$> Hb)) →
  arrays s !! _hourly_cooling_load rb = Some (Seq kcb (Num <$> Cb)) →
  (start_month ra ≤ 13)%Z →
  (start_month rb ≤ 13)%Z →
  ∃ CA CB HA HB res s',
    reads (hourly_cooling_load a) s CA
    ∧ reads (hourly_cooling_load b) s CB
    ∧ reads (hourly_heating_load a) s HA
    ∧ reads (hourly_heating_load b) s HB
    ∧ __eq__ a (VLoad b) s = (Ret res, s')
    ∧ (res = true ↔
         CA = CB ∧ HA = HB ∧ simulation_period ra = simulation_period rb)
    ∧ loads s' = loads s ∧ out s' = out s
    ∧ ∀ l x, arrays s !! l = Some x → arrays s' !! l = Some x.
Proof.
  intros Hra Hrb Hha Hca Hhb Hcb Hma Hmb.
  destruct (eq_run s a b ra rb kca kcb Ha Ca Hb Cb) as (s' & E & X); [done..|].
  destruct (hourly_cooling_load_run s a ra kca Ca) as (c1 & s1 & E1 & _ & L1);
    [done..|].
  destruct (hourly_cooling_load_run s b rb kcb Cb) as (c2 & s2 & E2 & _ & L2);
    [done..|].
  destruct (hourly_heating_load_run s a ra Ha) as (h1 & s3 & E3 & _ & L3);
    [done..|].
  destruct (hourly_heating_load_run s b rb Hb) as (h2 & s4 & E4 & _ & L4);
    [done..|].
  eexists _, _, _, _, _, s'.
  split; [by eexists c1, s1, _|]. split; [by eexists c2, s2, _|].
  split; [by eexists h1, s3, _|]. split; [by eexists h2, s4, _|].
  split; [done|]. split.
  { rewrite !andb_true_iff, !bool_decide_eq_true. tauto. }
  split; [apply X|]. split; [apply X|].
  intros l x Hl. by eapply extends_lookup.
Qed.

(** X15.  [==] is symmetric: [a == b] and [b == a] give the same
    answer. *)
Theorem eq_symmetric (s : state) (a b : nat)
    (ra rb : HourlyGeothermalLoad)
    (kca kcb : seq_kind) (Ha Ca Hb Cb : list Qc) :
  loads s !! a = Some ra →
  loads s !! b = Some rb →
  arrays s !! _hourly_heating_load ra = Some (Seq ndarray (Num <$> Ha)) →
  arrays s !! _hourly_cooling_load ra = Some (Seq kca (Num <$> Ca)) →
  arrays s !! _hourly_heating_load rb = Some (Seq ndarray (Num <$> Hb)) →
  arrays s !! _hourly_cooling_load rb = Some (Seq kcb (Num <$> Cb)) →
  (start_month ra ≤ 13)%Z →
  (start_month rb ≤ 13)%Z →
  (__eq__ a (VLoad b) s).1 = (__eq__ b (VLoad a) s).1.
Proof.
  intros Hra Hrb Hha Hca Hhb Hcb Hma Hmb.
  destruct (eq_run s a b ra rb kca kcb Ha Ca Hb Cb) as (s1 & E1 & _); [done..|].
  destruct (eq_run s b a rb ra kcb kca Hb Cb Ha Ca) as (s2 & E2 & _); [done..|].
  rewrite E1, E2. cbn [fst]. f_equal.
  f_equal; [f_equal|]; apply bool_decide_ext; split; by intros ->.
Qed.

Lemma with_hot_water_twice (ra rb : HourlyGeothermalLoad) (H : list Qc) :
  dhw rb = 0 → with_hot_water rb (with_hot_water ra H) = with_hot_water ra H.
Proof.
  intros Hd. unfold with_hot_water at 1. rewrite Hd.
  rewrite <- (list_fmap_id (with_hot_water ra H)) at 2.
  apply list_fmap_ext. intros _ x _. cbn. field. discriminate.
Qed.

(** X16.  The hot water itself is not compared: a load with hot water
    equals the load that has no hot water and stores the first one's
    heating series with the hourly share of the hot water already added,
    the cooling series, start month and simulation period being the
    same. *)
Theorem eq_does_not_compare_hot_water (s : state) (a b : nat)
    (ra rb : HourlyGeothermalLoad)
    (kca kcb : seq_kind) (H C : list Qc) :
  loads s !! a = Some ra →
  loads s !! b = Some rb →
  arrays s !! _hourly_heating_load ra = Some (Seq ndarray (Num <$> H)) →
  arrays s !! _hourly_cooling_load ra = Some (Seq kca (Num <$> C)) →
  arrays s !! _hourly_heating_load rb
    = Some (Seq ndarray (Num <$> with_hot_water ra H)) →
  arrays s !! _hourly_cooling_load rb = Some (Seq kcb (Num <$> C)) →
  dhw rb = 0 →
  start_month rb = start_month ra →
  all_months_equal rb = all_months_equal ra →
  simulation_period rb = simulation_period ra →
  (start_month ra ≤ 13)%Z →
  ∃ s', __eq__ a (VLoad b) s = (Ret true, s').
Proof.
  intros Hra Hrb Hha Hca Hhb Hcb Hd Hsm Hame Hsp Hm.
  destruct (eq_run s a b ra rb kca kcb H C (with_hot_water ra H) C)
    as (s' & E & _); [done.. | lia |].
  exists s'. rewrite E. do 2 f_equal.
  assert (start_hour_of rb = start_hour_of ra) as ->.
  { unfold start_hour_of, UPM. by rewrite Hsm, Hame. }
  rewrite with_hot_water_twice by done.
  by rewrite !bool_decide_eq_true_2.
Qed.

(** ** Getters and setters *)

(** X17.  What the getters hand out.  With the year starting in January
    the cooling getter returns the stored object itself and touches
    nothing; the heating getter, whatever the start month, returns an
    array that was not in the store before the call, holding the stored
    series with the hot water counted from the start month, and leaves
    the stored series as it is. *)
Theorem getters_share_or_copy (s : state) (self : nat)
    (r : HourlyGeothermalLoad) (H : list Qc) :
  loads s !! self = Some r →
  arrays s !! _hourly_heating_load r = Some (Seq ndarray (Num <$> H)) →
  (start_month r ≤ 13)%Z →
  (start_month r = 1%Z →
   hourly_cooling_load self s = (Ret (_hourly_cooling_load r), s))
  ∧ ∃ l s',
      hourly_heating_load self s = (Ret l, s')
      ∧ arrays s !! l = None
      ∧ arrays s' !! l
        = Some (Seq ndarray
                  (Num <$> rotate_left (start_hour_of r) (with_hot_water r H)))
      ∧ arrays s' !! _hourly_heating_load r = Some (Seq ndarray (Num <$> H))
      ∧ loads s' = loads s.
Proof.
  intros Hr Hh Hm. split.
  { intros E. unfold hourly_cooling_load. mstep get_load_Some.
    unfold correct_for_start_month. mstep get_load_Some.
    by rewrite (proj2 (Z.eqb_eq _ _) E). }
  unfold hourly_heating_load.
  mstep get_load_Some. mstep deref_Some.
  erewrite bind_Ret by (unfold lift; by rewrite py_add_scalar_array).
  destruct (alloc_run (Seq ndarray (Num <$> with_hot_water r H)) s)
    as (s1 & E1 & Ha & X1).
  erewrite bind_Ret by apply E1.
  assert (arrays s1 !! length (arrays s)
          = Some (Seq ndarray (Num <$> with_hot_water r H))) as L1
    by (rewrite Ha; by apply list_lookup_middle).
  unfold correct_for_start_month.
  erewrite bind_Ret by (apply get_load_Some; by rewrite (proj1 (proj2 X1))).
  destruct (Z.eqb_spec (start_month r) 1) as [E|E].
  - exists (length (arrays s)), s1. split; [done|].
    split; [by apply lookup_ge_None|].
    split; [by rewrite (start_hour_January r E), rotate_left_0|].
    split; [by eapply extends_lookup | apply X1].
  - mstep deref_Some.
    erewrite bind_Ret by (unfold lift; by rewrite start_hour_run).
    mcompute.
    match goal with |- context [alloc ?a s1] =>
      destruct (alloc_run a s1) as (s2 & E2 & Ha2 & X2) end.
    exists (length (arrays s1)), s2. split; [done|].
    split; [apply lookup_ge_None; rewrite Ha, length_app; cbn; lia|].
    split; [rewrite Ha2, rotate_left_fmap; by apply list_lookup_middle|].
    split; [by eapply extends_lookup, extends_lookup|].
    by rewrite (proj1 (proj2 X2)), (proj1 (proj2 X1)).
Qed.

(** X19.  A series that a setter accepts is what the getter shows next:
    after [set_hourly_cooling] with a valid list, tuple or array the
    cooling getter returns that series counted from the start month;
    after [set_hourly_heating] with a valid array the heating getter
    returns it with the hourly share of the hot water.  The other series
    of the load, its other attributes and every other instance stay as
    they were. *)
Theorem setter_then_getter (s : state) (self l : nat)
    (r : HourlyGeothermalLoad) (k : seq_kind) (xs : list Qc) :
  loads s !! self = Some r →
  arrays s !! l = Some (Seq k (Num <$> xs)) →
  Z.of_nat (length xs) = 8760%Z →
  Forall (Qcle 0) xs →
  (start_month r ≤ 13)%Z →
  (∃ s1 l' s2,
     set_hourly_cooling self (VSeq l) s = (Ret (), s1)
     ∧ hourly_cooling_load self s1 = (Ret l', s2)
     ∧ arrays s2 !! l'
       = Some (Seq (if (start_month r =? 1)%Z then k else ndarray)
                   (Num <$> rotate_left (start_hour_of r) xs))
     ∧ loads s2 = <[self := with_cooling r l]> (loads s)
     ∧ out s2 = out s)
  ∧ (k = ndarray →
     ∃ s1 l' s2,
       set_hourly_heating self (VSeq l) s = (Ret (), s1)
       ∧ hourly_heating_load self s1 = (Ret l', s2)
       ∧ arrays s2 !! l'
         = Some (Seq ndarray
                   (Num <$> rotate_left (start_hour_of r) (with_hot_water r xs)))
       ∧ loads s2 = <[self := with_heating r l]> (loads s)
       ∧ out s2 = out s).
Proof.
  intros Hr Hl Hlen Hpos Hm.
  pose proof (check_input_valid s self l k xs Hl Hlen Hpos) as Hok.
  assert (self < length (loads s))%nat as Hself by by eapply lookup_lt_Some.
  split.
  - pose proof (set_cooling_accepted s self l r Hr Hok) as Eset.
    set (s1 := assigned s self (with_cooling r l)) in *.
    destruct (hourly_cooling_load_run s1 self (with_cooling r l) k xs)
      as (l' & s2 & E2 & X2 & L2);
      [by apply list_lookup_insert_eq | done | done |].
    exists s1, l', s2. split; [done|]. split; [done|]. split; [done|].
    split; apply X2.
  - intros ->.
    pose proof (set_heating_accepted s self l r Hr Hok) as Eset.
    set (s1 := assigned s self (with_heating r l)) in *.
    destruct (hourly_heating_load_run s1 self (with_heating r l) xs)
      as (l' & s2 & E2 & X2 & L2);
      [by apply list_lookup_insert_eq | done | done |].
    exists s1, l', s2. split; [done|]. split; [done|]. split; [done|].
    split; apply X2.
Qed.

(** ** NaN *)

(** X21.  A NaN among the entries switches the test for negative values
    off.  A list or tuple of 8760 floats, or an array of 8760 floats,
    with a NaN among them passes [_check_input] whatever its other
    entries are, negative numbers included, and nothing is logged; both
    setters then make the attribute refer to it, changing nothing
    else. *)
Theorem nan_passes_validation (s : state) (self l : nat)
    (r : HourlyGeothermalLoad) (k : seq_kind) (items : list elem) :
  loads s !! self = Some r →
  arrays s !! l = Some (Seq k items) →
  Z.of_nat (length items) = 8760%Z →
  NoneElem ∉ items →
  NaN ∈ items →
  _check_input self (VSeq l) s = (Ret true, s)
  ∧ ∃ s1 r1 s2 r2,
      set_hourly_heating self (VSeq l) s = (Ret (), s1)
      ∧ arrays s1 = arrays s ∧ out s1 = out s
      ∧ loads s1 = <[self := r1]> (loads s)
      ∧ heating_replaced r l r1
      ∧ set_hourly_cooling self (VSeq l) s = (Ret (), s2)
      ∧ arrays s2 = arrays s ∧ out s2 = out s
      ∧ loads s2 = <[self := r2]> (loads s)
      ∧ cooling_replaced r l r2.
Proof.
  intros Hr Hl Hlen Hnone Hnan.
  pose proof (check_input_NaN s self l k items Hl Hlen Hnone Hnan) as E.
  split; [done|].
  exists (assigned s self (with_heating r l)), (with_heating r l),
         (assigned s self (with_cooling r l)), (with_cooling r l).
  split; [by apply set_heating_accepted|].
  split; [done|]. split; [done|]. split; [done|].
  split; [by repeat split|].
  split; [by apply set_cooling_accepted|].
  split; [done|]. split; [done|]. split; [done|].
  by repeat split.
Qed.

(** ** The properties on the example stores *)

Lemma with_hot_water_load_C :
  with_hot_water load_C zero_series = constant_series 1.
Proof.
  unfold with_hot_water, zero_series, constant_series.
  rewrite fmap_replicate. f_equal. apply Qc_is_canon. reflexivity.
Qed.

Lemma constructor_rejects_witness :
  bad_arg example_store (VNum 1) TypeError
  ∧ ∃ s' new_arrays new_loads,
      __init__ 1 false (VNum 1) VNone 20 0 example_store = (Raise TypeError, s')
      ∧ arrays s' = arrays example_store ++ new_arrays
      ∧ loads s' = loads example_store ++ new_loads.
Proof.
  split; [apply bad_number|].
  apply (constructor_rejects 1 false example_store (VNum 1) VNone 20 0 TypeError).
  left. apply bad_number.
Defined.

Lemma constructor_establishes_invariant_witness :
  ∃ self s' r,
    __init__ 1 false VNone (VSeq 4) 20 0 example_store = (Ret self, s')
    ∧ loads s' !! self = Some r
    ∧ holds_arrays s' r
    ∧ simulation_period r = 20%Z.
Proof.
  pose proof (init_run 1 false example_store VNone (VSeq 4) zero_series
                (constant_series 5) 20 0 (arg_default _)
                (arg_series example_store 4%nat pylist (constant_series 5)
                   eq_refl (constant_series_length 5)
                   (constant_series_nonneg 5 ltac:(lia)))) as E.
  cbv zeta in E.
  destruct (constructor_establishes_invariant _ _ _ _ _ _ _ _ _ E)
    as (r & _ & L & Hh & _ & _ & _ & Hsp & _).
  eexists _, _, r. split; [exact E|]. repeat split; assumption.
Defined.

Lemma add_establishes_invariant_witness :
  loads example_store !! 0%nat = Some load_A
  ∧ loads example_store !! 1%nat = Some load_B
  ∧ ∃ c rc s',
      __add__ 1 false 0 (VLoad 1) example_store = (Ret (VLoad c), s')
      ∧ loads s' !! c = Some rc
      ∧ holds_arrays s' rc
      ∧ simulation_period rc = Z.max 20 25
      ∧ out s' = period_warning 20 25.
Proof.
  split; [reflexivity|]. split; [reflexivity|].
  pose proof (add_loads_run 1 false example_store 0 1 load_A load_B
                ndarray ndarray ndarray ndarray
                (constant_series 1) (constant_series 3)
                (constant_series 2) (constant_series 4)
                eq_refl eq_refl eq_refl eq_refl eq_refl eq_refl
                (or_introl eq_refl) (or_introl eq_refl)
                (constant_series_length 1) (constant_series_length 3)
                (constant_series_length 2) (constant_series_length 4)
                (constant_series_nonneg 1 ltac:(lia))
                (constant_series_nonneg 3 ltac:(lia))
                (constant_series_nonneg 2 ltac:(lia))
                (constant_series_nonneg 4 ltac:(lia))) as E.
  cbv zeta in E.
  destruct (add_establishes_invariant 1 false example_store _ 0 1
              load_A load_B _ eq_refl eq_refl E)
    as (c & rc & Hv & L & Hh & Hsp & _ & _ & _ & Hout).
  injection Hv as <-.
  eexists _, rc, _. split; [exact E|]. repeat split; assumption.
Defined.

Lemma add_commutes_witness :
  loads example_store !! 0%nat = Some load_A
  ∧ loads example_store !! 1%nat = Some load_B
  ∧ __add__ 1 false 0 (VLoad 1) example_store
    = __add__ 1 false 1 (VLoad 0) example_store.
Proof.
  split; [reflexivity|]. split; [reflexivity|].
  apply (add_commutes 1 false example_store 0 1 load_A load_B
           ndarray ndarray ndarray ndarray
           (constant_series 1) (constant_series 3)
           (constant_series 2) (constant_series 4)
           eq_refl eq_refl eq_refl eq_refl eq_refl eq_refl
           (or_introl eq_refl) (or_introl eq_refl)
           (constant_series_length 1) (constant_series_length 3)
           (constant_series_length 2) (constant_series_length 4)
           (constant_series_nonneg 1 ltac:(lia))
           (constant_series_nonneg 3 ltac:(lia))
           (constant_series_nonneg 2 ltac:(lia))
           (constant_series_nonneg 4 ltac:(lia))).
Defined.

Lemma add_default_load_witness :
  loads example_store !! 0%nat = Some load_A
  ∧ ∃ z s1 c s2 rc,
      __init__ 1 false VNone VNone 30 0 example_store = (Ret z, s1)
      ∧ __add__ 1 false 0 (VLoad z) s1 = (Ret (VLoad c), s2)
      ∧ loads s2 !! c = Some rc
      ∧ arrays s2 !! _hourly_heating_load rc
        = Some (Seq ndarray (Num <$> constant_series 1))
      ∧ arrays s2 !! _hourly_cooling_load rc
        = Some (Seq ndarray (Num <$> constant_series 2))
      ∧ dhw rc = 0
      ∧ simulation_period rc = Z.max 20 30.
Proof.
  split; [reflexivity|].
  apply (add_default_load 1 false example_store 0 load_A ndarray ndarray
           (constant_series 1) (constant_series 2) 30
           eq_refl eq_refl eq_refl
           (constant_series_length 1) (constant_series_length 2)
           (constant_series_nonneg 1 ltac:(lia))
           (constant_series_nonneg 2 ltac:(lia))).
Defined.

Lemma monthly_peaks_witness :
  loads example_store !! 1%nat = Some load_B
  ∧ ∃ ph s1,
      peak_heating 1 example_store = (Ret ph, s1)
      ∧ arrays s1 !! ph
        = Some (Seq ndarray
                  (Num <$> ((λ c, chunk_max c + Qc_of_Z 100 / Qc_of_Z 8760)
                              <$> months load_B
                                    (rotate_left (start_hour_of load_B)
                                       (constant_series 3))))).
Proof.
  split; [reflexivity|].
  destruct (monthly_peaks example_store 1 load_B ndarray
              (constant_series 3) (constant_series 4)
              eq_refl eq_refl eq_refl
              (constant_series_length 3) (constant_series_length 4)
              ltac:(cbn; lia))
    as (ph & s1 & _ & _ & E & L & _).
  exists ph, s1. split; assumption.
Defined.

Lemma simulation_period_views_repeat_the_year_witness :
  loads example_store !! 1%nat = Some load_B
  ∧ ∃ lc s1 lh s2 Cs Hs,
      hourly_cooling_load_simulation_period 1 example_store = (Ret lc, s1)
      ∧ arrays s1 !! lc = Some (Seq ndarray (Num <$> Cs))
      ∧ hourly_heating_load_simulation_period 1 example_store = (Ret lh, s2)
      ∧ arrays s2 !! lh = Some (Seq ndarray (Num <$> Hs))
      ∧ Z.of_nat (length Cs) = (8760 * 25)%Z
      ∧ Z.of_nat (length Hs) = (8760 * 25)%Z.
Proof.
  split; [reflexivity|].
  destruct (simulation_period_views_repeat_the_year example_store 1 load_B
              ndarray (constant_series 3) (constant_series 4)
              eq_refl eq_refl eq_refl
              (constant_series_length 3) (constant_series_length 4)
              ltac:(cbn; lia) ltac:(cbn; lia))
    as (lc & s1 & lh & s2 & Cs & Hs & E1 & L1 & E2 & L2 & N1 & N2 & _).
  exists lc, s1, lh, s2, Cs, Hs. repeat split; assumption.
Defined.

Lemma net_load_over_simulation_period_witness :
  loads example_store !! 1%nat = Some load_B
  ∧ ∃ l s1 D,
      hourly_load_simulation_period 1 example_store = (Ret l, s1)
      ∧ arrays s1 !! l = Some (Seq ndarray (Num <$> D))
      ∧ D = concat (replicate (Z.to_nat 25)
                      (zip_with Qcminus
                         (rotate_left (start_hour_of load_B) (constant_series 4))
                         (rotate_left (start_hour_of load_B)
                            (with_hot_water load_B (constant_series 3))))).
Proof.
  split; [reflexivity|].
  destruct (net_load_over_simulation_period example_store 1 load_B
              ndarray (constant_series 3) (constant_series 4)
              eq_refl eq_refl eq_refl eq_refl
              ltac:(cbn; lia) ltac:(cbn; lia))
    as (l & s1 & D & E1 & L1 & HD & _).
  exists l, s1, D. repeat split; assumption.
Defined.

Lemma views_raise_on_negative_period_witness :
  loads further_store !! 1%nat = Some load_D
  ∧ (simulation_period load_D < 0)%Z
  ∧ ∃ s1 s2 s3,
      hourly_cooling_load_simulation_period 1 further_store
      = (Raise ValueError, s1)
      ∧ hourly_heating_load_simulation_period 1 further_store
        = (Raise ValueError, s2)
      ∧ hourly_load_simulation_period 1 further_store
        = (Raise ValueError, s3).
Proof.
  split; [reflexivity|]. split; [reflexivity|].
  destruct (views_raise_on_negative_period further_store 1 load_D ndarray
              (constant_series 1) (constant_series 2)
              eq_refl eq_refl eq_refl)
    as (s1 & s2 & s3 & E1 & E2 & E3 & _).
  - intros E. apply (f_equal length) in E. discriminate E.
  - intros E. apply (f_equal length) in E. discriminate E.
  - cbn. lia.
  - reflexivity.
  - exists s1, s2, s3. repeat split; assumption.
Defined.

Lemma eq_compares_the_series_read_witness :
  loads example_store !! 0%nat = Some load_A
  ∧ loads example_store !! 1%nat = Some load_B
  ∧ ∃ CA CB res s',
      reads (hourly_cooling_load 0) example_store CA
      ∧ reads (hourly_cooling_load 1) example_store CB
      ∧ __eq__ 0 (VLoad 1) example_store = (Ret res, s')
      ∧ (res = true → CA = CB)
      ∧ loads s' = loads example_store ∧ out s' = out example_store.
Proof.
  split; [reflexivity|]. split; [reflexivity|].
  destruct (eq_compares_the_series_read example_store 0 1 load_A load_B
              ndarray ndarray
              (constant_series 1) (constant_series 2)
              (constant_series 3) (constant_series 4)
              eq_refl eq_refl eq_refl eq_refl eq_refl eq_refl
              ltac:(cbn; lia) ltac:(cbn; lia))
    as (CA & CB & HA & HB & res & s' & R1 & R2 & _ & _ & E & Hiff & HL & HO & _).
  exists CA, CB, res, s'.
  split; [assumption|]. split; [assumption|]. split; [assumption|].
  split; [intros Hres; apply (proj1 Hiff Hres)|]. split; assumption.
Defined.

Lemma eq_symmetric_witness :
  loads example_store !! 0%nat = Some load_A
  ∧ loads example_store !! 1%nat = Some load_B
  ∧ (__eq__ 0 (VLoad 1) example_store).1 = (__eq__ 1 (VLoad 0) example_store).1.
Proof.
  split; [reflexivity|]. split; [reflexivity|].
  apply (eq_symmetric example_store 0 1 load_A load_B ndarray ndarray
           (constant_series 1) (constant_series 2)
           (constant_series 3) (constant_series 4)
           eq_refl eq_refl eq_refl eq_refl eq_refl eq_refl
           ltac:(cbn; lia) ltac:(cbn; lia)).
Defined.

Lemma eq_does_not_compare_hot_water_witness :
  loads further_store !! 0%nat = Some load_C
  ∧ loads further_store !! 2%nat = Some load_E
  ∧ dhw load_C ≠ dhw load_E
  ∧ ∃ s', __eq__ 0 (VLoad 2) further_store = (Ret true, s').
Proof.
  split; [reflexivity|]. split; [reflexivity|]. split; [discriminate|].
  apply (eq_does_not_compare_hot_water further_store 0 2 load_C load_E
           ndarray ndarray zero_series zero_series
           eq_refl eq_refl eq_refl eq_refl).
  - rewrite with_hot_water_load_C. reflexivity.
  - reflexivity.
  - reflexivity.
  - reflexivity.
  - reflexivity.
  - reflexivity.
  - cbn. lia.
Defined.

Lemma getters_share_or_copy_witness :
  loads further_store !! 1%nat = Some load_D
  ∧ hourly_cooling_load 1 further_store = (Ret 1%nat, further_store)
  ∧ ∃ l s',
      hourly_heating_load 1 further_store = (Ret l, s')
      ∧ arrays further_store !! l = None.
Proof.
  split; [reflexivity|].
  destruct (getters_share_or_copy further_store 1 load_D (constant_series 1)
              eq_refl eq_refl ltac:(cbn; lia))
    as [Hc (l & s' & E & Hn & _)].
  split; [exact (Hc eq_refl)|].
  exists l, s'. split; assumption.
Defined.

Lemma setter_then_getter_witness :
  loads example_store !! 0%nat = Some load_A
  ∧ arrays example_store !! 4%nat = Some (Seq pylist (Num <$> constant_series 5))
  ∧ ∃ s1 l' s2,
      set_hourly_cooling 0 (VSeq 4) example_store = (Ret (), s1)
      ∧ hourly_cooling_load 0 s1 = (Ret l', s2)
      ∧ arrays s2 !! l'
        = Some (Seq ndarray
                  (Num <$> rotate_left (start_hour_of load_A)
                             (constant_series 5))).
Proof.
  split; [reflexivity|]. split; [reflexivity|].
  destruct (proj1 (setter_then_getter example_store 0 4 load_A pylist
                     (constant_series 5) eq_refl eq_refl
                     (constant_series_length 5)
                     (constant_series_nonneg 5 ltac:(lia))
                     ltac:(cbn; lia)))
    as (s1 & l' & s2 & E1 & E2 & L & _).
  exists s1, l', s2. repeat split; assumption.
Defined.

Lemma nan_passes_validation_witness :
  arrays irregular_store !! 5%nat
  = Some (Seq ndarray (NaN :: Num (Qc_of_Z (-1))
                       :: (Num <$> replicate (Z.to_nat 8758) 0)))
  ∧ Qc_of_Z (-1) < 0
  ∧ _check_input 0 (VSeq 5) irregular_store = (Ret true, irregular_store)
  ∧ ∃ s1 r1,
      set_hourly_heating 0 (VSeq 5) irregular_store = (Ret (), s1)
      ∧ loads s1 = <[0%nat := r1]> (loads irregular_store)
      ∧ _hourly_heating_load r1 = 5%nat.
Proof.
  split; [reflexivity|]. split; [reflexivity|].
  destruct (nan_passes_validation irregular_store 0 5
              (mkLoad true 20 0 1 false 0 1) ndarray
              (NaN :: Num (Qc_of_Z (-1)) :: (Num <$> replicate (Z.to_nat 8758) 0))
              eq_refl eq_refl)
    as (Hcheck & s1 & r1 & _ & _ & E & _ & _ & HL & Hrep & _).
  - reflexivity.
  - intros H. apply elem_of_cons in H as [H|H]; [discriminate|].
    apply elem_of_cons in H as [H|H]; [discriminate|].
    apply list_elem_of_fmap in H as (x & Hx & _). discriminate.
  - apply elem_of_cons. by left.
  - split; [exact Hcheck|]. exists s1, r1.
    split; [exact E|]. split; [exact HL|]. apply Hrep.
Defined.
